(** * aioncli provider adapters: a shallow embedding and its properties

  The development follows the TypeScript sources of the multi-provider
  adapter layer:

  - [packages/core/src/utils/safeJsonParse.ts]
  - [packages/core/src/core/openaiContentGenerator.ts]
  - [packages/core/src/core/bedrockContentGenerator.ts] (two generations of
    the Bedrock adapter live in that file; they are kept apart here as
    [BedrockLegacy] and [Bedrock])
  - the Anthropic adapter ([AnthropicContentGenerator]).

  JavaScript values are modelled by the [json] type, JavaScript [Map]s by
  insertion-ordered association lists, [Set]s of strings by [gset string],
  exceptions by the [Outcome] type, and generators by the list of the
  responses they yield (plus the error that ends them, where there is one);
  the Anthropic stream wrapper is the state machine its [next()] drives. *)

From Stdlib Require Import ZArith String Ascii List Bool Lia.
From stdpp Require Import base gmap strings list pretty.

Set Warnings "-clear-no-such-hyp".

Open Scope string_scope.
Open Scope Z_scope.
Open Scope nat_scope.
Open Scope list_scope.

(** ** JavaScript values *)

(** A JSON document.  Numbers are integers: the adapters only ever inspect
  token counts and schema bounds. Objects keep their entries in insertion
  order, as [Object.entries] enumerates them. *)
#[warnings="-register-all"]
Inductive json : Type :=
| JNull
| JBool (b : bool)
| JNum (n : Z)
| JStr (s : string)
| JArr (xs : list json)
| JObj (fields : list (string * json)).

Module Js.

(** [if (v)], [!v], [a || b] on JSON values. *)
Definition truthy (v : json) : bool :=
  match v with
  | JNull => false
  | JBool b => b
  | JNum n => negb (n =? 0)%Z
  | JStr s => negb (String.eqb s "")
  | JArr _ => true
  | JObj _ => true
  end.

(** Truthiness of a string: every string but the empty one. *)
Definition nonempty (s : string) : bool := negb (String.eqb s "").

(** Truthiness of an optional string ([undefined], [null] or a string). *)
Definition truthy_str (o : option string) : bool :=
  match o with Some s => nonempty s | None => false end.

(** [o || d] for an optional string. *)
Definition str_or (o : option string) (d : string) : string :=
  match o with Some s => if nonempty s then s else d | None => d end.

(** A string is held as the bytes of its UTF-8 encoding, so a character
    outside the ASCII range takes two to four bytes. *)

(** [String.prototype.toLowerCase] on text whose letters are ASCII: the
    letters [A] to [Z] are mapped and every other byte is kept. *)
Definition lower_ascii (c : ascii) : ascii :=
  let n := nat_of_ascii c in
  if (65 <=? n) && (n <=? 90) then ascii_of_nat (n + 32) else c.

Fixpoint toLowerCase (s : string) : string :=
  match s with
  | EmptyString => EmptyString
  | String c r => String (lower_ascii c) (toLowerCase r)
  end.

(** The line feed character. *)
Definition LF : ascii := ascii_of_nat 10.

(** [s.split('\n')] *)
Fixpoint split_lines (s : string) : list string :=
  match s with
  | EmptyString => [EmptyString]
  | String c r =>
      if Ascii.eqb c LF then EmptyString :: split_lines r
      else match split_lines r with
           | h :: t => String c h :: t
           | [] => [String c EmptyString]
           end
  end.

(** [lines.join('\n')] *)
Definition join_lines (lines : list string) : string :=
  String.concat (String LF EmptyString) lines.

(** [s.includes(needle)] *)
Fixpoint includes (needle s : string) : bool :=
  String.prefix needle s
  || match s with
     | EmptyString => false
     | String _ r => includes needle r
     end.

(** [s.slice(n)] *)
Fixpoint slice (n : nat) (s : string) : string :=
  match n, s with
  | O, _ => s
  | S n', String _ r => slice n' r
  | S _, EmptyString => EmptyString
  end.

(** [s.startsWith(p)] *)
Definition startsWith (p s : string) : bool := String.prefix p s.

(** The string of the given bytes. *)
Definition bytes (codes : list nat) : string :=
  string_of_list_ascii (map ascii_of_nat codes).

(** The characters [String.prototype.trim] strips, the WhiteSpace and
    LineTerminator code points of ECMAScript, each by its UTF-8 bytes:
    U+0009 to U+000D, U+0020, U+00A0, U+1680, U+2000 to U+200A, U+2028,
    U+2029, U+202F, U+205F, U+3000 and U+FEFF. *)
Definition white_space : list string :=
  map bytes
    [ [9]; [10]; [11]; [12]; [13]; [32];
      [194; 160];
      [225; 154; 128];
      [226; 128; 128]; [226; 128; 129]; [226; 128; 130]; [226; 128; 131];
      [226; 128; 132]; [226; 128; 133]; [226; 128; 134]; [226; 128; 135];
      [226; 128; 136]; [226; 128; 137]; [226; 128; 138];
      [226; 128; 168]; [226; 128; 169]; [226; 128; 175];
      [226; 129; 159];
      [227; 128; 128];
      [239; 187; 191] ].

(** [s] without the members of [patterns] it begins with, one after the
    other; [fuel] bounds their number. *)
Fixpoint strip (patterns : list string) (fuel : nat) (s : string) : string :=
  match fuel with
  | O => s
  | S fuel' =>
      match List.find (fun w => String.prefix w s) patterns with
      | Some w =>
          if String.eqb w "" then s
          else strip patterns fuel' (slice (String.length w) s)
      | None => s
      end
  end.

(** [s] with its bytes in reverse order. *)
Definition reverse (s : string) : string :=
  string_of_list_ascii (rev (list_ascii_of_string s)).

(** [s.trimStart()] *)
Definition trimStart (s : string) : string :=
  strip white_space (String.length s) s.

(** [s.trimEnd()]; in UTF-8 a string ends with the bytes of a character
    only when that character is its last. *)
Definition trimEnd (s : string) : string :=
  reverse (strip (map reverse white_space) (String.length s) (reverse s)).

(** [s.trim()] *)
Definition trim (s : string) : string := trimEnd (trimStart s).

(** Own-property assignment [o[k] = v]: an existing key keeps its place. *)
Fixpoint set_field {A} (k : string) (v : A) (o : list (string * A))
  : list (string * A) :=
  match o with
  | [] => [(k, v)]
  | (k', v') :: r =>
      if String.eqb k k' then (k, v) :: r else (k', v') :: set_field k v r
  end.

(** Own-property read [o[k]]; [None] stands for [undefined]. *)
Fixpoint get_field {A} (k : string) (o : list (string * A)) : option A :=
  match o with
  | [] => None
  | (k', v) :: r => if String.eqb k k' then Some v else get_field k r
  end.

(** The members every object literal inherits from [Object.prototype];
    a property read that finds no own property yields one of them. *)
Definition Object_prototype_members : list string :=
  [ "constructor"; "__proto__"; "hasOwnProperty"; "isPrototypeOf";
    "propertyIsEnumerable"; "toLocaleString"; "toString"; "valueOf";
    "__defineGetter__"; "__defineSetter__"; "__lookupGetter__";
    "__lookupSetter__" ].

Definition inherited (k : string) : bool :=
  existsb (String.eqb k) Object_prototype_members.

End Js.

(** ** Exceptions

  An operation that may throw returns an [Outcome]: its value, or the
  message of the error thrown. *)
Inductive Outcome (A : Type) : Type :=
| Returns (a : A)
| Throws (message : string).
Arguments Returns {A} a.
Arguments Throws {A} message.

(** Sequencing: an error thrown by the first step skips the rest. *)
Definition bind {A B} (c : Outcome A) (k : A -> Outcome B) : Outcome B :=
  match c with
  | Returns a => k a
  | Throws e => Throws e
  end.

(** [try { c } catch (error) { handler(error) }] *)
Definition try_catch {A} (c : Outcome A) (handler : string -> Outcome A)
  : Outcome A :=
  match c with
  | Returns a => Returns a
  | Throws e => handler e
  end.

Notation "'let!' x ':=' c 'in' k" := (bind c (fun x => k))
  (at level 10, x name, c at level 100, k at level 200).

(** ** The JSON library the adapters call

  [JSON.parse], [JSON.stringify], the [jsonrepair] package and the string
  to number conversions [Number(s)] and [parseInt(s, 10)] are not part of
  the repository; the adapters are verified against any implementation of
  them.  For the conversions [None] is [NaN]. *)
Class JsonLib := {
  JSON_parse : string -> Outcome json;
  JSON_stringify : json -> string;
  jsonrepair : string -> Outcome string;
  toNumber : string -> option Z;
  parseInt10 : string -> option Z
}.

(** ** Finish reasons *)

(** The members of the canonical [FinishReason] enumeration the adapters use. *)
Inductive FinishReason : Type :=
| STOP
| MAX_TOKENS
| SAFETY
| FINISH_REASON_UNSPECIFIED.

(** The value of a property read on an object literal whose own values have
  type [A]: an own value, or a member inherited from [Object.prototype]. *)
Inductive PropertyValue (A : Type) : Type :=
| OwnValue (a : A)
| PrototypeMember (name : string).
Arguments OwnValue {A} a.
Arguments PrototypeMember {A} name.

Module OpenAIFinish.

(** The [mapping] literal of [mapFinishReason]. *)
Definition mapping : list (string * FinishReason) :=
  [ ("stop", STOP);
    ("length", MAX_TOKENS);
    ("content_filter", SAFETY);
    ("function_call", STOP);
    ("tool_calls", STOP) ].

(** [mapping[k]]: own properties first, then the prototype chain. *)
Definition mapping_read (k : string) : option (PropertyValue FinishReason) :=
  match Js.get_field k mapping with
  | Some r => Some (OwnValue r)
  | None => if Js.inherited k then Some (PrototypeMember k) else None
  end.

(** [mapFinishReason(openaiReason: string | null)].  Every enumeration
    member and every inherited member is truthy, so [||] only falls through
    on [undefined]. *)
Definition mapFinishReason (openaiReason : option string)
  : PropertyValue FinishReason :=
  match openaiReason with
  | None => OwnValue FINISH_REASON_UNSPECIFIED
  | Some k =>
      if Js.nonempty k then
        match mapping_read k with
        | Some v => v
        | None => OwnValue FINISH_REASON_UNSPECIFIED
        end
      else OwnValue FINISH_REASON_UNSPECIFIED
  end.

End OpenAIFinish.

Module BedrockFinish.

(** [mapStopReason(stopReason?: StopReason)] of the current Bedrock adapter:
    a [switch] on the string, with a [default]. *)
Definition mapStopReason (stopReason : option string) : FinishReason :=
  match stopReason with
  | None => FINISH_REASON_UNSPECIFIED
  | Some k =>
      if negb (Js.nonempty k) then FINISH_REASON_UNSPECIFIED
      else if String.eqb k "end_turn" then STOP
      else if String.eqb k "tool_use" then STOP
      else if String.eqb k "max_tokens" then MAX_TOKENS
      else if String.eqb k "stop_sequence" then STOP
      else if String.eqb k "content_filtered" then SAFETY
      else if String.eqb k "guardrail_intervened" then SAFETY
      else FINISH_REASON_UNSPECIFIED
  end.

(** [convertStopReason] of the first Bedrock adapter. *)
Definition convertStopReason (stopReason : string) : FinishReason :=
  if String.eqb stopReason "end_turn" then STOP
  else if String.eqb stopReason "max_tokens" then MAX_TOKENS
  else if String.eqb stopReason "stop_sequence" then STOP
  else if String.eqb stopReason "tool_use" then STOP
  else if String.eqb stopReason "content_filtered" then SAFETY
  else STOP.

End BedrockFinish.

Module AnthropicFinish.

(** [mapStopReason(stopReason: string | null)] of the Anthropic adapter. *)
Definition mapStopReason (stopReason : option string) : FinishReason :=
  match stopReason with
  | None => STOP
  | Some k =>
      if String.eqb k "end_turn" then STOP
      else if String.eqb k "max_tokens" then MAX_TOKENS
      else if String.eqb k "stop_sequence" then STOP
      else if String.eqb k "tool_use" then STOP
      else STOP
  end.

End AnthropicFinish.


(** ** Token usage *)

Module Float.

(** Non-negative binary64 numbers, as [m * 2^e] with [0 <= m < 2^53].
    Token counts are integers far below [2^53], so they are exact. *)
Definition double : Type := (Z * Z)%type.

(** Round a positive integer to 53 significant bits, ties to even
    (the rounding of every IEEE 754 binary64 operation). *)
Definition round53 (p : Z) : double :=
  let bits := (Z.log2 p + 1)%Z in
  if (bits <=? 53)%Z then (p, 0%Z)
  else
    let s := (bits - 53)%Z in
    let q := Z.shiftr p s in
    let r := Z.land p (Z.ones s) in
    let half := Z.shiftl 1 (s - 1) in
    if (half <? r)%Z || ((r =? half)%Z && Z.odd q)
    then ((q + 1)%Z, s) else (q, s).

(** The literal [0.7] is the double [0x1.6666666666666p-1]. *)
Definition lit_0_7 : double := (3152519739159347%Z, (-52)%Z).

(** The literal [0.3] is the double [0x1.3333333333333p-2]. *)
Definition lit_0_3 : double := (5404319552844595%Z, (-54)%Z).

(** [n * c] for an integer [n] and a double [c]: the exact product,
    correctly rounded. *)
Definition mul_int (n : Z) (c : double) : double :=
  let '(m, e) := c in
  if (n <=? 0)%Z then (0%Z, 0%Z)
  else let '(q, s) := round53 (n * m) in (q, (s + e)%Z).

(** [Math.round]: the nearest integer, ties towards [+Infinity]. *)
Definition Math_round (x : double) : Z :=
  let '(m, e) := x in
  if (0 <=? e)%Z then (m * 2 ^ e)%Z
  else ((2 * m + 2 ^ (- e)) / 2 ^ (- e + 1))%Z.

End Float.

Module Usage.

(** [OpenAIUsage]; an absent field is [None]. *)
Record OpenAIUsage : Type := {
  prompt_tokens : option Z;
  completion_tokens : option Z;
  total_tokens : option Z;
  cached_tokens : option Z  (* [prompt_tokens_details?.cached_tokens] *)
}.

(** The canonical [usageMetadata]. *)
Record UsageMetadata : Type := {
  promptTokenCount : Z;
  candidatesTokenCount : Z;
  totalTokenCount : Z;
  cachedContentTokenCount : option Z   (* only the OpenAI adapter sets it *)
}.

(** [x || 0] on an optional number. *)
Definition or_zero (x : option Z) : Z := default 0%Z x.

(** The usage block shared by [convertToGeminiFormat] and
    [convertStreamChunkToGeminiFormat]. *)
Definition normalizeUsage (usage : OpenAIUsage) : UsageMetadata :=
  let promptTokens := or_zero (prompt_tokens usage) in
  let completionTokens := or_zero (completion_tokens usage) in
  let totalTokens := or_zero (total_tokens usage) in
  let cachedTokens := or_zero (cached_tokens usage) in
  let estimate :=
    (0 <? totalTokens)%Z && (promptTokens =? 0)%Z && (completionTokens =? 0)%Z in
  let finalPromptTokens :=
    if estimate then Float.Math_round (Float.mul_int totalTokens Float.lit_0_7)
    else promptTokens in
  let finalCompletionTokens :=
    if estimate then Float.Math_round (Float.mul_int totalTokens Float.lit_0_3)
    else completionTokens in
  {| promptTokenCount := finalPromptTokens;
     candidatesTokenCount := finalCompletionTokens;
     totalTokenCount := totalTokens;
     cachedContentTokenCount := Some cachedTokens |}.

(** [if (openaiResponse.usage) { ... }] *)
Definition usageMetadataOf (usage : option OpenAIUsage) : option UsageMetadata :=
  normalizeUsage <$> usage.

End Usage.

(** ** The canonical conversation model (the [@google/genai] types) *)

Record FunctionCall : Type := {
  fc_id : option string;
  fc_name : option string;
  fc_args : option json
}.

Record FunctionResponse : Type := {
  fr_id : option string;
  fr_name : option string;
  fr_response : json   (* a [JStr] when [typeof response === 'string'] *)
}.

(** A [Part] object; every field is optional. *)
Record Part : Type := {
  text : option string;
  thought : bool;
  functionCall : option FunctionCall;
  functionResponse : option FunctionResponse;
  thoughtSignature : option json
}.

(** [PartUnion = Part | string] *)
Inductive PartUnion : Type :=
| PartString (s : string)
| PartObject (p : Part).

(** An entry of [request.contents]: a string, a [Content] object with its
    [role] and [parts], or an object without those fields. *)
Inductive ContentUnion : Type :=
| ContentString (s : string)
| ContentObject (role : string) (parts : option (list PartUnion))
| ContentOther.

(** [request.contents]: an array, a single entry, or absent. *)
Inductive Contents : Type :=
| ContentsArray (cs : list ContentUnion)
| ContentsSingle (c : ContentUnion).

(** A function declaration of a [Tool]. *)
Record FunctionDeclaration : Type := {
  fd_name : option string;
  fd_description : option string;
  fd_parameters : option json
}.

(** A [Tool] (a [CallableTool] is taken as already resolved). *)
Record Tool : Type := {
  functionDeclarations : option (list FunctionDeclaration)
}.

(** [config.systemInstruction]: a string, an array of contents, a single
    [Content], or something else. *)
Inductive SystemInstruction : Type :=
| SystemString (s : string)
| SystemArray (items : list ContentUnion)
| SystemContent (parts : option (list PartUnion))
| SystemOther.

(** The fields of [request.config] the adapters read.  Sampling numbers are
    kept as JSON numbers. *)
Record GenerateContentConfig : Type := {
  systemInstruction : option SystemInstruction;
  tools : option (list Tool);
  responseJsonSchema : option json;
  responseMimeType : option string;
  temperature : option json;
  topP : option json;
  maxOutputTokens : option Z
}.

Record GenerateContentParameters : Type := {
  contents : Contents;
  config : option GenerateContentConfig
}.

(** A part of a canonical response. *)
Inductive ResponsePart : Type :=
| TextPart (t : string)
| FunctionCallPart (id : option string) (name : string) (args : json)
    (thoughtSignature : option json).

Definition isFunctionCallPart (p : ResponsePart) : bool :=
  match p with FunctionCallPart _ _ _ _ => true | TextPart _ => false end.

(** The text of a text part. *)
Definition partText (p : ResponsePart) : option string :=
  match p with TextPart t => Some t | FunctionCallPart _ _ _ _ => None end.

(** [GenerateContentResponse]: the parts and finish reason of candidate 0
    (no candidate at all is [None]), and the usage metadata. *)
Record GenerateContentResponse : Type := {
  candidate : option (list ResponsePart * PropertyValue FinishReason);
  usageMetadata : option Usage.UsageMetadata
}.

(** The parts the response carries. *)
Definition responseParts (r : GenerateContentResponse) : list ResponsePart :=
  match candidate r with Some (ps, _) => ps | None => [] end.

(** What an async generator yields when it is drained, and how it ends. *)
Record Drained (A : Type) : Type := {
  yielded : list A;
  failure : option string
}.
Arguments yielded {A} d.
Arguments failure {A} d.

(** ** [safeJsonParse] *)

Section SafeJsonParse.
Context {L : JsonLib}.

(** [safeJsonParse(jsonString, fallbackValue = {})].  The argument is typed
    [string] but checked at run time, so it is any JavaScript value here. *)
Definition safeJsonParse (jsonString : json) (fallbackValue : json)
  : Outcome json :=
  match jsonString with
  | JStr s =>
      if negb (Js.nonempty s) then Returns fallbackValue
      else
        try_catch (JSON_parse s) (fun _error =>
          try_catch
            (let! repairedJson := jsonrepair s in
             JSON_parse repairedJson)
            (fun _repairError => Returns fallbackValue))
  | _ => Returns fallbackValue
  end.

(** The input can be parsed neither as it is nor after repair. *)
Definition unparseable (s : string) : Prop :=
  (exists e, JSON_parse s = Throws e)
  /\ ((exists e, jsonrepair s = Throws e)
      \/ (exists repaired e, jsonrepair s = Returns repaired
                             /\ JSON_parse repaired = Throws e)).

End SafeJsonParse.

(** ** JavaScript [Map]s keyed by block index

    A [Map] iterates in insertion order; [set] on a present key keeps its
    place. *)

Module JsMap.

Definition t (V : Type) : Type := list (nat * V).

Fixpoint get {V} (k : nat) (m : t V) : option V :=
  match m with
  | [] => None
  | (k', v) :: r => if Nat.eqb k k' then Some v else get k r
  end.

Fixpoint set {V} (k : nat) (v : V) (m : t V) : t V :=
  match m with
  | [] => [(k, v)]
  | (k', v') :: r =>
      if Nat.eqb k k' then (k, v) :: r else (k', v') :: set k v r
  end.

Fixpoint delete {V} (k : nat) (m : t V) : t V :=
  match m with
  | [] => []
  | (k', v') :: r =>
      if Nat.eqb k k' then delete k r else (k', v') :: delete k r
  end.

End JsMap.

(** ** The OpenAI-compatible adapter: provider messages and their hygiene *)

Module OpenAI.

Inductive Role : Type := system | user | assistant | tool.

#[global] Instance Role_eq_dec : EqDecision Role.
Proof. solve_decision. Defined.

(** [ChatCompletionMessageToolCall] *)
Record ToolCall : Type := {
  tc_id : string;
  tc_type : string;
  tc_name : string;        (* [function.name] *)
  tc_arguments : string    (* [function.arguments] *)
}.

(** [message.content]: [null], a string, or an array of content parts. *)
Inductive MessageContent : Type :=
| ContentNull
| ContentText (s : string)
| ContentArray (parts : list string).

(** [ChatCompletionMessageParam], with the two vendor extensions the
    adapter attaches. An absent field is [None]. *)
Record Message : Type := {
  role : Role;
  content : MessageContent;
  tool_calls : option (list ToolCall);
  tool_call_id : option string;
  reasoning_details : option json;
  reasoning_content : option string
}.

(** [{ ...message, tool_calls: calls }] and [delete message.tool_calls] *)
Definition with_tool_calls (message : Message) (calls : option (list ToolCall))
  : Message :=
  {| role := role message;
     content := content message;
     tool_calls := calls;
     tool_call_id := tool_call_id message;
     reasoning_details := reasoning_details message;
     reasoning_content := reasoning_content message |}.

(** [message.role === 'assistant' && 'tool_calls' in message &&
    message.tool_calls]: the calls when the test passes (an empty array is
    truthy). *)
Definition assistantToolCalls (message : Message) : option (list ToolCall) :=
  match role message with
  | assistant => tool_calls message
  | _ => None
  end.

(** [message.role === 'tool' && 'tool_call_id' in message &&
    message.tool_call_id]: the id when the test passes. *)
Definition toolResponseId (message : Message) : option string :=
  match role message with
  | tool =>
      match tool_call_id message with
      | Some i => if Js.nonempty i then Some i else None
      | None => None
      end
  | _ => None
  end.

(** The inner loop [for (const toolCall of message.tool_calls)
    if (toolCall.id) ids.add(toolCall.id)]. *)
Definition addToolCallIds (ids : gset string) (calls : list ToolCall)
  : gset string :=
  foldl (fun ids toolCall =>
           if Js.nonempty (tc_id toolCall) then ids ∪ {[ tc_id toolCall ]}
           else ids) ids calls.

(** The tool call ids the first pass collects. *)
Definition collectToolCallIds (messages : list Message) : gset string :=
  foldl (fun ids message =>
           match assistantToolCalls message with
           | Some calls => addToolCallIds ids calls
           | None => ids
           end) ∅ messages.

(** The tool response ids the first pass collects. *)
Definition collectToolResponseIds (messages : list Message) : gset string :=
  foldl (fun ids message =>
           match assistantToolCalls message with
           | Some _ => ids
           | None =>
               match toolResponseId message with
               | Some i => ids ∪ {[ i ]}
               | None => ids
               end
           end) ∅ messages.

(** [toolCall.id && toolResponseIds.has(toolCall.id)] *)
Definition validToolCall (toolResponseIds : gset string) (toolCall : ToolCall)
  : Prop :=
  tc_id toolCall ≠ "" ∧ tc_id toolCall ∈ toolResponseIds.

#[global] Instance validToolCall_dec ids toolCall :
  Decision (validToolCall ids toolCall).
Proof. unfold validToolCall. apply _. Defined.

(** [typeof message.content === 'string' && message.content.trim()] *)
Definition hasTextContent (message : Message) : bool :=
  match content message with
  | ContentText s => Js.nonempty (Js.trim s)
  | _ => false
  end.

(** What an assistant message with tool calls contributes: itself with its
    valid calls only, or itself without calls when it has text, or nothing. *)
Definition keepAssistant (toolResponseIds : gset string) (message : Message)
    (calls : list ToolCall) : list Message :=
  let validToolCalls := filter (validToolCall toolResponseIds) calls in
  if 0 <? length validToolCalls
  then [with_tool_calls message (Some validToolCalls)]
  else if hasTextContent message
  then [with_tool_calls message None]
  else [].

(** The second pass; [addedToolResponseIds] is the set of response ids
    already pushed to [cleaned]. *)
Fixpoint secondPass (toolCallIds toolResponseIds addedToolResponseIds : gset string)
    (messages : list Message) : list Message :=
  match messages with
  | [] => []
  | message :: rest =>
      match assistantToolCalls message with
      | Some calls =>
          keepAssistant toolResponseIds message calls
          ++ secondPass toolCallIds toolResponseIds addedToolResponseIds rest
      | None =>
          match toolResponseId message with
          | Some i =>
              if bool_decide (i ∈ toolCallIds)
                 && negb (bool_decide (i ∈ addedToolResponseIds))
              then message
                   :: secondPass toolCallIds toolResponseIds
                        (addedToolResponseIds ∪ {[ i ]}) rest
              else secondPass toolCallIds toolResponseIds
                     addedToolResponseIds rest
          | None =>
              message
              :: secondPass toolCallIds toolResponseIds
                   addedToolResponseIds rest
          end
      end
  end.

(** The final validation loop over [cleaned]. *)
Definition finalPass (finalToolResponseIds : gset string)
    (cleaned : list Message) : list Message :=
  flat_map (fun message =>
              match assistantToolCalls message with
              | Some calls => keepAssistant finalToolResponseIds message calls
              | None => [message]
              end) cleaned.

(** [cleanOrphanedToolCalls(messages)].  ([finalToolCallIds] is collected by
    the source but never read.) *)
Definition cleanOrphanedToolCalls (messages : list Message) : list Message :=
  let toolCallIds := collectToolCallIds messages in
  let toolResponseIds := collectToolResponseIds messages in
  let cleaned := secondPass toolCallIds toolResponseIds ∅ messages in
  let finalToolResponseIds := collectToolResponseIds cleaned in
  finalPass finalToolResponseIds cleaned.

(** [typeof m.content === 'string' ? m.content : ''] *)
Definition contentString (message : Message) : string :=
  match content message with
  | ContentText s => s
  | _ => ""
  end.

(** The in-place update of [lastMessage] when [message] is merged into it. *)
Definition mergeInto (lastMessage message : Message) : Message :=
  let combinedContent := contentString lastMessage +:+ contentString message in
  let lastToolCalls := default [] (tool_calls lastMessage) in
  let currentToolCalls := default [] (tool_calls message) in
  let combinedToolCalls := lastToolCalls ++ currentToolCalls in
  {| role := role lastMessage;
     content := if Js.nonempty combinedContent
                then ContentText combinedContent else ContentNull;
     tool_calls := if 0 <? length combinedToolCalls
                   then Some combinedToolCalls else tool_calls lastMessage;
     tool_call_id := tool_call_id lastMessage;
     reasoning_details := reasoning_details lastMessage;
     reasoning_content := reasoning_content lastMessage |}.

(** The loop of [mergeConsecutiveAssistantMessages]; [lastMessage] is
    [merged[merged.length - 1]], which the loop may still update, and the
    result is [lastMessage] followed by what the rest of the loop pushes. *)
Fixpoint mergeLoop (lastMessage : Message) (messages : list Message)
  : list Message :=
  match messages with
  | [] => [lastMessage]
  | message :: rest =>
      if bool_decide (role message = assistant)
         && bool_decide (role lastMessage = assistant)
      then mergeLoop (mergeInto lastMessage message) rest
      else lastMessage :: mergeLoop message rest
  end.

(** [mergeConsecutiveAssistantMessages(messages)] *)
Definition mergeConsecutiveAssistantMessages (messages : list Message)
  : list Message :=
  match messages with
  | [] => []
  | first :: rest => mergeLoop first rest
  end.

(** The hygiene pass that ends [convertToOpenAIFormat]. *)
Definition hygienePass (messages : list Message) : list Message :=
  mergeConsecutiveAssistantMessages (cleanOrphanedToolCalls messages).

(** The response ids of a list, in order, and all tool calls carried by
    assistant messages. *)
Definition responseIdList (messages : list Message) : list string :=
  omap toolResponseId messages.

Definition allCalls (messages : list Message) : list ToolCall :=
  flat_map (fun m => default [] (assistantToolCalls m)) messages.

(** Every tool call an assistant message carries is valid for [ids], and
    there is at least one when the message has a [tool_calls] array. *)
Definition callsValid (ids : gset string) (message : Message) : Prop :=
  forall calls, assistantToolCalls message = Some calls ->
    calls <> [] /\ Forall (validToolCall ids) calls.

(** A list the cleanup has nothing left to do on: every call is answered,
    every response with an id answers a call, and no id is answered twice. *)
Definition tidy (messages : list Message) : Prop :=
  Forall (callsValid (collectToolResponseIds messages)) messages
  /\ NoDup (responseIdList messages)
  /\ forall i, i ∈ responseIdList messages -> i ∈ collectToolCallIds messages.

(** The pairing the hygiene contract asks of its output, read on the raw
    fields: every message of role [tool] answers a call kept on an assistant
    message, and no two of them share an id. *)
Definition everyResultMatched (out : list Message) : Prop :=
  forall t, t ∈ out -> role t = tool ->
    exists m calls c, m ∈ out /\ role m = assistant
                      /\ tool_calls m = Some calls /\ c ∈ calls
                      /\ tool_call_id t = Some (tc_id c).

Definition atMostOneResultPerId (out : list Message) : Prop :=
  forall i,
    length (filter (fun t => role t = tool /\ tool_call_id t = Some i) out) <= 1.

(** [message] is a tool response carrying the non-empty id [i]. *)
Definition isResultFor (i : string) (message : Message) : Prop :=
  toolResponseId message = Some i.

#[global] Instance isResultFor_dec i message : Decision (isResultFor i message).
Proof. unfold isResultFor. apply _. Defined.

(** [message] is a tool response whose [tool_call_id] is empty or absent. *)
Definition isResultWithoutId (message : Message) : Prop :=
  role message = tool /\ toolResponseId message = None.

#[global] Instance isResultWithoutId_dec message :
  Decision (isResultWithoutId message).
Proof. unfold isResultWithoutId. apply _. Defined.

End OpenAI.

(** ** Schema sanitizers *)

Module Schema.

(** [typeof t === 'string' && t.toLowerCase() !== 'null'] *)
Definition isPrimaryType (t : json) : bool :=
  match t with
  | JStr s => negb (String.eqb (Js.toLowerCase s) "null")
  | _ => false
  end.

(** The value [convertTypes] stores under the key [type]. *)
Definition convertTypeValue (value : json) : json :=
  match value with
  | JNull => JStr "object"
  | JArr entries =>
      match List.find isPrimaryType entries with
      | Some (JStr primaryType) =>
          if Js.nonempty primaryType
          then JStr (Js.toLowerCase primaryType) else JStr "object"
      | _ => JStr "object"
      end
  | JStr s => JStr (Js.toLowerCase s)
  | _ => value
  end.

(** The safety net after the entries of an object are converted:
    [if (result['properties'] && !result['type']) result['type'] = 'object']. *)
Definition ensureObjectType (result : list (string * json))
  : list (string * json) :=
  let hasProperties :=
    match Js.get_field "properties" result with
    | Some v => Js.truthy v | None => false end in
  let hasType :=
    match Js.get_field "type" result with
    | Some v => Js.truthy v | None => false end in
  if hasProperties && negb hasType
  then Js.set_field "type" (JStr "object") result else result.

(** The root-level checks both converters end with. *)
Definition ensureRoot (result : list (string * json)) : list (string * json) :=
  let result1 :=
    match Js.get_field "type" result with
    | Some (JArr _) => Js.set_field "type" (JStr "object") result
    | Some v => if Js.truthy v then result
                else Js.set_field "type" (JStr "object") result
    | None => Js.set_field "type" (JStr "object") result
    end in
  match Js.get_field "properties" result1 with
  | Some v => if Js.truthy v then result1
              else Js.set_field "properties" (JObj []) result1
  | None => Js.set_field "properties" (JObj []) result1
  end.

Definition isNumericBound (key : string) : bool :=
  String.eqb key "minimum" || String.eqb key "maximum"
  || String.eqb key "multipleOf".

Definition isLengthBound (key : string) : bool :=
  String.eqb key "minLength" || String.eqb key "maxLength"
  || String.eqb key "minItems" || String.eqb key "maxItems".

Section WithJsonLib.
Context {L : JsonLib}.

(** [typeof value === 'string' && !isNaN(Number(value)) ? Number(value) : value] *)
Definition coerceNumber (value : json) : json :=
  match value with
  | JStr s => match toNumber s with Some n => JNum n | None => value end
  | _ => value
  end.

(** The same test, then [parseInt(value, 10)] (a [NaN] result is [null] in
    JSON). *)
Definition coerceInteger (value : json) : json :=
  match value with
  | JStr s =>
      match toNumber s with
      | Some _ => match parseInt10 s with Some n => JNum n | None => JNull end
      | None => value
      end
  | _ => value
  end.

(** [convertTypes] of [convertGeminiParametersToOpenAI].  The entries of an
    object are converted in order into a fresh object with the same keys. *)
Fixpoint convertTypes (obj : json) : json :=
  match obj with
  | JArr xs => JArr (map convertTypes xs)
  | JObj fields =>
      JObj (ensureObjectType
              (map (fun kv =>
                      let key := fst kv in
                      let value := snd kv in
                      (key,
                       if String.eqb key "type" then convertTypeValue value
                       else if isNumericBound key then coerceNumber value
                       else if isLengthBound key then coerceInteger value
                       else convertTypes value))
                   fields))
  | _ => obj
  end.

(** [convertGeminiParametersToOpenAI(parameters)].  The deep copy
    [JSON.parse(JSON.stringify(parameters))] is the identity on [json].  The
    root checks assign named properties; on an array they are not part of
    its JSON value. *)
Definition convertGeminiParametersToOpenAI (parameters : json) : json :=
  match parameters with
  | JObj _ =>
      match convertTypes parameters with
      | JObj result => JObj (ensureRoot result)
      | other => other
      end
  | JArr _ => convertTypes parameters
  | _ => JObj [("type", JStr "object"); ("properties", JObj [])]
  end.

End WithJsonLib.

(** [convertTypes] of [convertGeminiParametersToBedrock]: as for OpenAI,
    without the numeric coercions. *)
Fixpoint convertTypesBedrock (obj : json) : json :=
  match obj with
  | JArr xs => JArr (map convertTypesBedrock xs)
  | JObj fields =>
      JObj (ensureObjectType
              (map (fun kv =>
                      let key := fst kv in
                      let value := snd kv in
                      (key,
                       if String.eqb key "type" then convertTypeValue value
                       else convertTypesBedrock value))
                   fields))
  | _ => obj
  end.

(** [convertGeminiParametersToBedrock(parameters)] *)
Definition convertGeminiParametersToBedrock (parameters : json) : json :=
  match parameters with
  | JObj _ =>
      match convertTypesBedrock parameters with
      | JObj result => JObj (ensureRoot result)
      | other => other
      end
  | JArr _ => convertTypesBedrock parameters
  | _ => JObj [("type", JStr "object"); ("properties", JObj [])]
  end.

(** [t !== 'null'] *)
Definition isNotNullName (t : json) : bool :=
  match t with
  | JStr s => negb (String.eqb s "null")
  | _ => true
  end.

(** [traverse] of the first Bedrock adapter's [sanitizeJsonSchema].  It
    updates the object in place: an array-valued [type] becomes its first
    entry other than ['null'] (or ['string']), [additionalProperties] is
    deleted, and every object-valued field is traversed in turn. *)
Fixpoint traverse (obj : json) : json :=
  match obj with
  | JArr xs => JArr (map traverse xs)
  | JObj fields =>
      JObj (flat_map
              (fun kv =>
                 let key := fst kv in
                 let value := snd kv in
                 if String.eqb key "additionalProperties" then []
                 else
                   [(key,
                     if String.eqb key "type" then
                       match value with
                       | JArr entries =>
                           match List.find isNotNullName
                                   (map traverse entries) with
                           | Some t => if Js.truthy t then t else JStr "string"
                           | None => JStr "string"
                           end
                       | _ => traverse value
                       end
                     else traverse value)])
              fields)
  | _ => obj
  end.

(** [sanitizeJsonSchema(schema)] of the first Bedrock adapter, on a schema
    object. *)
Definition sanitizeJsonSchema (schema : list (string * json)) : json :=
  match Js.get_field "type" schema with
  | Some v =>
      if negb (Js.truthy v)
      then traverse (JObj (Js.set_field "type" (JStr "object") schema))
      else
        match v with
        | JStr "object" => traverse (JObj schema)
        | _ => JObj [ ("type", JStr "object");
                      ("properties", JObj [("value", JObj schema)]);
                      ("required", JArr [JStr "value"]) ]
        end
  | None => traverse (JObj (Js.set_field "type" (JStr "object") schema))
  end.

(** *** What the specification asks of a sanitized schema *)

(** [s] is a [type] value in the target dialect: a lower-case string. *)
Definition isLowerString (v : json) : bool :=
  match v with
  | JStr s => String.eqb (Js.toLowerCase s) s
  | _ => false
  end.

(** Every [type] field of every object in the tree is a lower-case string. *)
Fixpoint typesAreLowerStrings (j : json) : bool :=
  match j with
  | JArr xs => forallb typesAreLowerStrings xs
  | JObj fields =>
      forallb (fun kv =>
                 if String.eqb (fst kv) "type"
                 then isLowerString (snd kv)
                 else typesAreLowerStrings (snd kv)) fields
  | _ => true
  end.







End Schema.

(** ** The Bedrock adapters: stream events *)

Module BedrockEvents.

(** [contentBlockStart.start.toolUse] *)
Record ToolUseStart : Type := {
  toolUseId : option string;
  name : option string
}.

(** [contentBlockDelta.delta], a union: a text delta, a tool-use delta with
    its input fragment, or another member. *)
Inductive Delta : Type :=
| DeltaText (text : string)
| DeltaToolUse (input : option string)
| DeltaOther.

(** [metadata.usage] *)
Record TokenUsage : Type := {
  inputTokens : option Z;
  outputTokens : option Z;
  totalTokens : option Z
}.

(** [ConverseStreamOutput], a union with one member set. *)
Inductive Event : Type :=
| contentBlockStart (contentBlockIndex : option nat)
    (toolUse : option ToolUseStart)
| contentBlockDelta (contentBlockIndex : option nat) (delta : option Delta)
| contentBlockStop (contentBlockIndex : option nat)
| messageStop (stopReason : option string)
| metadata (usage : option TokenUsage)
| otherEvent.

Definition isDelta (event : Event) : bool :=
  match event with contentBlockDelta _ _ => true | _ => false end.

End BedrockEvents.

(** ** The current Bedrock adapter: [streamGenerator] *)

Module Bedrock.
Import BedrockEvents.

(** An entry of [streamingToolCalls]. *)
Record Accumulated : Type := {
  acc_id : option string;
  acc_name : option string;
  acc_input : string
}.

(** The generator's state: the accumulator map and the two counters. *)
Record State : Type := {
  streamingToolCalls : JsMap.t Accumulated;
  inputTokensSeen : Z;
  outputTokensSeen : Z
}.

(** [createStreamResponse(parts, finishReason, usageMetadata)] *)
Definition createStreamResponse (parts : list ResponsePart)
    (finishReason : FinishReason) (usage : option Usage.UsageMetadata)
  : GenerateContentResponse :=
  {| candidate := Some (parts, OwnValue finishReason);
     usageMetadata := usage |}.

Section WithJsonLib.
Context {L : JsonLib}.

(** One turn of the [for await] loop: the next state and the responses
    yielded. *)
Definition step (st : State) (event : Event)
  : Outcome (State * list GenerateContentResponse) :=
  match event with
  | contentBlockStart contentBlockIndex toolUse =>
      match toolUse with
      | Some toolUse =>
          let index := default 0 contentBlockIndex in
          Returns
            ({| streamingToolCalls :=
                  JsMap.set index
                    {| acc_id := toolUseId toolUse;
                       acc_name := name toolUse;
                       acc_input := "" |}
                    (streamingToolCalls st);
                inputTokensSeen := inputTokensSeen st;
                outputTokensSeen := outputTokensSeen st |}, [])
      | None => Returns (st, [])
      end
  | contentBlockDelta contentBlockIndex delta =>
      let index := default 0 contentBlockIndex in
      match delta with
      | Some (DeltaText text) =>
          if Js.nonempty text
          then Returns (st, [createStreamResponse [TextPart text]
                               FINISH_REASON_UNSPECIFIED None])
          else Returns (st, [])
      | Some (DeltaToolUse input) =>
          match JsMap.get index (streamingToolCalls st) with
          | Some accumulatedCall =>
              Returns
                ({| streamingToolCalls :=
                      JsMap.set index
                        {| acc_id := acc_id accumulatedCall;
                           acc_name := acc_name accumulatedCall;
                           acc_input := acc_input accumulatedCall
                                        +:+ Js.str_or input "" |}
                        (streamingToolCalls st);
                    inputTokensSeen := inputTokensSeen st;
                    outputTokensSeen := outputTokensSeen st |}, [])
          | None => Returns (st, [])
          end
      | _ => Returns (st, [])
      end
  | contentBlockStop contentBlockIndex =>
      let index := default 0 contentBlockIndex in
      match JsMap.get index (streamingToolCalls st) with
      | Some accumulatedCall =>
          match acc_name accumulatedCall with
          | Some callName =>
              if Js.nonempty callName then
                let! args := safeJsonParse (JStr (acc_input accumulatedCall))
                               (JObj []) in
                Returns
                  ({| streamingToolCalls :=
                        JsMap.delete index (streamingToolCalls st);
                      inputTokensSeen := inputTokensSeen st;
                      outputTokensSeen := outputTokensSeen st |},
                   [createStreamResponse
                      [FunctionCallPart (acc_id accumulatedCall) callName
                         args None]
                      STOP None])
              else Returns (st, [])
          | None => Returns (st, [])
          end
      | None => Returns (st, [])
      end
  | messageStop stopReason =>
      Returns
        (st,
         [createStreamResponse [] (BedrockFinish.mapStopReason stopReason)
            (Some {| Usage.promptTokenCount := inputTokensSeen st;
                     Usage.candidatesTokenCount := outputTokensSeen st;
                     Usage.totalTokenCount :=
                       (inputTokensSeen st + outputTokensSeen st)%Z;
                     Usage.cachedContentTokenCount := None |})])
  | metadata usage =>
      Returns
        ({| streamingToolCalls := streamingToolCalls st;
            inputTokensSeen :=
              Usage.or_zero (usage ≫= inputTokens);
            outputTokensSeen :=
              Usage.or_zero (usage ≫= outputTokens) |}, [])
  | otherEvent => Returns (st, [])
  end.

(** The loop from a state: everything yielded, and the state reached or
    the error that ended the loop. *)
Fixpoint steps (st : State) (events : list Event)
  : list GenerateContentResponse * Outcome State :=
  match events with
  | [] => ([], Returns st)
  | event :: rest =>
      match step st event with
      | Returns (st', out) =>
          let '(outs, final) := steps st' rest in (out ++ outs, final)
      | Throws e => ([], Throws e)
      end
  end.

(** [streamGenerator(response)], drained.  [leftover] is what a previous
    stream left in [streamingToolCalls]; it is cleared first.  An absent
    [response.stream] ends the generator at once. *)
Definition streamGenerator (leftover : JsMap.t Accumulated)
    (stream : option (list Event)) : Drained GenerateContentResponse :=
  match stream with
  | None => {| yielded := []; failure := None |}
  | Some events =>
      let '(outs, final) :=
        steps {| streamingToolCalls := [];
                 inputTokensSeen := 0; outputTokensSeen := 0 |} events in
      {| yielded := outs;
         failure := match final with Throws e => Some e | Returns _ => None end |}
  end.

End WithJsonLib.

(** The text responses a run of delta events yields, in order. *)
Definition textResponses (events : list Event) : list GenerateContentResponse :=
  flat_map (fun event =>
              match event with
              | contentBlockDelta _ (Some (DeltaText text)) =>
                  if Js.nonempty text
                  then [createStreamResponse [TextPart text]
                          FINISH_REASON_UNSPECIFIED None]
                  else []
              | _ => []
              end) events.

(** The argument fragments a run of delta events carries for block
    [index], concatenated. *)
Fixpoint fragmentsFor (index : nat) (events : list Event) : string :=
  match events with
  | [] => ""
  | contentBlockDelta contentBlockIndex (Some (DeltaToolUse input)) :: rest =>
      if Nat.eqb (default 0 contentBlockIndex) index
      then Js.str_or input "" +:+ fragmentsFor index rest
      else fragmentsFor index rest
  | _ :: rest => fragmentsFor index rest
  end.

End Bedrock.

(** ** The first Bedrock adapter: [streamGenerator] *)

Module BedrockLegacy.
Import BedrockEvents.

(** An entry of [streamingToolUses]. *)
Record Accumulated : Type := {
  acc_toolUseId : option string;
  acc_name : option string;
  acc_input : string
}.

Record State : Type := {
  streamingToolUses : JsMap.t Accumulated;
  currentBlockIndex : nat
}.

Definition partsResponse (parts : list ResponsePart) : GenerateContentResponse :=
  {| candidate := Some (parts, OwnValue STOP); usageMetadata := None |}.

Definition usageResponse (usage : TokenUsage) : GenerateContentResponse :=
  {| candidate := None;
     usageMetadata :=
       Some {| Usage.promptTokenCount := Usage.or_zero (inputTokens usage);
               Usage.candidatesTokenCount := Usage.or_zero (outputTokens usage);
               Usage.totalTokenCount := Usage.or_zero (totalTokens usage);
               Usage.cachedContentTokenCount := None |} |}.

Section WithJsonLib.
Context {L : JsonLib}.

(** One turn of the [for await] loop. *)
Definition step (st : State) (event : Event)
  : Outcome (State * list GenerateContentResponse) :=
  match event with
  | contentBlockStart contentBlockIndex toolUse =>
      let index := default 0 contentBlockIndex in
      match toolUse with
      | Some toolUse =>
          Returns
            ({| streamingToolUses :=
                  JsMap.set index
                    {| acc_toolUseId := toolUseId toolUse;
                       acc_name := name toolUse;
                       acc_input := "" |}
                    (streamingToolUses st);
                currentBlockIndex := index |}, [])
      | None =>
          Returns ({| streamingToolUses := streamingToolUses st;
                      currentBlockIndex := index |}, [])
      end
  | contentBlockDelta contentBlockIndex delta =>
      let index := default (currentBlockIndex st) contentBlockIndex in
      match delta with
      | Some (DeltaToolUse input) =>
          match JsMap.get index (streamingToolUses st) with
          | Some accumulated =>
              if Js.truthy_str input then
                Returns
                  ({| streamingToolUses :=
                        JsMap.set index
                          {| acc_toolUseId := acc_toolUseId accumulated;
                             acc_name := acc_name accumulated;
                             acc_input := acc_input accumulated
                                          +:+ Js.str_or input "" |}
                          (streamingToolUses st);
                      currentBlockIndex := currentBlockIndex st |}, [])
              else Returns (st, [])
          | None => Returns (st, [])
          end
      | Some (DeltaText text) =>
          if Js.nonempty text
          then Returns (st, [partsResponse [TextPart text]])
          else Returns (st, [])
      | _ => Returns (st, [])
      end
  | contentBlockStop contentBlockIndex =>
      let index := default (currentBlockIndex st) contentBlockIndex in
      match JsMap.get index (streamingToolUses st) with
      | Some accumulated =>
          if Js.truthy_str (acc_toolUseId accumulated)
             && Js.truthy_str (acc_name accumulated)
          then
            try_catch
              (let! args :=
                 JSON_parse (if Js.nonempty (acc_input accumulated)
                             then acc_input accumulated else "{}") in
               Returns
                 ({| streamingToolUses :=
                       JsMap.delete index (streamingToolUses st);
                     currentBlockIndex := currentBlockIndex st |},
                  [partsResponse
                     [FunctionCallPart (acc_toolUseId accumulated)
                        (Js.str_or (acc_name accumulated) "") args None]]))
              (fun error =>
                 Throws ("Invalid JSON in tool call "
                         +:+ Js.str_or (acc_name accumulated) ""
                         +:+ ": " +:+ error))
          else Returns (st, [])
      | None => Returns (st, [])
      end
  | metadata usage =>
      match usage with
      | Some usage => Returns (st, [usageResponse usage])
      | None => Returns (st, [])
      end
  | messageStop _ => Returns (st, [])
  | otherEvent => Returns (st, [])
  end.

Fixpoint steps (st : State) (events : list Event)
  : list GenerateContentResponse * Outcome State :=
  match events with
  | [] => ([], Returns st)
  | event :: rest =>
      match step st event with
      | Returns (st', out) =>
          let '(outs, final) := steps st' rest in (out ++ outs, final)
      | Throws e => ([], Throws e)
      end
  end.

(** [streamGenerator(stream, startTime)], drained: the accumulator is
    cleared, the loop runs, and an error thrown in the loop ends the
    generator after the [finally] block. *)
Definition streamGenerator (leftover : JsMap.t Accumulated)
    (events : list Event) : Drained GenerateContentResponse :=
  let '(outs, final) :=
    steps {| streamingToolUses := []; currentBlockIndex := 0 |} events in
  {| yielded := outs;
     failure := match final with Throws e => Some e | Returns _ => None end |}.

End WithJsonLib.

End BedrockLegacy.

(** ** The OpenAI-compatible adapter: decoding responses *)

Module OpenAIResponses.

(** [isValidThoughtSignature]: the checks on one entry of the signature
    list; a non-object entry is skipped. *)
Definition signatureEntryOk (sig : json) : bool :=
  match sig with
  | JObj fields =>
      match Js.get_field "data" fields with
      | Some (JStr data) =>
          if String.length data <? 64 then false
          else if existsb (fun p => Js.startsWith p data) ["Ci"; "Ev"; "Ch"; "Co"]
          then true
          else negb (existsb (fun p => Js.startsWith p data)
                       ["ZT"; "ND"; "MW"; "Yz"; "OD"]
                     && (String.length data <? 100))
      | _ => false
      end
  | JArr _ => false   (* an array is an object without a string [data] *)
  | _ => true
  end.

(** [isValidThoughtSignature(thoughtSignature)] *)
Definition isValidThoughtSignature (thoughtSignature : json) : bool :=
  Js.truthy thoughtSignature
  && forallb signatureEntryOk
       (match thoughtSignature with JArr sigs => sigs | other => [other] end).

(** [a || b] on optional JSON values. *)
Definition or_else (a b : option json) : option json :=
  match a with
  | Some v => if Js.truthy v then a else b
  | None => b
  end.

(** [v && isValidThoughtSignature(v)] *)
Definition validSignature (v : option json) : bool :=
  match v with
  | Some s => Js.truthy s && isValidThoughtSignature s
  | None => false
  end.

(** An element of [choice.delta.tool_calls]. *)
Record ToolCallDelta : Type := {
  tcd_index : option nat;
  tcd_id : option string;
  tcd_name : option string;             (* [function?.name] *)
  tcd_arguments : option string;        (* [function?.arguments] *)
  tcd_thought_signature : option json;
  tcd_function_thought_signature : option json
}.

(** [chunk.choices[0]] *)
Record ChunkChoice : Type := {
  delta_content : option string;
  delta_tool_calls : option (list ToolCallDelta);
  delta_reasoning_details : option json;
  choice_reasoning_details : option json;
  finish_reason : option string
}.

(** [ChatCompletionChunk] *)
Record Chunk : Type := {
  choice0 : option ChunkChoice;
  chunk_reasoning_details : option json;
  chunk_usage : option Usage.OpenAIUsage
}.

(** An entry of [streamingToolCalls]. *)
Record Accumulated : Type := {
  acc_id : option string;
  acc_name : option string;
  acc_arguments : string;
  acc_thought_signature : option json
}.

(** The adapter fields a stream updates. *)
Record State : Type := {
  streamingToolCalls : JsMap.t Accumulated;
  streamingReasoningDetails : option json
}.

(** The body of [for (const toolCall of choice.delta.tool_calls)]. *)
Definition accumulate (calls : JsMap.t Accumulated) (toolCall : ToolCallDelta)
  : JsMap.t Accumulated :=
  let index := default 0 (tcd_index toolCall) in
  let accumulatedCall :=
    match JsMap.get index calls with
    | Some a => a
    | None => {| acc_id := None; acc_name := None; acc_arguments := "";
                 acc_thought_signature := None |}
    end in
  JsMap.set index
    {| acc_id := if Js.truthy_str (tcd_id toolCall)
                 then tcd_id toolCall else acc_id accumulatedCall;
       acc_name := if Js.truthy_str (tcd_name toolCall)
                   then tcd_name toolCall else acc_name accumulatedCall;
       acc_arguments := acc_arguments accumulatedCall
                        +:+ Js.str_or (tcd_arguments toolCall) "";
       acc_thought_signature :=
         match or_else (tcd_thought_signature toolCall)
                 (tcd_function_thought_signature toolCall) with
         | Some v => if Js.truthy v then Some v
                     else acc_thought_signature accumulatedCall
         | None => acc_thought_signature accumulatedCall
         end |}
    calls.

(** The tool-call deltas a chunk carries. *)
Definition deltasOf (chunk : Chunk) : list ToolCallDelta :=
  match choice0 chunk with
  | Some choice => default [] (delta_tool_calls choice)
  | None => []
  end.

(** The chunk carries a finish reason. *)
Definition isFinishing (chunk : Chunk) : bool :=
  match choice0 chunk with
  | Some choice => Js.truthy_str (finish_reason choice)
  | None => false
  end.

(** The text part a chunk's own delta adds. *)
Definition textPartsOf (chunk : Chunk) : list ResponsePart :=
  match choice0 chunk with
  | Some choice =>
      match delta_content choice with
      | Some t => if Js.nonempty t then [TextPart t] else []
      | None => []
      end
  | None => []
  end.

(** The response to a chunk without a finish reason. *)
Definition nonFinalResponse (chunk : Chunk) : GenerateContentResponse :=
  {| candidate :=
       match choice0 chunk with
       | Some _ => Some (textPartsOf chunk, OwnValue FINISH_REASON_UNSPECIFIED)
       | None => None
       end;
     usageMetadata := Usage.usageMetadataOf (chunk_usage chunk) |}.

(** The argument fragments the deltas carry for block [index],
    concatenated, and the last name and id they give it. *)
Fixpoint argumentsFor (index : nat) (deltas : list ToolCallDelta) : string :=
  match deltas with
  | [] => ""
  | d :: rest =>
      if Nat.eqb (default 0 (tcd_index d)) index
      then Js.str_or (tcd_arguments d) "" +:+ argumentsFor index rest
      else argumentsFor index rest
  end.

Fixpoint lastName (index : nat) (known : option string)
    (deltas : list ToolCallDelta) : option string :=
  match deltas with
  | [] => known
  | d :: rest =>
      lastName index
        (if Nat.eqb (default 0 (tcd_index d)) index
            && Js.truthy_str (tcd_name d)
         then tcd_name d else known) rest
  end.

Fixpoint lastId (index : nat) (known : option string)
    (deltas : list ToolCallDelta) : option string :=
  match deltas with
  | [] => known
  | d :: rest =>
      lastId index
        (if Nat.eqb (default 0 (tcd_index d)) index
            && Js.truthy_str (tcd_id d)
         then tcd_id d else known) rest
  end.

(** The accumulator a stream holds when all of [deltas] have come. *)
Definition accumulated (deltas : list ToolCallDelta) : JsMap.t Accumulated :=
  foldl accumulate [] deltas.

(** The fields of an accumulator entry that may not exist yet. *)
Definition argumentsOf (entry : option Accumulated) : string :=
  match entry with Some a => acc_arguments a | None => "" end.

Definition nameOf (entry : option Accumulated) : option string :=
  entry ≫= acc_name.

Definition idOf (entry : option Accumulated) : option string :=
  entry ≫= acc_id.

(** A part without its thought signature. *)
Definition eraseSignature (part : ResponsePart) : ResponsePart :=
  match part with
  | FunctionCallPart id callName args _ => FunctionCallPart id callName args None
  | TextPart t => TextPart t
  end.

Section WithJsonLib.
Context {L : JsonLib}.

(** [args = {}; if (s) args = safeJsonParse(s, {})] *)
Definition parseArguments (s : string) : Outcome json :=
  if Js.nonempty s then safeJsonParse (JStr s) (JObj []) else Returns (JObj []).

(** What one accumulated call adds to [parts] when the stream finishes. *)
Definition emitAccumulated (isJsonSchemaRequest : bool)
    (reasoningDetails : option json) (parts : list ResponsePart)
    (accumulatedCall : Accumulated) : Outcome (list ResponsePart) :=
  match acc_name accumulatedCall with
  | Some callName =>
      if Js.nonempty callName then
        let! args := parseArguments (acc_arguments accumulatedCall) in
        if isJsonSchemaRequest && String.eqb callName "respond_in_schema"
        then Returns (parts ++ [TextPart (JSON_stringify args)])
        else
          let signature :=
            if validSignature (acc_thought_signature accumulatedCall)
            then acc_thought_signature accumulatedCall
            else if (match reasoningDetails with
                     | Some d => Js.truthy d | None => false end)
                    && (length (List.filter isFunctionCallPart parts) =? 0)
            then reasoningDetails
            else None in
          Returns (parts ++ [FunctionCallPart (acc_id accumulatedCall)
                               callName args signature])
      else Returns parts
  | None => Returns parts
  end.

(** The loop [for (const [, accumulatedCall] of this.streamingToolCalls)]. *)
Fixpoint emitAll (isJsonSchemaRequest : bool) (reasoningDetails : option json)
    (parts : list ResponsePart) (calls : JsMap.t Accumulated)
  : Outcome (list ResponsePart) :=
  match calls with
  | [] => Returns parts
  | (_, accumulatedCall) :: rest =>
      let! parts' := emitAccumulated isJsonSchemaRequest reasoningDetails
                       parts accumulatedCall in
      emitAll isJsonSchemaRequest reasoningDetails parts' rest
  end.

(** [convertStreamChunkToGeminiFormat(chunk, isJsonSchemaRequest)]: the
    response, and the adapter state after the call. *)
Definition convertStreamChunkToGeminiFormat (st : State) (chunk : Chunk)
    (isJsonSchemaRequest : bool) : Outcome (State * GenerateContentResponse) :=
  let usage := Usage.usageMetadataOf (chunk_usage chunk) in
  match choice0 chunk with
  | None => Returns (st, {| candidate := None; usageMetadata := usage |})
  | Some choice =>
      let textParts :=
        match delta_content choice with
        | Some t => if Js.nonempty t then [TextPart t] else []
        | None => []
        end in
      let deltaReasoningDetails :=
        or_else (delta_reasoning_details choice)
          (or_else (choice_reasoning_details choice)
             (chunk_reasoning_details chunk)) in
      let reasoning :=
        if validSignature deltaReasoningDetails
        then deltaReasoningDetails else streamingReasoningDetails st in
      let calls :=
        match delta_tool_calls choice with
        | Some toolCalls => foldl accumulate (streamingToolCalls st) toolCalls
        | None => streamingToolCalls st
        end in
      if Js.truthy_str (finish_reason choice) then
        let! parts := emitAll isJsonSchemaRequest reasoning textParts calls in
        Returns
          ({| streamingToolCalls := []; streamingReasoningDetails := None |},
           {| candidate :=
                Some (parts, OpenAIFinish.mapFinishReason (finish_reason choice));
              usageMetadata := usage |})
      else
        Returns
          ({| streamingToolCalls := calls;
              streamingReasoningDetails := reasoning |},
           {| candidate := Some (textParts, OwnValue FINISH_REASON_UNSPECIFIED);
              usageMetadata := usage |})
  end.

(** The loop of [streamGenerator] from a state. *)
Fixpoint steps (st : State) (isJsonSchemaRequest : bool) (chunks : list Chunk)
  : list GenerateContentResponse * Outcome State :=
  match chunks with
  | [] => ([], Returns st)
  | chunk :: rest =>
      match convertStreamChunkToGeminiFormat st chunk isJsonSchemaRequest with
      | Returns (st', response) =>
          let '(outs, final) := steps st' isJsonSchemaRequest rest in
          (response :: outs, final)
      | Throws e => ([], Throws e)
      end
  end.

(** [streamGenerator(stream, isJsonSchemaRequest)], drained; the state a
    previous stream left behind is reset first. *)
Definition streamGenerator (leftover : State) (chunks : list Chunk)
    (isJsonSchemaRequest : bool) : Drained GenerateContentResponse :=
  let '(outs, final) :=
    steps {| streamingToolCalls := []; streamingReasoningDetails := None |}
      isJsonSchemaRequest chunks in
  {| yielded := outs;
     failure := match final with Throws e => Some e | Returns _ => None end |}.

(** *** Reading a stream block by block *)

(** [s] parsed as [parseArguments] does, for a call that does not throw. *)
Definition parsedArguments (s : string) : json :=
  match parseArguments s with
  | Returns v => v
  | Throws _ => JObj []
  end.

(** The part an accumulated block stands for when the stream finishes,
    thought signature apart: nothing without a name, the serialized
    arguments as text for the schema tool of a JSON-schema request, and a
    tool call otherwise. *)
Definition blockPart (isJsonSchemaRequest : bool) (accumulatedCall : Accumulated)
  : list ResponsePart :=
  match acc_name accumulatedCall with
  | Some callName =>
      if Js.nonempty callName then
        if isJsonSchemaRequest && String.eqb callName "respond_in_schema"
        then [TextPart
                (JSON_stringify
                   (parsedArguments (acc_arguments accumulatedCall)))]
        else [FunctionCallPart (acc_id accumulatedCall) callName
                (parsedArguments (acc_arguments accumulatedCall)) None]
      else []
  | None => []
  end.

(** *** The blocking path *)

(** [toolCall.function] *)
Record ResponseFunction : Type := {
  rf_name : string;
  rf_arguments : string;
  rf_thought_signature : option json
}.

(** [choice.message.tool_calls[i]], with the three places a thought
    signature is looked for. *)
Record ResponseToolCall : Type := {
  rtc_id : option string;
  rtc_type : string;
  rtc_function : option ResponseFunction;
  rtc_thought_signature : option json;
  rtc_thoughtSignature : option json
}.

(** An element of [openaiResponse.choices], with the fields of its
    [message]. *)
Record Choice : Type := {
  message_content : option string;
  message_tool_calls : option (list ResponseToolCall);
  message_reasoning_details : option json;
  completion_finish_reason : option string
}.

(** [ChatCompletion] *)
Record ChatCompletion : Type := {
  choices : list Choice;
  completion_usage : option Usage.OpenAIUsage
}.

(** The body of [for (const toolCall of choice.message.tool_calls)]. *)
Definition decodeToolCall (isJsonSchemaRequest : bool)
    (parts : list ResponsePart) (toolCall : ResponseToolCall)
  : Outcome (list ResponsePart) :=
  match rtc_function toolCall with
  | Some function =>
      if String.eqb (rtc_type toolCall) "function" then
        let! args := parseArguments (rf_arguments function) in
        if isJsonSchemaRequest
           && String.eqb (rf_name function) "respond_in_schema"
        then Returns (parts ++ [TextPart (JSON_stringify args)])
        else
          let thoughtSig :=
            or_else (rtc_thought_signature toolCall)
              (or_else (rtc_thoughtSignature toolCall)
                 (rf_thought_signature function)) in
          Returns
            (parts ++ [FunctionCallPart (rtc_id toolCall) (rf_name function)
                         args
                         (if validSignature thoughtSig
                          then thoughtSig else None)])
      else Returns parts
  | None => Returns parts
  end.

Fixpoint decodeToolCalls (isJsonSchemaRequest : bool)
    (parts : list ResponsePart) (toolCalls : list ResponseToolCall)
  : Outcome (list ResponsePart) :=
  match toolCalls with
  | [] => Returns parts
  | toolCall :: rest =>
      let! parts' := decodeToolCall isJsonSchemaRequest parts toolCall in
      decodeToolCalls isJsonSchemaRequest parts' rest
  end.

(** [toolCall.function.arguments], the empty string without [function]. *)
Definition callArguments (toolCall : ResponseToolCall) : string :=
  match rtc_function toolCall with
  | Some function => rf_arguments function
  | None => ""
  end.

(** The tool call is a function call of [respond_in_schema]. *)
Definition callsSchemaTool (toolCall : ResponseToolCall) : bool :=
  String.eqb (rtc_type toolCall) "function"
  && match rtc_function toolCall with
     | Some function => String.eqb (rf_name function) "respond_in_schema"
     | None => false
     end.

(** The part a tool call of the message stands for, thought signature
    apart: nothing when it is not a function call, the serialized arguments
    as text for the schema tool of a JSON-schema request, and a tool call
    otherwise. *)
Definition callPart (isJsonSchemaRequest : bool) (toolCall : ResponseToolCall)
  : list ResponsePart :=
  match rtc_function toolCall with
  | Some function =>
      if String.eqb (rtc_type toolCall) "function" then
        if isJsonSchemaRequest
           && String.eqb (rf_name function) "respond_in_schema"
        then [TextPart
                (JSON_stringify (parsedArguments (rf_arguments function)))]
        else [FunctionCallPart (rtc_id toolCall) (rf_name function)
                (parsedArguments (rf_arguments function)) None]
      else []
  | None => []
  end.

(** The text part of a choice: its message content when that is not
    empty. *)
Definition messageTextParts (choice : Choice) : list ResponsePart :=
  match message_content choice with
  | Some t => if Js.nonempty t then [TextPart t] else []
  | None => []
  end.

(** [firstFunctionCallPart.thoughtSignature = messageReasoningDetails] when
    the first function call part has no signature yet. *)
Fixpoint attachToFirstCall (details : option json) (parts : list ResponsePart)
  : list ResponsePart :=
  match parts with
  | [] => []
  | FunctionCallPart id callName args signature :: rest =>
      FunctionCallPart id callName args
        (match signature with
         | Some s => if Js.truthy s then signature else details
         | None => details
         end) :: rest
  | part :: rest => part :: attachToFirstCall details rest
  end.

(** [convertToGeminiFormat(openaiResponse, isJsonSchemaRequest)].  The
    first choice is read with [openaiResponse.choices[0]] and its [message]
    without a test, so a completion without choices throws. *)
Definition convertToGeminiFormat (openaiResponse : ChatCompletion)
    (isJsonSchemaRequest : bool) : Outcome GenerateContentResponse :=
  match choices openaiResponse with
  | [] =>
      Throws "TypeError: Cannot read properties of undefined (reading 'message')"
  | choice :: _ =>
      let textParts :=
        match message_content choice with
        | Some t => if Js.nonempty t then [TextPart t] else []
        | None => []
        end in
      let! parts :=
        match message_tool_calls choice with
        | Some toolCalls =>
            decodeToolCalls isJsonSchemaRequest textParts toolCalls
        | None => Returns textParts
        end in
      let parts' :=
        if validSignature (message_reasoning_details choice)
        then attachToFirstCall (message_reasoning_details choice) parts
        else parts in
      Returns
        {| candidate :=
             Some (parts',
                   OpenAIFinish.mapFinishReason
                     (Some (Js.str_or (completion_finish_reason choice)
                              "stop")));
           usageMetadata :=
             Usage.usageMetadataOf (completion_usage openaiResponse) |}
  end.

End WithJsonLib.

(** *** The tools sent with a request *)

(** [ChatCompletionTool] *)
Record FunctionTool : Type := {
  ft_name : string;
  ft_description : string;
  ft_parameters : json
}.

(** [request.config?.responseJsonSchema &&
    request.config?.responseMimeType === 'application/json'] *)
Definition isJsonSchemaRequest (request : GenerateContentParameters) : bool :=
  match config request with
  | Some c =>
      match responseJsonSchema c, responseMimeType c with
      | Some schema, Some mime =>
          Js.truthy schema && String.eqb mime "application/json"
      | _, _ => false
      end
  | None => false
  end.

Section WithJsonLib.
Context {L : JsonLib}.

(** [convertGeminiToolsToOpenAI(geminiTools)] *)
Definition convertGeminiToolsToOpenAI (geminiTools : list Tool)
  : list FunctionTool :=
  flat_map
    (fun actualTool =>
       match functionDeclarations actualTool with
       | Some declarations =>
           flat_map
             (fun func =>
                if Js.truthy_str (fd_name func)
                   && Js.truthy_str (fd_description func)
                then [{| ft_name := Js.str_or (fd_name func) "";
                         ft_description := Js.str_or (fd_description func) "";
                         ft_parameters :=
                           Schema.convertGeminiParametersToOpenAI
                             (default (JObj []) (fd_parameters func)) |}]
                else [])
             declarations
       | None => []
       end)
    geminiTools.

(** [createParams.tools] as [generateContent] and [generateContentStream]
    set it; [None] when it is left unset. *)
Definition requestTools (request : GenerateContentParameters)
  : option (list FunctionTool) :=
  match config request with
  | Some c =>
      if isJsonSchemaRequest request then
        Some [{| ft_name := "respond_in_schema";
                 ft_description :=
                   "Provide the response in the specified JSON schema format";
                 ft_parameters := default JNull (responseJsonSchema c) |}]
      else
        match tools c with
        | Some geminiTools => Some (convertGeminiToolsToOpenAI geminiTools)
        | None => None
        end
  | None => None
  end.

End WithJsonLib.

End OpenAIResponses.

(** ** Converting canonical turns to provider messages *)

(** [typeof p === 'string' ? p : 'text' in p ? p.text : ''], as the element
    of a [join] ([undefined] joins as the empty string). *)
Definition partTextOrEmpty (p : PartUnion) : string :=
  match p with
  | PartString s => s
  | PartObject part => default "" (text part)
  end.

(** [parts?.map(...).join('\n') || ''] *)
Definition joinPartTexts (parts : option (list PartUnion)) : string :=
  match parts with
  | Some ps => Js.join_lines (map partTextOrEmpty ps)
  | None => ""
  end.

(** The system text the OpenAI and Bedrock adapters extract. *)
Definition systemTextOf (instruction : SystemInstruction) : string :=
  match instruction with
  | SystemString s => s
  | SystemArray items =>
      Js.join_lines
        (map (fun item =>
                match item with
                | ContentString s => s
                | ContentObject _ parts => joinPartTexts parts
                | ContentOther => ""
                end) items)
  | SystemContent parts => joinPartTexts parts
  | SystemOther => ""
  end.

Module OpenAIConvert.
Import OpenAI.

Definition REASONING_DETAILS_MARKER : string :=
  "__OPENROUTER_REASONING_DETAILS__:".

(** [filterReasoningDetailsMarker(text)] *)
Definition filterReasoningDetailsMarker (t : string) : string :=
  if negb (Js.includes REASONING_DETAILS_MARKER t) then t
  else
    Js.trim
      (Js.join_lines
         (List.filter
            (fun line => negb (Js.includes REASONING_DETAILS_MARKER line))
            (Js.split_lines t))).

(** The four accumulators of the loop over [content.parts]. *)
Record Buckets : Type := {
  functionCalls : list FunctionCall;
  functionResponses : list FunctionResponse;
  textParts : list string;
  reasoningDetails : json   (* starts as [null] *)
}.

Definition noBuckets : Buckets :=
  {| functionCalls := []; functionResponses := []; textParts := [];
     reasoningDetails := JNull |}.

Definition pushText (b : Buckets) (t : string) : Buckets :=
  {| functionCalls := functionCalls b;
     functionResponses := functionResponses b;
     textParts := textParts b ++ [t];
     reasoningDetails := reasoningDetails b |}.

Definition setReasoning (b : Buckets) (details : json) : Buckets :=
  {| functionCalls := functionCalls b;
     functionResponses := functionResponses b;
     textParts := textParts b;
     reasoningDetails := details |}.

Section WithJsonLib.
Context {L : JsonLib}.

(** The body of [for (const part of content.parts || [])]. *)
Definition bucketPart (b : Buckets) (part : PartUnion) : Buckets :=
  match part with
  | PartString s =>
      let cleanedString := filterReasoningDetailsMarker s in
      if Js.nonempty cleanedString then pushText b cleanedString else b
  | PartObject p =>
      if Js.truthy_str (text p) then
        let t := default "" (text p) in
        if thought p && Js.startsWith REASONING_DETAILS_MARKER t then
          match JSON_parse
                  (Js.slice (String.length REASONING_DETAILS_MARKER) t) with
          | Returns details => setReasoning b details
          | Throws _ => b
          end
        else if negb (thought p) then
          let cleanedText := filterReasoningDetailsMarker t in
          if Js.nonempty cleanedText then pushText b cleanedText else b
        else b
      else
        match functionCall p with
        | Some fc =>
            let b' :=
              {| functionCalls := functionCalls b ++ [fc];
                 functionResponses := functionResponses b;
                 textParts := textParts b;
                 reasoningDetails := reasoningDetails b |} in
            match thoughtSignature p with
            | Some signature =>
                if Js.truthy signature
                   && negb (Js.truthy (reasoningDetails b))
                   && OpenAIResponses.isValidThoughtSignature signature
                then setReasoning b' signature else b'
            | None => b'
            end
        | None =>
            match functionResponse p with
            | Some fr =>
                {| functionCalls := functionCalls b;
                   functionResponses := functionResponses b ++ [fr];
                   textParts := textParts b;
                   reasoningDetails := reasoningDetails b |}
            | None => b
            end
        end
  end.

Definition bucketParts (parts : list PartUnion) : Buckets :=
  foldl bucketPart noBuckets parts.

(** [typeof r === 'string' ? r : JSON.stringify(r)] *)
Definition responseText (response : json) : string :=
  match response with
  | JStr s => s
  | other => JSON_stringify other
  end.

Definition plainMessage (r : Role) (c : MessageContent)
    (details : option json) : Message :=
  {| role := r; content := c; tool_calls := None; tool_call_id := None;
     reasoning_details := details; reasoning_content := None |}.

(** [reasoningDetails] when it is truthy. *)
Definition attachedDetails (b : Buckets) : option json :=
  if Js.truthy (reasoningDetails b) then Some (reasoningDetails b) else None.

(** The messages one [Content] object of the array contributes. *)
Definition convertContent (contentRole : string)
    (parts : option (list PartUnion)) : list Message :=
  let b := bucketParts (default [] parts) in
  match functionResponses b with
  | _ :: _ =>
      map (fun funcResponse =>
             {| role := tool;
                content := ContentText (responseText (fr_response funcResponse));
                tool_calls := None;
                tool_call_id := Some (Js.str_or (fr_id funcResponse) "");
                reasoning_details := None;
                reasoning_content := None |})
          (functionResponses b)
  | [] =>
      if String.eqb contentRole "model" && (0 <? length (functionCalls b))
      then
        let toolCalls :=
          imap (fun index fc =>
                  {| tc_id := Js.str_or (fc_id fc) ("call_" +:+ pretty index);
                     tc_type := "function";
                     tc_name := Js.str_or (fc_name fc) "";
                     tc_arguments :=
                       JSON_stringify (default (JObj []) (fc_args fc)) |})
               (functionCalls b) in
        let joined := Js.join_lines (textParts b) in
        [{| role := assistant;
            content := if Js.nonempty joined then ContentText joined
                       else ContentNull;
            tool_calls := Some toolCalls;
            tool_call_id := None;
            reasoning_details := attachedDetails b;
            reasoning_content := None |}]
      else
        let r := if String.eqb contentRole "model" then assistant else user in
        let joined := Js.join_lines (textParts b) in
        if Js.nonempty joined then
          [plainMessage r (ContentText joined)
             (match r with assistant => attachedDetails b | _ => None end)]
        else []
  end.

(** The messages built from [request.contents], before the hygiene pass. *)
Definition contentMessages (c : Contents) : list Message :=
  match c with
  | ContentsArray items =>
      flat_map (fun item =>
                  match item with
                  | ContentString s => [plainMessage user (ContentText s) None]
                  | ContentObject contentRole parts =>
                      convertContent contentRole parts
                  | ContentOther => []
                  end) items
  | ContentsSingle (ContentString s) =>
      let cleanedContent := filterReasoningDetailsMarker s in
      if Js.nonempty cleanedContent
      then [plainMessage user (ContentText cleanedContent) None] else []
  | ContentsSingle (ContentObject contentRole parts) =>
      let r := if String.eqb contentRole "model" then assistant else user in
      let cleanedText := filterReasoningDetailsMarker (joinPartTexts parts) in
      if Js.nonempty cleanedText
      then [plainMessage r (ContentText cleanedText) None] else []
  | ContentsSingle ContentOther => []
  end.

(** The system message, when the system text is not empty. *)
Definition systemMessages (request : GenerateContentParameters)
  : list Message :=
  match config request ≫= systemInstruction with
  | Some instruction =>
      let systemText := systemTextOf instruction in
      if Js.nonempty systemText
      then [plainMessage system (ContentText systemText) None] else []
  | None => []
  end.

(** [isDeepSeekReasonerModel()] *)
Definition isDeepSeekReasonerModel (model : string) : bool :=
  Js.includes "deepseek-reasoner" (Js.toLowerCase model)
  || Js.includes "deepseek-r1" (Js.toLowerCase model).

(** [addReasoningContentForDeepSeek(messages)] *)
Definition addReasoningContentForDeepSeek (messages : list Message)
  : list Message :=
  map (fun message =>
         match role message with
         | assistant =>
             {| role := role message; content := content message;
                tool_calls := tool_calls message;
                tool_call_id := tool_call_id message;
                reasoning_details := reasoning_details message;
                reasoning_content := Some "" |}
         | _ => message
         end) messages.

(** [convertToOpenAIFormat(request)] for the adapter's [model]. *)
Definition convertToOpenAIFormat (model : string)
    (request : GenerateContentParameters) : list Message :=
  let messages := systemMessages request ++ contentMessages (contents request) in
  let mergedMessages := hygienePass messages in
  if isDeepSeekReasonerModel model
  then addReasoningContentForDeepSeek mergedMessages
  else mergedMessages.

End WithJsonLib.

End OpenAIConvert.

Module BedrockConvert.

(** [ContentBlock] *)
Inductive ContentBlock : Type :=
| TextBlock (t : string)
| ToolUseBlock (toolUseId name : string) (input : json)
| ToolResultBlock (toolUseId t : string).

Record Message : Type := {
  role : string;
  content : list ContentBlock
}.

(** The three accumulators of the loop over [content.parts]. *)
Record Buckets : Type := {
  contentBlocks : list ContentBlock;
  toolResults : list ContentBlock;
  functionCalls : list FunctionCall
}.

Section WithJsonLib.
Context {L : JsonLib}.

(** The body of [for (const part of content.parts || [])]. *)
Definition bucketPart (b : Buckets) (part : PartUnion) : Buckets :=
  match part with
  | PartString s =>
      {| contentBlocks := contentBlocks b ++ [TextBlock s];
         toolResults := toolResults b; functionCalls := functionCalls b |}
  | PartObject p =>
      if Js.truthy_str (text p) && negb (thought p) then
        {| contentBlocks := contentBlocks b ++ [TextBlock (default "" (text p))];
           toolResults := toolResults b; functionCalls := functionCalls b |}
      else
        match functionCall p with
        | Some fc =>
            {| contentBlocks := contentBlocks b;
               toolResults := toolResults b;
               functionCalls := functionCalls b ++ [fc] |}
        | None =>
            match functionResponse p with
            | Some fr =>
                {| contentBlocks := contentBlocks b;
                   toolResults :=
                     toolResults b
                     ++ [ToolResultBlock (Js.str_or (fr_id fr) "")
                           (OpenAIConvert.responseText (fr_response fr))];
                   functionCalls := functionCalls b |}
            | None => b
            end
        end
  end.

Definition bucketParts (parts : list PartUnion) : Buckets :=
  foldl bucketPart
    {| contentBlocks := []; toolResults := []; functionCalls := [] |} parts.

(** The message one [Content] object of the array contributes; [now] is
    the reading of [Date.now()]. *)
Definition convertContent (now : nat) (contentRole : string)
    (parts : option (list PartUnion)) : list Message :=
  let b := bucketParts (default [] parts) in
  match toolResults b with
  | _ :: _ => [{| role := "user"; content := toolResults b |}]
  | [] =>
      if String.eqb contentRole "model" && (0 <? length (functionCalls b))
      then
        [{| role := "assistant";
            content :=
              contentBlocks b
              ++ map (fun fc =>
                        ToolUseBlock
                          (Js.str_or (fc_id fc) ("tool_" +:+ pretty now))
                          (Js.str_or (fc_name fc) "")
                          (default (JObj []) (fc_args fc)))
                     (functionCalls b) |}]
      else
        match contentBlocks b with
        | _ :: _ =>
            [{| role := if String.eqb contentRole "model"
                        then "assistant" else "user";
                content := contentBlocks b |}]
        | [] => []
        end
  end.

(** The messages of [convertToBedrockFormat(request)]. *)
Definition convertMessages (now : nat) (c : Contents) : list Message :=
  match c with
  | ContentsArray items =>
      flat_map (fun item =>
                  match item with
                  | ContentString s =>
                      [{| role := "user"; content := [TextBlock s] |}]
                  | ContentObject contentRole parts =>
                      convertContent now contentRole parts
                  | ContentOther => []
                  end) items
  | ContentsSingle (ContentString s) =>
      if Js.nonempty s
      then [{| role := "user"; content := [TextBlock s] |}] else []
  | ContentsSingle (ContentObject contentRole parts) =>
      let t := joinPartTexts parts in
      if Js.nonempty t
      then [{| role := if String.eqb contentRole "model"
                       then "assistant" else "user";
               content := [TextBlock t] |}]
      else []
  | ContentsSingle ContentOther => []
  end.

End WithJsonLib.

(** The text blocks of a list of content blocks. *)
Definition blockTexts (blocks : list ContentBlock) : list string :=
  omap (fun block => match block with TextBlock t => Some t | _ => None end)
       blocks.

End BedrockConvert.

Module BedrockLegacyConvert.

(** The [textParts] accumulator in the loop over [content.parts] of the
    first Bedrock adapter's [convertToBedrockFormat]. *)
Definition pushTextPart (textParts : list string) (part : PartUnion)
  : list string :=
  match part with
  | PartString s => textParts ++ [s]
  | PartObject p =>
      if Js.truthy_str (text p) then textParts ++ [default "" (text p)]
      else textParts
  end.

Definition textPartsOf (parts : list PartUnion) : list string :=
  foldl pushTextPart [] parts.

End BedrockLegacyConvert.

(** A text part flagged as internal reasoning. *)
Definition isThoughtText (part : PartUnion) : bool :=
  match part with
  | PartObject p => Js.truthy_str (text p) && thought p
  | PartString _ => false
  end.

(** ** The Anthropic adapter *)

Module Anthropic.

(** [Anthropic.ContentBlockParam] *)
Inductive ContentBlockParam : Type :=
| TextBlock (t : string)
| ToolUseBlock (id name : string) (input : json)
| ToolResultBlock (tool_use_id content : string).

(** [MessageParam.content]: a string or an array of blocks. *)
Inductive MessageContent : Type :=
| ContentText (s : string)
| ContentBlocks (blocks : list ContentBlockParam).

Record MessageParam : Type := {
  role : string;
  content : MessageContent
}.

(** [Anthropic.Tool] *)
Record AnthropicTool : Type := {
  tool_name : string;
  tool_description : string;
  input_schema : json
}.

(** [MessageCreateParamsNonStreaming] *)
Record CreateParams : Type := {
  cp_model : string;
  cp_max_tokens : Z;
  cp_messages : list MessageParam;
  cp_system : option string;
  cp_temperature : option json;
  cp_top_p : option json;
  cp_tools : option (list AnthropicTool)
}.

(** A block of [Anthropic.Message.content]. *)
Inductive ResponseBlock : Type :=
| ResponseText (t : string)
| ResponseToolUse (id name : string) (input : json)
| ResponseOther.

(** [Anthropic.Message] *)
Record AnthropicMessage : Type := {
  response_content : list ResponseBlock;
  stop_reason : option string;
  input_tokens : Z;
  output_tokens : Z
}.

(** [config.getContentGeneratorConfig()?.samplingParams] *)
Record SamplingParams : Type := {
  sp_temperature : option json;
  sp_max_tokens : option Z;
  sp_top_p : option json
}.

(** What the adapter instance holds and reaches: its model name, the
    configured sampling parameters, the clock, and the SDK call
    [client.messages.create]. *)
Class Adapter := {
  model : string;
  samplingParams : option SamplingParams;
  now : nat;
  messages_create : CreateParams -> Outcome AnthropicMessage
}.

(** The text blocks of a list of blocks. *)
Definition blockTexts (blocks : list ContentBlockParam) : list string :=
  omap (fun block => match block with TextBlock t => Some t | _ => None end)
       blocks.

Section WithAdapter.
Context {L : JsonLib} {A : Adapter}.

(** [processContentParts(content)]: the loop over the parts, then the
    function responses as [tool_result] blocks. *)
Definition processPart
    (acc : list ContentBlockParam * list FunctionResponse) (part : PartUnion)
  : list ContentBlockParam * list FunctionResponse :=
  let '(contentBlocks, functionResponses) := acc in
  match part with
  | PartString s => (contentBlocks ++ [TextBlock s], functionResponses)
  | PartObject p =>
      if Js.truthy_str (text p)
      then (contentBlocks ++ [TextBlock (default "" (text p))],
            functionResponses)
      else
        match functionCall p with
        | Some fc =>
            (contentBlocks
             ++ [ToolUseBlock (Js.str_or (fc_id fc) ("call_" +:+ pretty now))
                   (Js.str_or (fc_name fc) "")
                   (default (JObj []) (fc_args fc))],
             functionResponses)
        | None =>
            match functionResponse p with
            | Some fr => (contentBlocks, functionResponses ++ [fr])
            | None => acc
            end
        end
  end.

Definition processContentParts (contentRole : string)
    (parts : option (list PartUnion)) : string * list ContentBlockParam :=
  let '(contentBlocks, functionResponses) :=
    foldl processPart ([], []) (default [] parts) in
  (if String.eqb contentRole "model" then "assistant" else "user",
   contentBlocks
   ++ map (fun funcResponse =>
             ToolResultBlock (Js.str_or (fr_id funcResponse) "")
               (OpenAIConvert.responseText (fr_response funcResponse)))
          functionResponses).

(** The blocks of a message content, a string counting as one text block. *)
Definition asBlocks (c : MessageContent) : list ContentBlockParam :=
  match c with
  | ContentText s => [TextBlock s]
  | ContentBlocks blocks => blocks
  end.

(** The loop of [ensureAlternatingMessages]; [lastMsg] is the last element
    of [result], which the loop may still update. *)
Fixpoint alternateLoop (lastMsg : MessageParam) (messages : list MessageParam)
  : list MessageParam :=
  match messages with
  | [] => [lastMsg]
  | msg :: rest =>
      if String.eqb (role lastMsg) (role msg) then
        alternateLoop
          {| role := role lastMsg;
             content :=
               match content lastMsg, content msg with
               | ContentText a, ContentText b =>
                   ContentText (a +:+ String Js.LF EmptyString +:+ b)
               | lastContent, newContent =>
                   ContentBlocks (asBlocks lastContent ++ asBlocks newContent)
               end |}
          rest
      else lastMsg :: alternateLoop msg rest
  end.

(** [ensureAlternatingMessages(messages)] *)
Definition ensureAlternatingMessages (messages : list MessageParam)
  : list MessageParam :=
  match messages with
  | [] => []
  | first :: rest =>
      let result := alternateLoop first rest in
      match result with
      | head :: _ =>
          if String.eqb (role head) "user" then result
          else {| role := "user"; content := ContentText "Continue." |}
               :: result
      | [] => result
      end
  end.

(** ['text' in p ? p.text : ''] throws a [TypeError] on a string. *)
Definition systemPartText (p : PartUnion) : Outcome string :=
  match p with
  | PartString _ =>
      Throws "TypeError: Cannot use 'in' operator to search for 'text'"
  | PartObject part => Returns (default "" (text part))
  end.

Fixpoint systemPartTexts (parts : list PartUnion) : Outcome (list string) :=
  match parts with
  | [] => Returns []
  | p :: rest =>
      let! t := systemPartText p in
      let! ts := systemPartTexts rest in
      Returns (t :: ts)
  end.

Definition systemContentText (parts : option (list PartUnion))
  : Outcome string :=
  match parts with
  | Some ps => let! ts := systemPartTexts ps in Returns (Js.join_lines ts)
  | None => Returns ""
  end.

Fixpoint systemItemTexts (items : list ContentUnion) : Outcome (list string) :=
  match items with
  | [] => Returns []
  | item :: rest =>
      let! t := match item with
                | ContentString s => Returns s
                | ContentObject _ parts => systemContentText parts
                | ContentOther => Returns ""
                end in
      let! ts := systemItemTexts rest in
      Returns (t :: ts)
  end.

(** [extractSystemInstruction(systemInstruction)] *)
Definition extractSystemInstruction (instruction : SystemInstruction)
  : Outcome string :=
  match instruction with
  | SystemString s => Returns s
  | SystemArray items =>
      let! ts := systemItemTexts items in Returns (Js.join_lines ts)
  | SystemContent parts => systemContentText parts
  | SystemOther => Returns ""
  end.

(** [convertToAnthropicFormat(request)] *)
Definition convertToAnthropicFormat (request : GenerateContentParameters)
  : Outcome (option string * list MessageParam) :=
  let! systemMessage :=
    match config request ≫= systemInstruction with
    | Some instruction =>
        let! s := extractSystemInstruction instruction in Returns (Some s)
    | None => Returns None
    end in
  let messages :=
    match contents request with
    | ContentsArray items =>
        flat_map
          (fun item =>
             match item with
             | ContentString s => [{| role := "user"; content := ContentText s |}]
             | ContentObject contentRole parts =>
                 let '(r, contentBlocks) :=
                   processContentParts contentRole parts in
                 match contentBlocks with
                 | _ :: _ => [{| role := r;
                                 content := ContentBlocks contentBlocks |}]
                 | [] => []
                 end
             | ContentOther => []
             end) items
    | ContentsSingle _ => []
    end in
  Returns (systemMessage, ensureAlternatingMessages messages).

(** [buildSamplingParameters(request)] *)
Definition buildSamplingParameters (request : GenerateContentParameters)
  : SamplingParams :=
  {| sp_temperature :=
       match samplingParams ≫= sp_temperature with
       | Some t => Some t
       | None => config request ≫= temperature
       end;
     sp_max_tokens :=
       match samplingParams ≫= sp_max_tokens with
       | Some n => Some n
       | None => config request ≫= maxOutputTokens
       end;
     sp_top_p :=
       match samplingParams ≫= sp_top_p with
       | Some p => Some p
       | None => config request ≫= topP
       end |}.

(** [convertGeminiToolsToAnthropic(geminiTools)] *)
Definition convertGeminiToolsToAnthropic (geminiTools : list Tool)
  : list AnthropicTool :=
  flat_map
    (fun actualTool =>
       match functionDeclarations actualTool with
       | Some declarations =>
           flat_map
             (fun func =>
                if Js.truthy_str (fd_name func)
                then [{| tool_name := Js.str_or (fd_name func) "";
                         tool_description :=
                           Js.str_or (fd_description func) "";
                         input_schema :=
                           match fd_parameters func with
                           | Some p =>
                               if Js.truthy p then p
                               else JObj [("type", JStr "object");
                                          ("properties", JObj [])]
                           | None => JObj [("type", JStr "object");
                                           ("properties", JObj [])]
                           end |}]
                else [])
             declarations
       | None => []
       end)
    geminiTools.

(** [convertToGeminiFormat(anthropicResponse)] *)
Definition convertToGeminiFormat (anthropicResponse : AnthropicMessage)
  : GenerateContentResponse :=
  {| candidate :=
       Some (flat_map
               (fun block =>
                  match block with
                  | ResponseText t => [TextPart t]
                  | ResponseToolUse id toolName input =>
                      [FunctionCallPart (Some id) toolName input None]
                  | ResponseOther => []
                  end)
               (response_content anthropicResponse),
             OwnValue
               (AnthropicFinish.mapStopReason (stop_reason anthropicResponse)));
     usageMetadata :=
       Some {| Usage.promptTokenCount := input_tokens anthropicResponse;
               Usage.candidatesTokenCount := output_tokens anthropicResponse;
               Usage.totalTokenCount :=
                 (input_tokens anthropicResponse
                  + output_tokens anthropicResponse)%Z;
               Usage.cachedContentTokenCount := None |} |}.

(** [generateContent(request, _userPromptId)].  The [catch] block logs the
    error and throws it again. *)
Definition generateContent (request : GenerateContentParameters)
    (_userPromptId : string) : Outcome GenerateContentResponse :=
  let! converted := convertToAnthropicFormat request in
  let '(systemMessage, messages) := converted in
  try_catch
    (let sampling := buildSamplingParameters request in
     let createParams :=
       {| cp_model := model;
          cp_max_tokens :=
            match sp_max_tokens sampling with
            | Some n => if (n =? 0)%Z then 4096%Z else n
            | None => 4096%Z
            end;
          cp_messages := messages;
          cp_system :=
            match systemMessage with
            | Some s => if Js.nonempty s then Some s else None
            | None => None
            end;
          cp_temperature := sp_temperature sampling;
          cp_top_p := sp_top_p sampling;
          cp_tools :=
            match config request ≫= tools with
            | Some geminiTools => Some (convertGeminiToolsToAnthropic geminiTools)
            | None => None
            end |} in
     let! completion := messages_create createParams in
     Returns (convertToGeminiFormat completion))
    (fun error => Throws error).

(** *** [generateContentStream]: the generator [streamWrapper] *)

(** Where the generator is suspended. *)
Inductive WrapperState : Type :=
| AtStart
| AfterYield
| Completed.

(** What a call to [next()] settles to. *)
Inductive IteratorResult : Type :=
| Value (response : GenerateContentResponse)
| Done
| Rejected (error : string).

(** One call to [next()] of [streamWrapper()] for [request]. *)
Definition next (request : GenerateContentParameters) (userPromptId : string)
    (st : WrapperState) : IteratorResult * WrapperState :=
  match st with
  | AtStart =>
      match generateContent request userPromptId with
      | Returns response => (Value response, AfterYield)
      | Throws error => (Rejected error, Completed)
      end
  | AfterYield => (Done, Completed)
  | Completed => (Done, Completed)
  end.

(** [generateContentStream(request, userPromptId)] returns the generator
    at its start. *)
Definition generateContentStream (request : GenerateContentParameters)
    (userPromptId : string) : WrapperState :=
  AtStart.

(** [for await (const r of stream)]: at most [fuel] calls to [next()];
    [None] when they do not reach the end of the generator. *)
Fixpoint drain (fuel : nat) (request : GenerateContentParameters)
    (userPromptId : string) (st : WrapperState)
  : option (Drained GenerateContentResponse) :=
  match fuel with
  | O => None
  | S fuel' =>
      match next request userPromptId st with
      | (Value response, st') =>
          match drain fuel' request userPromptId st' with
          | Some d => Some {| yielded := response :: yielded d;
                              failure := failure d |}
          | None => None
          end
      | (Done, _) => Some {| yielded := []; failure := None |}
      | (Rejected error, _) => Some {| yielded := []; failure := Some error |}
      end
  end.

End WithAdapter.

End Anthropic.

(** ** A reference JSON library

    A small implementation of [JsonLib], used to run the adapters on
    concrete conversations: a recursive-descent parser and a printer for
    JSON with integer numbers, and a stand-in for [jsonrepair] that knows a
    few of its repairs. *)

Module ReferenceJson.

Definition DQ : ascii := ascii_of_nat 34.          (* the double quote *)
Definition BACKSLASH : ascii := ascii_of_nat 92.
Definition TAB : ascii := ascii_of_nat 9.
Definition CR : ascii := ascii_of_nat 13.

Definition quoted (s : string) : string :=
  String DQ (s +:+ String DQ EmptyString).

Fixpoint escape (s : string) : string :=
  match s with
  | EmptyString => EmptyString
  | String c r =>
      if Ascii.eqb c DQ then String BACKSLASH (String DQ (escape r))
      else if Ascii.eqb c BACKSLASH
      then String BACKSLASH (String BACKSLASH (escape r))
      else if Ascii.eqb c Js.LF then String BACKSLASH (String "n" (escape r))
      else if Ascii.eqb c TAB then String BACKSLASH (String "t" (escape r))
      else if Ascii.eqb c CR then String BACKSLASH (String "r" (escape r))
      else String c (escape r)
  end.

(** [JSON.stringify(value)], without indentation. *)
Fixpoint stringify (v : json) : string :=
  match v with
  | JNull => "null"
  | JBool true => "true"
  | JBool false => "false"
  | JNum n => pretty n
  | JStr s => quoted (escape s)
  | JArr xs => "[" +:+ String.concat "," (map stringify xs) +:+ "]"
  | JObj fields =>
      "{" +:+ String.concat ","
                (map (fun kv => quoted (escape (fst kv)) +:+ ":"
                                +:+ stringify (snd kv)) fields)
      +:+ "}"
  end.

(** The white space of the JSON grammar: space, tab, line feed and
    carriage return. *)
Definition is_json_space (c : ascii) : bool :=
  let n := nat_of_ascii c in
  (n =? 32) || (n =? 9) || (n =? 10) || (n =? 13).

Fixpoint skip_ws (s : string) : string :=
  match s with
  | EmptyString => EmptyString
  | String c r => if is_json_space c then skip_ws r else s
  end.

(** The characters of a string literal, after its opening quote. *)
Fixpoint parse_chars (s : string) : option (string * string) :=
  match s with
  | EmptyString => None
  | String c r =>
      if Ascii.eqb c DQ then Some (EmptyString, r)
      else if Ascii.eqb c BACKSLASH then
        match r with
        | EmptyString => None
        | String e r' =>
            let decoded :=
              if Ascii.eqb e "n" then Some Js.LF
              else if Ascii.eqb e "t" then Some TAB
              else if Ascii.eqb e "r" then Some CR
              else if Ascii.eqb e DQ || Ascii.eqb e BACKSLASH
                      || Ascii.eqb e "/" then Some e
              else None in
            match decoded, parse_chars r' with
            | Some ch, Some (t, rest) => Some (String ch t, rest)
            | _, _ => None
            end
        end
      else
        match parse_chars r with
        | Some (t, rest) => Some (String c t, rest)
        | None => None
        end
  end.

Definition digit_of (c : ascii) : option Z :=
  let n := nat_of_ascii c in
  if (48 <=? n) && (n <=? 57) then Some (Z.of_nat (n - 48)) else None.

(** The digits at the head of [s]: their value, how many, and the rest. *)
Fixpoint parse_digits (acc : Z) (count : nat) (s : string)
  : Z * nat * string :=
  match s with
  | EmptyString => (acc, count, s)
  | String c r =>
      match digit_of c with
      | Some d => parse_digits (10 * acc + d)%Z (S count) r
      | None => (acc, count, s)
      end
  end.

(** An optional minus sign and at least one digit. *)
Definition parse_integer (s : string) : option (Z * string) :=
  let '(negative, body) :=
    match s with
    | String "-" r => (true, r)
    | _ => (false, s)
    end in
  let '(n, count, rest) := parse_digits 0 0 body in
  if (count =? 0)%nat then None
  else Some (if negative then (- n)%Z else n, rest).

Definition literal (word : string) (v : json) (s : string)
  : option (json * string) :=
  if String.prefix word s
  then Some (v, Js.slice (String.length word) s) else None.

(** A JSON value at the head of [s]; [fuel] bounds the nesting and the
    number of elements read. *)
Fixpoint parse_value (fuel : nat) (s : string) : option (json * string) :=
  match fuel with
  | O => None
  | S fuel' =>
      match skip_ws s with
      | EmptyString => None
      | String c r =>
          if Ascii.eqb c DQ then
            match parse_chars r with
            | Some (t, rest) => Some (JStr t, rest)
            | None => None
            end
          else if Ascii.eqb c "[" then
            match skip_ws r with
            | String "]" rest => Some (JArr [], rest)
            | _ =>
                (fix elements (n : nat) (s : string) (acc : list json)
                   : option (json * string) :=
                   match n with
                   | O => None
                   | S n' =>
                       match parse_value fuel' s with
                       | Some (v, rest) =>
                           match skip_ws rest with
                           | String "," rest' => elements n' rest' (acc ++ [v])
                           | String "]" rest' => Some (JArr (acc ++ [v]), rest')
                           | _ => None
                           end
                       | None => None
                       end
                   end) fuel' r []
            end
          else if Ascii.eqb c "{" then
            match skip_ws r with
            | String "}" rest => Some (JObj [], rest)
            | _ =>
                (fix members (n : nat) (s : string)
                     (acc : list (string * json)) : option (json * string) :=
                   match n with
                   | O => None
                   | S n' =>
                       match skip_ws s with
                       | String q afterQuote =>
                           if Ascii.eqb q DQ then
                             match parse_chars afterQuote with
                             | Some (key, rest) =>
                                 match skip_ws rest with
                                 | String ":" rest1 =>
                                     match parse_value fuel' rest1 with
                                     | Some (v, rest2) =>
                                         match skip_ws rest2 with
                                         | String "," rest3 =>
                                             members n' rest3
                                               (Js.set_field key v acc)
                                         | String "}" rest3 =>
                                             Some (JObj (Js.set_field key v acc),
                                                   rest3)
                                         | _ => None
                                         end
                                     | None => None
                                     end
                                 | _ => None
                                 end
                             | None => None
                             end
                           else None
                       | EmptyString => None
                       end
                   end) fuel' r []
            end
          else if String.prefix "true" (String c r)
          then literal "true" (JBool true) (String c r)
          else if String.prefix "false" (String c r)
          then literal "false" (JBool false) (String c r)
          else if String.prefix "null" (String c r)
          then literal "null" JNull (String c r)
          else
            match parse_integer (String c r) with
            | Some (n, rest) => Some (JNum n, rest)
            | None => None
            end
      end
  end.

(** [JSON.parse(text)] *)
Definition parse (text : string) : Outcome json :=
  match parse_value (S (String.length text)) text with
  | Some (v, rest) =>
      match skip_ws rest with
      | EmptyString => Returns v
      | _ => Throws "SyntaxError: Unexpected non-whitespace character after JSON"
      end
  | None => Throws "SyntaxError: Unexpected token in JSON"
  end.

(** *** A stand-in for [jsonrepair]

    It reads the text as [jsonrepair] does on the defects it knows and
    writes the repaired document without the white space [jsonrepair]
    keeps: a text that ends inside an object, an array or a string is
    closed; a key may be a bare word; a key left without a value gets
    [null]; a comma before a closing brace or bracket is dropped.  Where an
    object key is expected and neither a key nor a closing character
    follows, it throws, as [jsonrepair] does on [{:2}].  It also throws on
    the other defects it does not know, some of which [jsonrepair]
    repairs. *)

(** The characters of a string literal after its opening quote; the end
    of the text closes the literal. *)
Fixpoint lenient_chars (s : string) : option (string * string) :=
  match s with
  | EmptyString => Some (EmptyString, EmptyString)
  | String c r =>
      if Ascii.eqb c DQ then Some (EmptyString, r)
      else if Ascii.eqb c BACKSLASH then
        match r with
        | EmptyString => None
        | String e r' =>
            let decoded :=
              if Ascii.eqb e "n" then Some Js.LF
              else if Ascii.eqb e "t" then Some TAB
              else if Ascii.eqb e "r" then Some CR
              else if Ascii.eqb e DQ || Ascii.eqb e BACKSLASH
                      || Ascii.eqb e "/" then Some e
              else None in
            match decoded, lenient_chars r' with
            | Some ch, Some (t, rest) => Some (String ch t, rest)
            | _, _ => None
            end
        end
      else
        match lenient_chars r with
        | Some (t, rest) => Some (String c t, rest)
        | None => None
        end
  end.

(** A letter, a digit or an underscore. *)
Definition is_word_char (c : ascii) : bool :=
  let n := nat_of_ascii c in
  ((65 <=? n) && (n <=? 90)) || ((97 <=? n) && (n <=? 122))
  || ((48 <=? n) && (n <=? 57)) || (n =? 95).

(** The bare word at the head of [s], and the rest. *)
Fixpoint bare_word (s : string) : string * string :=
  match s with
  | EmptyString => (EmptyString, EmptyString)
  | String c r =>
      if is_word_char c
      then let '(w, rest) := bare_word r in (String c w, rest)
      else (EmptyString, s)
  end.

(** An object key at the head of [s]: a string literal or a bare word. *)
Definition lenient_key (s : string) : option (string * string) :=
  match s with
  | EmptyString => None
  | String c r =>
      if Ascii.eqb c DQ then lenient_chars r
      else
        match bare_word s with
        | (EmptyString, _) => None
        | (w, rest) => Some (w, rest)
        end
  end.

(** The value at the head of [s], read with the repairs above. *)
Fixpoint lenient_value (fuel : nat) (s : string) : option (json * string) :=
  match fuel with
  | O => None
  | S fuel' =>
      match skip_ws s with
      | EmptyString => None
      | String c r =>
          if Ascii.eqb c DQ then
            match lenient_chars r with
            | Some (t, rest) => Some (JStr t, rest)
            | None => None
            end
          else if Ascii.eqb c "[" then
            (fix elements (n : nat) (s : string) (acc : list json)
               : option (json * string) :=
               match n with
               | O => None
               | S n' =>
                   match skip_ws s with
                   | EmptyString => Some (JArr acc, EmptyString)
                   | String "]" rest => Some (JArr acc, rest)
                   | _ =>
                       match lenient_value fuel' s with
                       | Some (v, rest) =>
                           match skip_ws rest with
                           | EmptyString =>
                               Some (JArr (acc ++ [v]), EmptyString)
                           | String "," rest' => elements n' rest' (acc ++ [v])
                           | String "]" rest' => Some (JArr (acc ++ [v]), rest')
                           | _ => None
                           end
                       | None => None
                       end
                   end
               end) fuel' r []
          else if Ascii.eqb c "{" then
            (fix members (n : nat) (s : string)
                 (acc : list (string * json)) : option (json * string) :=
               match n with
               | O => None
               | S n' =>
                   match skip_ws s with
                   | EmptyString => Some (JObj acc, EmptyString)
                   | String "}" rest => Some (JObj acc, rest)
                   | afterSpace =>
                       match lenient_key afterSpace with
                       | Some (key, rest) =>
                           match skip_ws rest with
                           | EmptyString =>
                               Some (JObj (Js.set_field key JNull acc),
                                     EmptyString)
                           | String ":" rest1 =>
                               match skip_ws rest1 with
                               | EmptyString =>
                                   Some (JObj (Js.set_field key JNull acc),
                                         EmptyString)
                               | _ =>
                                   match lenient_value fuel' rest1 with
                                   | Some (v, rest2) =>
                                       match skip_ws rest2 with
                                       | EmptyString =>
                                           Some (JObj (Js.set_field key v acc),
                                                 EmptyString)
                                       | String "," rest3 =>
                                           members n' rest3
                                             (Js.set_field key v acc)
                                       | String "}" rest3 =>
                                           Some (JObj (Js.set_field key v acc),
                                                 rest3)
                                       | _ => None
                                       end
                                   | None => None
                                   end
                               end
                           | _ => None
                           end
                       | None => None
                       end
                   end
               end) fuel' r []
          else if String.prefix "true" (String c r)
          then literal "true" (JBool true) (String c r)
          else if String.prefix "false" (String c r)
          then literal "false" (JBool false) (String c r)
          else if String.prefix "null" (String c r)
          then literal "null" JNull (String c r)
          else
            match parse_integer (String c r) with
            | Some (n, rest) => Some (JNum n, rest)
            | None => None
            end
      end
  end.

(** [jsonrepair(text)] *)
Definition repair (text : string) : Outcome string :=
  match lenient_value (S (String.length text)) text with
  | Some (v, rest) =>
      match skip_ws rest with
      | EmptyString => Returns (stringify v)
      | _ => Throws "JSONRepairError: Unexpected character"
      end
  | None => Throws "JSONRepairError: Object key expected"
  end.

(** [Number(s)] on decimal integers; the empty string is [0]. *)
Definition number_of_string (s : string) : option Z :=
  match Js.trim s with
  | EmptyString => Some 0%Z
  | t =>
      match parse_integer t with
      | Some (n, EmptyString) => Some n
      | _ => None
      end
  end.

(** [parseInt(s, 10)] *)
Definition parse_int (s : string) : option Z :=
  match parse_integer (Js.trimStart s) with
  | Some (n, _) => Some n
  | None => None
  end.

Definition lib : JsonLib := {|
  JSON_parse := parse;
  JSON_stringify := stringify;
  jsonrepair := repair;
  toNumber := number_of_string;
  parseInt10 := parse_int
|}.

(** The text [{"path": "/src"}] and its three fragments [{"pat], [h": "]
    and [/src"}]. *)
Definition fragment1 : string := "{" +:+ String DQ "pat".
Definition fragment2 : string := "h" +:+ String DQ (": " +:+ String DQ "").
Definition fragment3 : string := "/src" +:+ String DQ "}".
Definition pathArgumentsText : string := fragment1 +:+ fragment2 +:+ fragment3.
Definition pathArguments : json := JObj [("path", JStr "/src")].

(** The text [{"path": "/src"] that lost its closing brace, and the text
    [{:2}], which has no key where one is expected. *)
Definition unclosedText : string :=
  "{" +:+ quoted "path" +:+ ": " +:+ quoted "/src".
Definition keylessText : string := "{:2}".

(** The text [{"x":5}]. *)
Definition xFiveText : string := "{" +:+ quoted "x" +:+ ":5}".
Definition xFive : json := JObj [("x", JNum 5)].

End ReferenceJson.

(** ** Concrete conversations used in the examples *)

Module Scenarios.
Import OpenAI.

Definition call (id name arguments : string) : ToolCall :=
  {| tc_id := id; tc_type := "function"; tc_name := name;
     tc_arguments := arguments |}.

Definition assistantMessage (c : MessageContent)
    (calls : option (list ToolCall)) : Message :=
  {| role := assistant; content := c; tool_calls := calls;
     tool_call_id := None; reasoning_details := None;
     reasoning_content := None |}.

Definition toolMessage (id result : string) : Message :=
  {| role := tool; content := ContentText result; tool_calls := None;
     tool_call_id := Some id; reasoning_details := None;
     reasoning_content := None |}.

Definition userMessage (t : string) : Message :=
  {| role := user; content := ContentText t; tool_calls := None;
     tool_call_id := None; reasoning_details := None;
     reasoning_content := None |}.

(** An assistant message calling ["call_1"], with text, and no result. *)
Definition orphanWithText : list Message :=
  [ userMessage "list the files";
    assistantMessage (ContentText "Let me look.")
      (Some [call "call_1" "ls" "{}"]) ].

(** The same call on a message without text. *)
Definition orphanWithoutText : list Message :=
  [ userMessage "list the files";
    assistantMessage ContentNull (Some [call "call_1" "ls" "{}"]) ].


(** Two results whose [functionResponse] had no id: [convertToOpenAIFormat]
    gives them the id [''].  No message carries a tool call. *)
Definition resultsWithoutId : list Message :=
  [ userMessage "list the files";
    toolMessage "" "a.txt";
    toolMessage "" "b.txt" ].

(** A history in the canonical format whose function call and function
    response carry no id, as the [id] field is optional there: the user
    asks, the model calls [ls], the user turn answers with the result. *)
Definition historyWithoutIds : GenerateContentParameters :=
  {| contents :=
       ContentsArray
         [ ContentObject "user"
             (Some [PartObject
                      {| text := Some "list the files"; thought := false;
                         functionCall := None; functionResponse := None;
                         thoughtSignature := None |}]);
           ContentObject "model"
             (Some [PartObject
                      {| text := None; thought := false;
                         functionCall :=
                           Some {| fc_id := None; fc_name := Some "ls";
                                   fc_args := Some (JObj []) |};
                         functionResponse := None;
                         thoughtSignature := None |}]);
           ContentObject "user"
             (Some [PartObject
                      {| text := None; thought := false;
                         functionCall := None;
                         functionResponse :=
                           Some {| fr_id := None; fr_name := Some "ls";
                                   fr_response := JStr "a.txt" |};
                         thoughtSignature := None |}]) ];
     config := None |}.


(** Two assistant turns in a row, a dangling call and a duplicate result. *)
Definition untidy : list Message :=
  [ userMessage "list the files";
    assistantMessage (ContentText "Looking.")
      (Some [call "call_1" "ls" "{}"; call "call_2" "pwd" "{}"]);
    assistantMessage (ContentText " Done.") None;
    toolMessage "call_1" "a.txt";
    toolMessage "call_1" "a.txt";
    toolMessage "call_9" "stale" ].


(** A tool schema in the canonical dialect, with a nullable union type, a
    [null] type and an array of [null] only:
    [{type: "OBJECT", properties: {path: {type: ["STRING", "null"]},
      depth: {type: null, minimum: "0"},
      tags: {type: "ARRAY", items: {type: ["null"]}}}}]. *)
Definition nullableSchemaFields : list (string * json) :=
  [ ("type", JStr "OBJECT");
    ("properties",
     JObj [ ("path", JObj [("type", JArr [JStr "STRING"; JStr "null"])]);
            ("depth", JObj [("type", JNull); ("minimum", JStr "0")]);
            ("tags", JObj [("type", JStr "ARRAY");
                           ("items", JObj [("type", JArr [JStr "null"])])]) ]) ].

Definition nullableSchema : json := JObj nullableSchemaFields.

(** The same schema with the root type already in lower case, as the first
    Bedrock adapter wants it. *)
Definition nullableSchemaLowerRoot : list (string * json) :=
  Js.set_field "type" (JStr "object") nullableSchemaFields.


(** A tool with a parameter that is itself called [type]:
    [{type: "OBJECT", properties: {type: {type: ["STRING", "null"]}}}]. *)
Definition parameterNamedType : json :=
  JObj [ ("type", JStr "OBJECT");
         ("properties",
          JObj [("type", JObj [("type", JArr [JStr "STRING"; JStr "null"])])]) ].


(** *** Streams *)

(** A Bedrock stream: a text delta, then a tool-use block whose arguments
    arrive in three fragments, then the block stop. *)
Definition bedrockToolStream (toolName : option string)
  : list BedrockEvents.Event :=
  [ BedrockEvents.contentBlockDelta (Some 0)
      (Some (BedrockEvents.DeltaText "Let me look."));
    BedrockEvents.contentBlockStart (Some 1)
      (Some {| BedrockEvents.toolUseId := Some "tooluse_1";
               BedrockEvents.name := toolName |});
    BedrockEvents.contentBlockDelta (Some 1)
      (Some (BedrockEvents.DeltaToolUse (Some ReferenceJson.fragment1)));
    BedrockEvents.contentBlockDelta (Some 1)
      (Some (BedrockEvents.DeltaToolUse (Some ReferenceJson.fragment2)));
    BedrockEvents.contentBlockDelta (Some 1)
      (Some (BedrockEvents.DeltaToolUse (Some ReferenceJson.fragment3)));
    BedrockEvents.contentBlockStop (Some 1) ].

(** The three fragment deltas alone. *)
Definition bedrockFragments : list BedrockEvents.Event :=
  [ BedrockEvents.contentBlockDelta (Some 1)
      (Some (BedrockEvents.DeltaToolUse (Some ReferenceJson.fragment1)));
    BedrockEvents.contentBlockDelta (Some 1)
      (Some (BedrockEvents.DeltaToolUse (Some ReferenceJson.fragment2)));
    BedrockEvents.contentBlockDelta (Some 1)
      (Some (BedrockEvents.DeltaToolUse (Some ReferenceJson.fragment3))) ].

(** A tool-use block whose single fragment is [buffer], followed by a
    text delta. *)
Definition bedrockBufferStream (buffer : string) : list BedrockEvents.Event :=
  [ BedrockEvents.contentBlockStart (Some 0)
      (Some {| BedrockEvents.toolUseId := Some "tooluse_1";
               BedrockEvents.name := Some "list_directory" |});
    BedrockEvents.contentBlockDelta (Some 0)
      (Some (BedrockEvents.DeltaToolUse (Some buffer)));
    BedrockEvents.contentBlockStop (Some 0);
    BedrockEvents.contentBlockDelta (Some 1)
      (Some (BedrockEvents.DeltaText "Done.")) ].

(** The buffer [{:2}] is not JSON and cannot be repaired. *)
Definition bedrockBrokenStream : list BedrockEvents.Event :=
  bedrockBufferStream ReferenceJson.keylessText.

(** The buffer [{"path": "/src"] is not JSON and can be repaired. *)
Definition bedrockUnclosedStream : list BedrockEvents.Event :=
  bedrockBufferStream ReferenceJson.unclosedText.

Definition toolDelta (id name : option string) (arguments : string)
  : OpenAIResponses.ToolCallDelta :=
  {| OpenAIResponses.tcd_index := Some 0;
     OpenAIResponses.tcd_id := id;
     OpenAIResponses.tcd_name := name;
     OpenAIResponses.tcd_arguments := Some arguments;
     OpenAIResponses.tcd_thought_signature := None;
     OpenAIResponses.tcd_function_thought_signature := None |}.

Definition chunkOf (text : option string)
    (deltas : option (list OpenAIResponses.ToolCallDelta))
    (finish : option string) : OpenAIResponses.Chunk :=
  {| OpenAIResponses.choice0 :=
       Some {| OpenAIResponses.delta_content := text;
               OpenAIResponses.delta_tool_calls := deltas;
               OpenAIResponses.delta_reasoning_details := None;
               OpenAIResponses.choice_reasoning_details := None;
               OpenAIResponses.finish_reason := finish |};
     OpenAIResponses.chunk_reasoning_details := None;
     OpenAIResponses.chunk_usage := None |}.

(** The chunks of an OpenAI stream before its finish reason: a text delta
    and the three fragments of a call to [toolName]. *)
Definition openaiToolChunks (toolName : string)
  : list OpenAIResponses.Chunk :=
  [ chunkOf (Some "Let me look.") None None;
    chunkOf None
      (Some [toolDelta (Some "call_1") (Some toolName) ReferenceJson.fragment1])
      None;
    chunkOf None (Some [toolDelta None None ReferenceJson.fragment2]) None;
    chunkOf None (Some [toolDelta None None ReferenceJson.fragment3]) None ].

(** The chunk that ends such a stream. *)
Definition openaiFinish : OpenAIResponses.Chunk :=
  chunkOf None None (Some "tool_calls").

(** A stream whose only tool call has the buffer [buffer]. *)
Definition openaiBufferChunks (buffer : string)
  : list OpenAIResponses.Chunk :=
  [ chunkOf None
      (Some [toolDelta (Some "call_1") (Some "list_directory") buffer])
      None ].

(** A stream that calls the schema tool with [{"x":5}] in one fragment. *)
Definition schemaToolChunks : list OpenAIResponses.Chunk :=
  [ chunkOf None
      (Some [toolDelta (Some "call_1") (Some "respond_in_schema")
               ReferenceJson.xFiveText])
      None ].

Definition emptyState : OpenAIResponses.State :=
  {| OpenAIResponses.streamingToolCalls := [];
     OpenAIResponses.streamingReasoningDetails := None |}.

Definition bedrockStart : Bedrock.State :=
  {| Bedrock.streamingToolCalls := [];
     Bedrock.inputTokensSeen := 0; Bedrock.outputTokensSeen := 0 |}.


(** *** A JSON-schema request *)

(** The response schema [{type: "object", properties: {x: {type: "integer"}}}]. *)
Definition xSchema : json :=
  JObj [ ("type", JStr "object");
         ("properties", JObj [("x", JObj [("type", JStr "integer")])]) ].

Definition jsonSchemaRequest : GenerateContentParameters :=
  {| contents := ContentsArray [ContentString "Give me x."];
     config :=
       Some {| systemInstruction := None;
               tools := Some [{| functionDeclarations :=
                                   Some [{| fd_name := Some "ls";
                                            fd_description := Some "list";
                                            fd_parameters := None |}] |}];
               responseJsonSchema := Some xSchema;
               responseMimeType := Some "application/json";
               temperature := None; topP := None;
               maxOutputTokens := None |} |}.

(** A completion that calls the schema tool with [{"x":5}]. *)
Definition schemaToolCompletion : OpenAIResponses.ChatCompletion :=
  {| OpenAIResponses.choices :=
       [{| OpenAIResponses.message_content := None;
           OpenAIResponses.message_tool_calls :=
             Some [{| OpenAIResponses.rtc_id := Some "call_1";
                      OpenAIResponses.rtc_type := "function";
                      OpenAIResponses.rtc_function :=
                        Some {| OpenAIResponses.rf_name := "respond_in_schema";
                                OpenAIResponses.rf_arguments :=
                                  ReferenceJson.xFiveText;
                                OpenAIResponses.rf_thought_signature := None |};
                      OpenAIResponses.rtc_thought_signature := None;
                      OpenAIResponses.rtc_thoughtSignature := None |}];
           OpenAIResponses.message_reasoning_details := None;
           OpenAIResponses.completion_finish_reason := Some "tool_calls" |}];
     OpenAIResponses.completion_usage := None |}.

(** A completion without choices. *)
Definition emptyCompletion : OpenAIResponses.ChatCompletion :=
  {| OpenAIResponses.choices := []; OpenAIResponses.completion_usage := None |}.


(** *** A model turn with internal reasoning *)

Definition textPart (t : string) (isThought : bool) : PartUnion :=
  PartObject {| text := Some t; thought := isThought; functionCall := None;
                functionResponse := None; thoughtSignature := None |}.

(** A reasoning part followed by the visible answer. *)
Definition turnWithThought : list PartUnion :=
  [ textPart "The user wants the file list; I should call ls." true;
    textPart "Here are the files." false ].

(** An Anthropic adapter whose SDK call always answers with one text block. *)
Definition cannedAdapter : Anthropic.Adapter :=
  {| Anthropic.model := "claude-sonnet";
     Anthropic.samplingParams := None;
     Anthropic.now := 1700;
     Anthropic.messages_create :=
       fun _ =>
         Returns {| Anthropic.response_content := [Anthropic.ResponseText "Hi."];
                    Anthropic.stop_reason := Some "end_turn";
                    Anthropic.input_tokens := 12;
                    Anthropic.output_tokens := 3 |} |}.

(** An Anthropic adapter whose SDK call always fails. *)
Definition failingAdapter : Anthropic.Adapter :=
  {| Anthropic.model := "claude-sonnet";
     Anthropic.samplingParams := None;
     Anthropic.now := 1700;
     Anthropic.messages_create := fun _ => Throws "529 overloaded" |}.

Definition greeting : GenerateContentParameters :=
  {| contents := ContentsArray [ContentString "Hello"]; config := None |}.

End Scenarios.

(** ** Shapes of conversations, schemas and streams

    Predicates and measures used to state what the converters keep. *)

Module Conversation.
Import OpenAI.
Fixpoint adjacentAssistants (messages : list Message) : bool :=
  match messages with
  | [] => false
  | first :: rest =>
      match rest with
      | second :: _ =>
          bool_decide (role first = assistant)
          && bool_decide (role second = assistant)
      | [] => false
      end
      || adjacentAssistants rest
  end.

(** The messages of a list that are not assistant messages, and the text
    the assistant messages carry as strings, in order. *)
Definition nonAssistants (messages : list Message) : list Message :=
  List.filter (fun m => negb (bool_decide (role m = assistant))) messages.

Definition assistantText (messages : list Message) : string :=
  String.concat ""
    (map contentString
       (List.filter (fun m => bool_decide (role m = assistant)) messages)).

(** The system and user messages of a list, in order. *)
Definition promptMessages (messages : list Message) : list Message :=
  List.filter (fun m => bool_decide (role m = system)
                        || bool_decide (role m = user)) messages.

(** [kept] is what the cleanup may leave of [message]: the same message
    with some of its tool calls, or with none. *)
Definition keptFrom (message kept : Message) : Prop :=
  role kept = role message
  /\ content kept = content message
  /\ tool_call_id kept = tool_call_id message
  /\ reasoning_details kept = reasoning_details message
  /\ forall c, c ∈ default [] (tool_calls kept) ->
               c ∈ default [] (tool_calls message).
End Conversation.

Module SchemaShape.

(** Some object of the tree, at any depth, has the key [key]. *)
Fixpoint mentionsKey (key : string) (j : json) : bool :=
  match j with
  | JArr xs => existsb (mentionsKey key) xs
  | JObj fields =>
      existsb (fun kv => String.eqb (fst kv) key || mentionsKey key (snd kv))
        fields
  | _ => false
  end.



(** What the root checks establish. *)
Definition rootReady (fields : list (string * json)) : Prop :=
  exists t p, Js.get_field "type" fields = Some t /\ Js.truthy t = true
              /\ (forall xs, t <> JArr xs)
              /\ Js.get_field "properties" fields = Some p
              /\ Js.truthy p = true.

(** The shape [sanitizeJsonSchema] gives a schema whose root is not an
    object: the schema becomes the one property [value]. *)
Definition wrappedSchema (schema : json) : json :=
  JObj [ ("type", JStr "object");
         ("properties", JObj [("value", schema)]);
         ("required", JArr [JStr "value"]) ].


(** What [convertTypes] of the Bedrock converter does to one entry. *)
Definition bedrockEntry (kv : string * json) : string * json :=
  (fst kv,
   if String.eqb (fst kv) "type" then Schema.convertTypeValue (snd kv)
   else Schema.convertTypesBedrock (snd kv)).

(** What [convertTypes] of the OpenAI converter does to one entry. *)
Definition openaiEntry {L : JsonLib} (kv : string * json) : string * json :=
  (fst kv,
   if String.eqb (fst kv) "type" then Schema.convertTypeValue (snd kv)
   else if Schema.isNumericBound (fst kv) then Schema.coerceNumber (snd kv)
   else if Schema.isLengthBound (fst kv) then Schema.coerceInteger (snd kv)
   else Schema.convertTypes (snd kv)).

End SchemaShape.

Module StreamShape.

(** The tool-call parts and the texts a list of responses carries, in
    order. *)
Definition callParts (responses : list GenerateContentResponse)
  : list ResponsePart :=
  List.filter isFunctionCallPart (flat_map responseParts responses).

Definition textsOf (responses : list GenerateContentResponse) : list string :=
  omap partText (flat_map responseParts responses).

Import BedrockEvents.

(** The non-empty text deltas of a Bedrock event list, in order. *)
Definition deltaTexts (events : list Event) : list string :=
  flat_map (fun event =>
              match event with
              | contentBlockDelta _ (Some (DeltaText t)) =>
                  if Js.nonempty t then [t] else []
              | _ => []
              end) events.

(** The number of block-stop events. *)
Definition blockStops (events : list Event) : nat :=
  length (List.filter (fun event =>
                         match event with
                         | contentBlockStop _ => true
                         | _ => false
                         end) events).

(** The input and output token counts of the last [metadata] event, or
    [seen] when there is none. *)
Definition tokensSeen (seen : Z * Z) (events : list Event) : Z * Z :=
  foldl (fun acc event =>
           match event with
           | metadata usage =>
               (Usage.or_zero (usage ≫= inputTokens),
                Usage.or_zero (usage ≫= outputTokens))
           | _ => acc
           end) seen events.

End StreamShape.

Module BlockingShape.
Import OpenAIResponses.

(** The completion without the [reasoning_details] of its messages. *)
Definition withoutReasoningDetails (r : ChatCompletion) : ChatCompletion :=
  {| choices :=
       map (fun choice =>
              {| message_content := message_content choice;
                 message_tool_calls := message_tool_calls choice;
                 message_reasoning_details := None;
                 completion_finish_reason := completion_finish_reason choice |})
           (choices r);
     completion_usage := completion_usage r |}.

End BlockingShape.

Module AnthropicShape.
Import Anthropic.

(** Two messages of the same role stand side by side somewhere. *)
Fixpoint adjacentSameRole (messages : list MessageParam) : bool :=
  match messages with
  | [] => false
  | first :: rest =>
      match rest with
      | second :: _ => String.eqb (role first) (role second)
      | [] => false
      end
      || adjacentSameRole rest
  end.

(** [n] roles in turn, beginning with the user's when [userFirst]. *)
Fixpoint alternatingRoles (userFirst : bool) (n : nat) : list string :=
  match n with
  | O => []
  | S n' =>
      (if userFirst then "user" else "assistant")
      :: alternatingRoles (negb userFirst) n'
  end.

End AnthropicShape.

Module Text.

(** No character of [s] is a line feed. *)
Fixpoint singleLine (s : string) : bool :=
  match s with
  | EmptyString => true
  | String c r => negb (Ascii.eqb c Js.LF) && singleLine r
  end.

End Text.

Module OpenAIErrors.

(** A value caught by [catch (error)]: an [Error] instance with its
    message and the [code] and [type] properties a client library may add,
    or any other value. *)
Inductive Thrown : Type :=
| ErrorInstance (message : string) (code type : option json)
| OtherValue (v : json).

Section WithNumberFormat.

(** [String(n)] for a number [n]. *)
Variable numberToString : Z -> string.

(** [String(v)]; an array joins its elements with commas, [null] elements
    as empty strings. *)
Fixpoint toStringValue (v : json) : string :=
  match v with
  | JNull => "null"
  | JBool true => "true"
  | JBool false => "false"
  | JNum n => numberToString n
  | JStr s => s
  | JArr xs =>
      String.concat ","
        (map (fun x => match x with JNull => "" | _ => toStringValue x end) xs)
  | JObj _ => "[object Object]"
  end.

End WithNumberFormat.

(** [(error as any)?.key] *)
Definition property (key : string) (error : Thrown) : option json :=
  match error with
  | ErrorInstance _ code type =>
      if String.eqb key "code" then code
      else if String.eqb key "type" then type else None
  | OtherValue (JObj fields) => Js.get_field key fields
  | OtherValue _ => None
  end.

(** [value === 'literal'] *)
Definition isString (literal : string) (value : option json) : bool :=
  match value with
  | Some (JStr s) => String.eqb s literal
  | _ => false
  end.

(** [!error] *)
Definition isFalsy (error : Thrown) : bool :=
  match error with
  | ErrorInstance _ _ _ => false
  | OtherValue v => negb (Js.truthy v)
  end.

(** [error instanceof Error ? error.message.toLowerCase()
                            : String(error).toLowerCase()] *)
Definition errorMessageOf (numberToString : Z -> string) (error : Thrown)
  : string :=
  match error with
  | ErrorInstance message _ _ => Js.toLowerCase message
  | OtherValue v => Js.toLowerCase (toStringValue numberToString v)
  end.

(** [isTimeoutError(error)] *)
Definition isTimeoutError (numberToString : Z -> string) (error : Thrown)
  : bool :=
  if isFalsy error then false
  else
    let errorMessage := errorMessageOf numberToString error in
    let errorCode := property "code" error in
    let errorType := property "type" error in
    Js.includes "timeout" errorMessage
    || Js.includes "timed out" errorMessage
    || Js.includes "connection timeout" errorMessage
    || Js.includes "request timeout" errorMessage
    || Js.includes "read timeout" errorMessage
    || Js.includes "etimedout" errorMessage
    || Js.includes "esockettimedout" errorMessage
    || isString "ETIMEDOUT" errorCode
    || isString "ESOCKETTIMEDOUT" errorCode
    || isString "timeout" errorType
    || Js.includes "request timed out" errorMessage
    || Js.includes "deadline exceeded" errorMessage.

(** The tests of [isTimeoutError] that decide its result. *)
Definition decidingTests (numberToString : Z -> string) (error : Thrown)
  : bool :=
  let errorMessage := errorMessageOf numberToString error in
  negb (isFalsy error)
  && (Js.includes "timeout" errorMessage
      || Js.includes "timed out" errorMessage
      || Js.includes "etimedout" errorMessage
      || Js.includes "esockettimedout" errorMessage
      || isString "ETIMEDOUT" (property "code" error)
      || isString "ESOCKETTIMEDOUT" (property "code" error)
      || isString "timeout" (property "type" error)
      || Js.includes "deadline exceeded" errorMessage).

End OpenAIErrors.

Module Models.

Definition DEFAULT_BEDROCK_MODEL : string :=
  "anthropic.claude-sonnet-4-5-20250929-v1:0".

(** [BEDROCK_MODEL_REGIONS] *)
Definition BEDROCK_MODEL_REGIONS : list (string * list string) :=
  [ ("anthropic.claude-opus-4-5-20251101-v1:0",
     ["us-east-1"; "us-west-2"; "eu-west-1"; "eu-central-1";
      "ap-southeast-1"; "ap-northeast-1"]);
    ("anthropic.claude-sonnet-4-5-20250929-v1:0",
     ["us-east-1"; "us-west-2"; "eu-west-1"; "eu-central-1";
      "ap-southeast-1"; "ap-northeast-1"]);
    ("anthropic.claude-haiku-4-5-20251001-v1:0",
     ["us-east-1"; "us-west-2"; "eu-west-1"; "eu-central-1";
      "ap-southeast-1"; "ap-northeast-1"]);
    ("anthropic.claude-sonnet-4-20250514-v1:0",
     ["us-east-1"; "us-west-2"; "eu-west-1"; "ap-southeast-1"]);
    ("anthropic.claude-3-7-sonnet-20250219-v1:0",
     ["us-east-1"; "us-west-2"; "eu-west-1"; "ap-southeast-1"]);
    ("anthropic.claude-3-5-sonnet-20241022-v2:0",
     ["us-east-1"; "us-west-2"; "eu-west-1"; "eu-central-1";
      "ap-southeast-1"; "ap-northeast-1"]);
    ("anthropic.claude-3-5-sonnet-20240620-v1:0",
     ["us-east-1"; "us-west-2"; "eu-west-1"; "ap-southeast-1"]);
    ("anthropic.claude-3-opus-20240229-v1:0", ["us-east-1"; "us-west-2"]);
    ("anthropic.claude-3-sonnet-20240229-v1:0",
     ["us-east-1"; "us-west-2"; "eu-west-1"; "ap-southeast-1"]);
    ("anthropic.claude-3-sonnet-20240229-v1:0:28k",
     ["us-east-1"; "us-west-2"; "ap-southeast-1"]);
    ("anthropic.claude-3-sonnet-20240229-v1:0:200k",
     ["us-east-1"; "us-west-2"; "ap-southeast-1"]);
    ("anthropic.claude-3-haiku-20240307-v1:0",
     ["us-east-1"; "us-west-2"; "eu-west-1"; "ap-southeast-1";
      "ap-northeast-1"]) ].

(** The object [validateBedrockModelRegion] returns; an absent field is
    [None]. *)
Record Validation : Type := {
  valid : bool;
  message : option string;
  suggestions : option (list string)
}.

Definition NL : string := String Js.LF EmptyString.

(** [modelRegions.map((r) => `  - ${r}`).join('\n')] *)
Definition regionLines (modelRegions : list string) : string :=
  Js.join_lines (map (fun r => "  - " +:+ r) modelRegions).

(** [modelRegions.includes(region)] *)
Definition listed (region : string) (modelRegions : list string) : bool :=
  existsb (String.eqb region) modelRegions.

(** [validateBedrockModelRegion(model, region)].  The table is an object
    literal read with [BEDROCK_MODEL_REGIONS[model]]: a model name that is a
    member of [Object.prototype] finds that member, which is truthy and has
    no [includes] method, so the call of [includes] throws. *)
Definition validateBedrockModelRegion (model region : string)
  : Outcome Validation :=
  match Js.get_field model BEDROCK_MODEL_REGIONS with
  | Some modelRegions =>
      if negb (listed region modelRegions) then
        Returns
          {| valid := false;
             message :=
               Some ("Model " +:+ model +:+ " is not available in region "
                     +:+ region +:+ "." +:+ NL +:+ NL
                     +:+ "Available regions for this model:" +:+ NL
                     +:+ regionLines modelRegions
                     +:+ NL +:+ NL +:+ "Solutions:" +:+ NL
                     +:+ "  1. Switch to a supported region:" +:+ NL
                     +:+ "     export AWS_REGION="
                     +:+ String (ascii_of_nat 34) EmptyString
                     +:+ default "undefined" (head modelRegions)
                     +:+ String (ascii_of_nat 34) EmptyString +:+ NL +:+ NL
                     +:+ "  2. List models available in " +:+ region +:+ ":"
                     +:+ NL
                     +:+ "     aws bedrock list-foundation-models --region "
                     +:+ region +:+ " --by-provider Anthropic");
             suggestions := Some modelRegions |}
      else Returns {| valid := true; message := None; suggestions := None |}
  | None =>
      if Js.inherited model
      then Throws "TypeError: modelRegions.includes is not a function"
      else
        Returns
          {| valid := true;
             message :=
               Some ("Warning: Model " +:+ model
                     +:+ " not in known model list. "
                     +:+ "It may work if it's a newly released model.");
             suggestions := None |}
  end.

(** [isBedrockModel(model)] *)
Definition isBedrockModel (model : string) : bool :=
  Js.startsWith "anthropic." model
  || Js.startsWith "amazon." model
  || Js.startsWith "meta." model
  || Js.startsWith "mistral." model.

End Models.

Module BedrockShape.
Import BedrockConvert.

Definition isText (block : ContentBlock) : bool :=
  match block with TextBlock _ => true | _ => false end.

Definition isToolUse (block : ContentBlock) : bool :=
  match block with ToolUseBlock _ _ _ => true | _ => false end.

Definition isToolResult (block : ContentBlock) : bool :=
  match block with ToolResultBlock _ _ => true | _ => false end.

(** The function responses among the parts the loop of [convertContent]
    reaches the [functionResponse] test with. *)
Definition answersIn (parts : list PartUnion) : list FunctionResponse :=
  omap (fun part =>
          match part with
          | PartObject p =>
              if Js.truthy_str (text p) && negb (thought p) then None
              else match functionCall p with
                   | Some _ => None
                   | None => functionResponse p
                   end
          | PartString _ => None
          end) parts.

End BedrockShape.

Module ToolShape.

(** The function declarations of a tool list, in the order the loops of
    the tool converters visit them. *)
Definition declarationsOf (geminiTools : list Tool)
  : list FunctionDeclaration :=
  flat_map (fun actualTool => default [] (functionDeclarations actualTool))
           geminiTools.

(** [func.name] is truthy. *)
Definition named (func : FunctionDeclaration) : bool :=
  Js.truthy_str (fd_name func).

(** [func.name && func.description] is truthy. *)
Definition described (func : FunctionDeclaration) : bool :=
  Js.truthy_str (fd_name func) && Js.truthy_str (fd_description func).

Definition nameOf (func : FunctionDeclaration) : string :=
  Js.str_or (fd_name func) "".

End ToolShape.

Module MoreScenarios.

(** A configuration whose system instruction is a [Content] with a bare
    string among its parts, and a request that carries it. *)
Definition stringSystemConfig : GenerateContentConfig :=
  {| systemInstruction :=
       Some (SystemContent (Some [PartString "Be brief."]));
     tools := None;
     responseJsonSchema := None;
     responseMimeType := None;
     temperature := None;
     topP := None;
     maxOutputTokens := None |}.

Definition stringSystemPart : GenerateContentParameters :=
  {| contents := ContentsArray [ContentString "Hello"];
     config := Some stringSystemConfig |}.

(** The response the canned Anthropic adapter's answer converts to. *)
Definition cannedResponse : GenerateContentResponse :=
  {| candidate := Some ([TextPart "Hi."], OwnValue STOP);
     usageMetadata :=
       Some {| Usage.promptTokenCount := 12;
               Usage.candidatesTokenCount := 3;
               Usage.totalTokenCount := 15;
               Usage.cachedContentTokenCount := None |} |}.

(** A model turn with two function calls that carry no id. *)
Definition callPart (callName : string) : PartUnion :=
  PartObject {| text := None; thought := false;
                functionCall :=
                  Some {| fc_id := None; fc_name := Some callName;
                          fc_args := Some (JObj []) |};
                functionResponse := None; thoughtSignature := None |}.

Definition twoCallsWithoutId : list PartUnion :=
  [callPart "list_directory"; callPart "read_file"].

Definition twoCalls : list OpenAI.ToolCall :=
  [ {| OpenAI.tc_id := "call_0"; OpenAI.tc_type := "function";
       OpenAI.tc_name := "list_directory"; OpenAI.tc_arguments := "{}" |};
    {| OpenAI.tc_id := "call_1"; OpenAI.tc_type := "function";
       OpenAI.tc_name := "read_file"; OpenAI.tc_arguments := "{}" |} ].

Definition twoCallsMessage : OpenAI.Message :=
  {| OpenAI.role := OpenAI.assistant;
     OpenAI.content := OpenAI.ContentNull;
     OpenAI.tool_calls := Some twoCalls;
     OpenAI.tool_call_id := None;
     OpenAI.reasoning_details := None;
     OpenAI.reasoning_content := None |}.

End MoreScenarios.
(** * Properties *)

(** ** JavaScript helpers *)

Module JsFacts.
Import Js.



Lemma nonempty_true s : nonempty s = true <-> s <> "".
Proof.
  unfold nonempty. destruct (String.eqb_spec s ""); simpl; split; congruence.
Qed.

Lemma nonempty_false s : nonempty s = false <-> s = "".
Proof.
  unfold nonempty. destruct (String.eqb_spec s ""); simpl; split; congruence.
Qed.

Lemma append_empty_r s : s +:+ "" = s.
Proof.
  induction s as [|c s IH]; [reflexivity|].
  change (String c (s +:+ "") = String c s). now rewrite IH.
Qed.

Lemma append_assoc s1 s2 s3 : (s1 +:+ s2) +:+ s3 = s1 +:+ (s2 +:+ s3).
Proof.
  induction s1 as [|c s1 IH]; [reflexivity|].
  change (String c ((s1 +:+ s2) +:+ s3) = String c (s1 +:+ (s2 +:+ s3))).
  now rewrite IH.
Qed.

End JsFacts.

(** ** Insertion-ordered maps *)

Module JsMapFacts.
Import JsMap.

Lemma get_set_eq {V} k (v : V) m : get k (set k v m) = Some v.
Proof.
  induction m as [|[k' v'] m IH]; simpl.
  - now rewrite Nat.eqb_refl.
  - destruct (Nat.eqb_spec k k'); simpl.
    + now rewrite Nat.eqb_refl.
    + destruct (Nat.eqb_spec k k'); [contradiction|exact IH].
Qed.

Lemma get_set_ne {V} k k' (v : V) m :
  k <> k' -> get k' (set k v m) = get k' m.
Proof.
  intros Hne. induction m as [|[k0 v0] m IH]; simpl.
  - destruct (Nat.eqb_spec k' k); [congruence|reflexivity].
  - destruct (Nat.eqb_spec k k0) as [->|]; simpl.
    + destruct (Nat.eqb_spec k' k0); [congruence|reflexivity].
    + destruct (Nat.eqb_spec k' k0); [reflexivity|exact IH].
Qed.

Lemma get_delete_eq {V} k (m : t V) : get k (delete k m) = None.
Proof.
  induction m as [|[k' v'] m IH]; simpl; [reflexivity|].
  destruct (Nat.eqb_spec k k'); [exact IH|]. simpl.
  destruct (Nat.eqb_spec k k'); [contradiction|exact IH].
Qed.

Lemma get_delete_ne {V} k k' (m : t V) :
  k <> k' -> get k' (delete k m) = get k' m.
Proof.
  intros Hne. induction m as [|[k0 v0] m IH]; simpl; [reflexivity|].
  destruct (Nat.eqb_spec k k0) as [->|]; simpl.
  - destruct (Nat.eqb_spec k' k0); [congruence|exact IH].
  - destruct (Nat.eqb_spec k' k0); [reflexivity|exact IH].
Qed.

(** [set] keeps the keys distinct. *)
Lemma set_keys_NoDup {V} k (v : V) m :
  NoDup (map fst m) -> NoDup (map fst (set k v m)).
Proof.
  induction m as [|[k' v'] m IH]; simpl; intros Hnd.
  - constructor; [apply not_elem_of_nil|constructor].
  - apply NoDup_cons in Hnd as [Hk' Hnd].
    destruct (Nat.eqb_spec k k') as [->|Hne]; simpl.
    + now constructor.
    + constructor; [|now apply IH].
      intros Hin. apply Hk'. clear IH Hk' Hnd.
      induction m as [|[k0 v0] m IHm]; simpl in *.
      * apply list_elem_of_singleton in Hin. congruence.
      * destruct (Nat.eqb_spec k k0) as [->|]; simpl in *.
        -- exact Hin.
        -- apply elem_of_cons in Hin as [->|Hin];
             apply elem_of_cons; [now left|right; now apply IHm].
Qed.

(** With distinct keys, the entry read at [k] is the only one for [k]. *)
Lemma get_split {V} k (v : V) m :
  NoDup (map fst m) -> get k m = Some v ->
  exists before after,
    m = before ++ (k, v) :: after /\ (k ∉ map fst (before ++ after)).
Proof.
  induction m as [|[k' v'] m IH]; simpl; [discriminate|].
  intros Hnd Hget. apply NoDup_cons in Hnd as [Hk' Hnd].
  destruct (Nat.eqb_spec k k') as [->|Hne].
  - injection Hget as ->. exists [], m. now split.
  - destruct (IH Hnd Hget) as (before & after & -> & Hk).
    exists ((k', v') :: before), after. split; [reflexivity|].
    simpl. rewrite elem_of_cons. intros [?|?]; [congruence|contradiction].
Qed.

(** With distinct keys, an entry of the map is what a read at its key
    finds. *)
Lemma elem_get {V} k (v : V) m :
  NoDup (map fst m) -> (k, v) ∈ m -> get k m = Some v.
Proof.
  induction m as [|[k' v'] m IH]; simpl; intros Hnd Hin.
  - now apply elem_of_nil in Hin.
  - apply NoDup_cons in Hnd as [Hk' Hnd].
    apply elem_of_cons in Hin as [Heq|Hin].
    + injection Heq as -> ->. now rewrite Nat.eqb_refl.
    + destruct (Nat.eqb_spec k k') as [->|Hne]; [|now apply IH].
      destruct Hk'. apply list_elem_of_fmap. now exists (k', v).
Qed.

Lemma get_elem {V} k (v : V) m : get k m = Some v -> (k, v) ∈ m.
Proof.
  induction m as [|[k' v'] m IH]; simpl; [discriminate|].
  destruct (Nat.eqb_spec k k') as [->|Hne].
  - intros H. injection H as ->. apply elem_of_cons. now left.
  - intros H. apply elem_of_cons. right. now apply IH.
Qed.

End JsMapFacts.

(** ** Finish-reason mapping *)

Module FinishFacts.

(** The documented OpenAI vocabulary. *)
Lemma mapFinishReason_table :
  OpenAIFinish.mapFinishReason (Some "stop") = OwnValue STOP
  /\ OpenAIFinish.mapFinishReason (Some "length") = OwnValue MAX_TOKENS
  /\ OpenAIFinish.mapFinishReason (Some "content_filter") = OwnValue SAFETY
  /\ OpenAIFinish.mapFinishReason (Some "tool_calls") = OwnValue STOP
  /\ OpenAIFinish.mapFinishReason (Some "function_call") = OwnValue STOP
  /\ OpenAIFinish.mapFinishReason None = OwnValue FINISH_REASON_UNSPECIFIED.
Proof. repeat split; reflexivity. Qed.

(** Away from the names [Object.prototype] defines, the OpenAI mapping is
    total on the enumeration, with [FINISH_REASON_UNSPECIFIED] as default. *)
Lemma mapFinishReason_total_off_prototype (reason : string) :
  Js.inherited reason = false ->
  exists r, OpenAIFinish.mapFinishReason (Some reason) = OwnValue r.
Proof.
  intros Hi. unfold OpenAIFinish.mapFinishReason, OpenAIFinish.mapping_read.
  destruct (Js.nonempty reason); [|eauto].
  destruct (Js.get_field reason OpenAIFinish.mapping); [eauto|].
  rewrite Hi. eauto.
Qed.

(** The Bedrock vocabulary, and the default for everything else. *)
Lemma mapStopReason_table :
  BedrockFinish.mapStopReason (Some "end_turn") = STOP
  /\ BedrockFinish.mapStopReason (Some "stop_sequence") = STOP
  /\ BedrockFinish.mapStopReason (Some "tool_use") = STOP
  /\ BedrockFinish.mapStopReason (Some "max_tokens") = MAX_TOKENS
  /\ BedrockFinish.mapStopReason (Some "content_filtered") = SAFETY
  /\ BedrockFinish.mapStopReason (Some "guardrail_intervened") = SAFETY
  /\ BedrockFinish.mapStopReason (Some "constructor") = FINISH_REASON_UNSPECIFIED
  /\ BedrockFinish.mapStopReason None = FINISH_REASON_UNSPECIFIED.
Proof. repeat split; reflexivity. Qed.

(** C5: the OpenAI mapping does not always return a member of the
    enumeration.  The lookup [mapping[openaiReason]] also finds the members
    the [mapping] literal inherits from [Object.prototype]; they are truthy,
    so the [|| FINISH_REASON_UNSPECIFIED] default is not taken and the
    inherited function is returned for the reason ["constructor"]. *)
Theorem mapFinishReason_returns_inherited_member :
  OpenAIFinish.mapFinishReason (Some "constructor")
  = PrototypeMember "constructor"
  /\ forall r : FinishReason,
      OpenAIFinish.mapFinishReason (Some "constructor") <> OwnValue r.
Proof. split; [reflexivity|discriminate]. Qed.

End FinishFacts.

(** ** Usage normalisation *)

Module UsageFacts.
Import Float Usage.

Example round_45 : Math_round (mul_int 45 lit_0_7) = 31%Z.
Proof. reflexivity. Qed.
Example round_5 : Math_round (mul_int 5 lit_0_7) = 4%Z.
Proof. reflexivity. Qed.
Example round_35 : Math_round (mul_int 35 lit_0_7) = 25%Z.
Proof. reflexivity. Qed.
Example round_100 : (Math_round (mul_int 100 lit_0_7), Math_round (mul_int 100 lit_0_3)) = (70%Z, 30%Z).
Proof. reflexivity. Qed.

Lemma or_zero_absent : or_zero None = 0%Z.
Proof. reflexivity. Qed.

(** C8: a usage record with a positive total and no (or zero) prompt and
    completion counts is normalised to [Math.round(total * 0.7)] and
    [Math.round(total * 0.3)], computed in binary64 as the source does, with
    the total unchanged; a total of 100 gives 70, 30 and 100; and when a
    prompt or completion count is reported, both are passed through. *)
Theorem usage_estimation (usage : OpenAIUsage) :
  totalTokenCount (normalizeUsage usage) = or_zero (total_tokens usage)
  /\ ((0 < or_zero (total_tokens usage))%Z ->
      or_zero (prompt_tokens usage) = 0%Z ->
      or_zero (completion_tokens usage) = 0%Z ->
      promptTokenCount (normalizeUsage usage)
        = Math_round (mul_int (or_zero (total_tokens usage)) lit_0_7)
      /\ candidatesTokenCount (normalizeUsage usage)
        = Math_round (mul_int (or_zero (total_tokens usage)) lit_0_3))
  /\ (total_tokens usage = Some 100%Z ->
      or_zero (prompt_tokens usage) = 0%Z ->
      or_zero (completion_tokens usage) = 0%Z ->
      promptTokenCount (normalizeUsage usage) = 70%Z
      /\ candidatesTokenCount (normalizeUsage usage) = 30%Z
      /\ totalTokenCount (normalizeUsage usage) = 100%Z)
  /\ ((or_zero (prompt_tokens usage) <> 0%Z
       \/ or_zero (completion_tokens usage) <> 0%Z) ->
      promptTokenCount (normalizeUsage usage) = or_zero (prompt_tokens usage)
      /\ candidatesTokenCount (normalizeUsage usage)
        = or_zero (completion_tokens usage)).
Proof.
  unfold normalizeUsage. simpl. split; [reflexivity|]. split; [|split].
  - intros Ht Hp Hc. rewrite Hp, Hc.
    apply Z.ltb_lt in Ht. rewrite Ht. simpl. now split.
  - intros Ht Hp Hc. rewrite Hp, Hc, Ht. simpl. repeat split; reflexivity.
  - intros Hpc.
    assert ((or_zero (prompt_tokens usage) =? 0)%Z
            && (or_zero (completion_tokens usage) =? 0)%Z = false) as E.
    { apply andb_false_iff. destruct Hpc as [H|H]; [left|right];
        now apply Z.eqb_neq. }
    rewrite <- andb_assoc, E, andb_false_r. now split.
Qed.

(** The theorem at the record [{ total_tokens: 100 }] and at a record with
    a reported breakdown. *)
Lemma usage_estimation_witness :
  normalizeUsage {| prompt_tokens := None; completion_tokens := None;
                    total_tokens := Some 100%Z; cached_tokens := None |}
  = {| promptTokenCount := 70; candidatesTokenCount := 30;
       totalTokenCount := 100; cachedContentTokenCount := Some 0%Z |}
  /\ promptTokenCount
       (normalizeUsage {| prompt_tokens := Some 12%Z;
                          completion_tokens := None;
                          total_tokens := Some 100%Z;
                          cached_tokens := None |}) = 12%Z.
Proof.
  split.
  - destruct (usage_estimation
                {| prompt_tokens := None; completion_tokens := None;
                   total_tokens := Some 100%Z; cached_tokens := None |})
      as (_ & _ & H & _).
    destruct H as (Hp & Hc & Ht); [reflexivity..|].
    reflexivity.
  - destruct (usage_estimation
                {| prompt_tokens := Some 12%Z; completion_tokens := None;
                   total_tokens := Some 100%Z; cached_tokens := None |})
      as (_ & _ & _ & H).
    destruct H as [Hp _]; [left; discriminate|]. exact Hp.
Defined.

End UsageFacts.

(** ** The conversation hygiene pass *)

Module HygieneFacts.
Import OpenAI.

Lemma toolResponseId_not_assistant m i :
  toolResponseId m = Some i -> assistantToolCalls m = None.
Proof.
  unfold toolResponseId, assistantToolCalls. destruct (role m); congruence.
Qed.

Lemma toolResponseId_nonempty m i : toolResponseId m = Some i -> i <> "".
Proof.
  unfold toolResponseId. destruct (role m); try discriminate.
  destruct (tool_call_id m) as [j|]; try discriminate.
  destruct (Js.nonempty j) eqn:E; try discriminate.
  intros H. injection H as <-. now apply JsFacts.nonempty_true.
Qed.

Lemma with_tool_calls_same m : with_tool_calls m (tool_calls m) = m.
Proof. now destruct m. Qed.

Lemma assistantToolCalls_with m cs calls :
  assistantToolCalls m = Some cs ->
  assistantToolCalls (with_tool_calls m calls) = calls.
Proof.
  unfold assistantToolCalls. simpl. destruct (role m); congruence.
Qed.

Lemma toolResponseId_with m cs calls :
  assistantToolCalls m = Some cs ->
  toolResponseId (with_tool_calls m calls) = None.
Proof.
  unfold assistantToolCalls, toolResponseId. simpl.
  destruct (role m); congruence.
Qed.

Lemma elem_addToolCallIds calls : forall (ids : gset string) (x : string),
  x ∈ addToolCallIds ids calls <->
  x ∈ ids \/ (x <> "" /\ x ∈ map tc_id calls).
Proof.
  unfold addToolCallIds.
  induction calls as [|c calls IH]; intros ids x; simpl.
  - rewrite elem_of_nil. tauto.
  - rewrite IH, elem_of_cons.
    destruct (Js.nonempty (tc_id c)) eqn:E.
    + apply JsFacts.nonempty_true in E. rewrite elem_of_union, elem_of_singleton.
      split; [intros [[?| ->]|[? ?]]|intros [?|[? [ -> |?]]]]; auto.
    + apply JsFacts.nonempty_false in E.
      split; [intros [?|[? ?]]|intros [?|[? [ -> |?]]]]; auto. congruence.
Qed.

Lemma elem_collectToolCallIds_gen messages : forall (ids : gset string) (x : string),
  x ∈ foldl (fun ids message =>
               match assistantToolCalls message with
               | Some calls => addToolCallIds ids calls
               | None => ids
               end) ids messages <->
  x ∈ ids \/ (x <> "" /\ x ∈ map tc_id (allCalls messages)).
Proof.
  induction messages as [|m ms IH]; intros ids x; simpl.
  - rewrite elem_of_nil. tauto.
  - rewrite IH, map_app, elem_of_app.
    destruct (assistantToolCalls m) as [cs|]; simpl.
    + rewrite elem_addToolCallIds. tauto.
    + rewrite elem_of_nil. tauto.
Qed.

Lemma elem_collectToolCallIds messages x :
  x ∈ collectToolCallIds messages <->
  x <> "" /\ x ∈ map tc_id (allCalls messages).
Proof.
  unfold collectToolCallIds. rewrite elem_collectToolCallIds_gen.
  rewrite elem_of_empty. tauto.
Qed.

Lemma elem_collectToolResponseIds_gen messages : forall (ids : gset string) (x : string),
  x ∈ foldl (fun ids message =>
               match assistantToolCalls message with
               | Some _ => ids
               | None =>
                   match toolResponseId message with
                   | Some i => ids ∪ {[ i ]}
                   | None => ids
                   end
               end) ids messages <->
  x ∈ ids \/ x ∈ responseIdList messages.
Proof.
  unfold responseIdList.
  induction messages as [|m ms IH]; intros ids x; simpl.
  - rewrite elem_of_nil. tauto.
  - rewrite IH. destruct (toolResponseId m) as [i|] eqn:Ei.
    + rewrite (toolResponseId_not_assistant _ _ Ei).
      rewrite elem_of_union, elem_of_singleton, elem_of_cons. tauto.
    + destruct (assistantToolCalls m); tauto.
Qed.

Lemma elem_collectToolResponseIds messages x :
  x ∈ collectToolResponseIds messages <-> x ∈ responseIdList messages.
Proof.
  unfold collectToolResponseIds. rewrite elem_collectToolResponseIds_gen.
  rewrite elem_of_empty. tauto.
Qed.

Lemma filter_all_valid ids (calls : list ToolCall) :
  Forall (validToolCall ids) calls -> filter (validToolCall ids) calls = calls.
Proof.
  induction 1 as [|c cs Hc Hcs IH]; [reflexivity|].
  rewrite filter_cons_True by assumption. now rewrite IH.
Qed.

Lemma keepAssistant_valid ids m calls :
  assistantToolCalls m = Some calls ->
  calls <> [] -> Forall (validToolCall ids) calls ->
  keepAssistant ids m calls = [m].
Proof.
  intros Hm Hne Hall. unfold keepAssistant.
  rewrite filter_all_valid by assumption.
  destruct calls as [|c cs]; [congruence|]. simpl.
  unfold assistantToolCalls in Hm. destruct (role m); try discriminate.
  rewrite <- Hm. now rewrite with_tool_calls_same.
Qed.

Lemma keepAssistant_inv ids m calls m' :
  m' ∈ keepAssistant ids m calls ->
  (filter (validToolCall ids) calls <> []
   /\ m' = with_tool_calls m (Some (filter (validToolCall ids) calls)))
  \/ (filter (validToolCall ids) calls = [] /\ hasTextContent m = true
      /\ m' = with_tool_calls m None).
Proof.
  unfold keepAssistant.
  destruct (filter (validToolCall ids) calls) as [|c cs] eqn:E; simpl.
  - destruct (hasTextContent m); [|now rewrite elem_of_nil].
    rewrite list_elem_of_singleton. intros ->. now right.
  - rewrite list_elem_of_singleton. intros ->. left. split; congruence.
Qed.

Lemma keepAssistant_responseIds ids m calls :
  assistantToolCalls m = Some calls ->
  responseIdList (keepAssistant ids m calls) = [].
Proof.
  intros Hm. unfold keepAssistant, responseIdList.
  destruct (0 <? length _); simpl.
  - now rewrite (toolResponseId_with _ _ _ Hm).
  - destruct (hasTextContent m); simpl; [|reflexivity].
    now rewrite (toolResponseId_with _ _ _ Hm).
Qed.

Lemma responseIdList_app l1 l2 :
  responseIdList (l1 ++ l2) = responseIdList l1 ++ responseIdList l2.
Proof. apply omap_app. Qed.


(** What the second pass keeps, message by message. *)
Lemma secondPass_inv C R ms : forall (a : gset string) m',
  m' ∈ secondPass C R a ms ->
  (exists m calls, m ∈ ms /\ assistantToolCalls m = Some calls
                   /\ m' ∈ keepAssistant R m calls)
  \/ (m' ∈ ms /\ assistantToolCalls m' = None
      /\ forall i, toolResponseId m' = Some i -> i ∈ C /\ i ∉ a).
Proof.
  induction ms as [|m ms IH]; intros a m'; simpl.
  - now rewrite elem_of_nil.
  - destruct (assistantToolCalls m) as [calls|] eqn:Em.
    + rewrite elem_of_app. intros [H|H].
      * left. exists m, calls. rewrite elem_of_cons. auto.
      * destruct (IH _ _ H) as [(m0 & cs & ? & ? & ?)|(? & ? & ?)].
        -- left. exists m0, cs. rewrite elem_of_cons. auto.
        -- right. rewrite elem_of_cons. auto.
    + destruct (toolResponseId m) as [i|] eqn:Ei.
      * destruct (bool_decide (i ∈ C) && negb (bool_decide (i ∈ a))) eqn:Eb.
        -- apply andb_true_iff in Eb as [Eb1 Eb2].
           apply bool_decide_eq_true in Eb1.
           apply negb_true_iff, bool_decide_eq_false in Eb2.
           rewrite elem_of_cons. intros [->|H].
           ++ right. rewrite elem_of_cons. split; [now left|].
              split; [assumption|]. intros j Hj. rewrite Ei in Hj.
              injection Hj as <-. now split.
           ++ destruct (IH _ _ H) as [(m0 & cs & ? & ? & ?)|(? & ? & Hi)].
              ** left. exists m0, cs. rewrite elem_of_cons. auto.
              ** right. rewrite elem_of_cons. split; [now right|].
                 split; [assumption|]. intros j Hj.
                 pose proof (Hi j Hj) as [? Hn]. split; [assumption|].
                 set_solver.
        -- intros H.
           destruct (IH _ _ H) as [(m0 & cs & ? & ? & ?)|(? & ? & ?)].
           ++ left. exists m0, cs. rewrite elem_of_cons. auto.
           ++ right. rewrite elem_of_cons. auto.
      * rewrite elem_of_cons. intros [->|H].
        -- right. rewrite elem_of_cons. split; [now left|].
           split; [assumption|]. intros j Hj. congruence.
        -- destruct (IH _ _ H) as [(m0 & cs & ? & ? & ?)|(? & ? & ?)].
           ++ left. exists m0, cs. rewrite elem_of_cons. auto.
           ++ right. rewrite elem_of_cons. auto.
Qed.

(** Every contribution of an assistant message survives the second pass. *)
Lemma secondPass_keeps_assistant C R ms : forall (a : gset string) m calls m',
  m ∈ ms -> assistantToolCalls m = Some calls ->
  m' ∈ keepAssistant R m calls -> m' ∈ secondPass C R a ms.
Proof.
  induction ms as [|m0 ms IH]; intros a m calls m' Hin Hm Hk.
  - now apply elem_of_nil in Hin.
  - apply elem_of_cons in Hin as [<-|Hin]; simpl.
    + rewrite Hm. apply elem_of_app. now left.
    + destruct (assistantToolCalls m0) eqn:E0.
      * apply elem_of_app. right. eauto.
      * destruct (toolResponseId m0);
          [destruct (_ && _)|]; rewrite ?elem_of_cons; eauto.
Qed.

(** The response ids the second pass keeps: those with a matching call,
    not added before, each once. *)
Lemma secondPass_responseIds_elem C R ms : forall (a : gset string) i,
  i ∈ responseIdList (secondPass C R a ms) <->
  i ∈ responseIdList ms /\ i ∈ C /\ i ∉ a.
Proof.
  induction ms as [|m ms IH]; intros a i; simpl.
  - unfold responseIdList; simpl. rewrite elem_of_nil. tauto.
  - destruct (assistantToolCalls m) as [calls|] eqn:Em.
    + rewrite responseIdList_app, (keepAssistant_responseIds _ _ _ Em).
      simpl. rewrite IH. unfold responseIdList; simpl.
      assert (toolResponseId m = None) as ->; [|tauto].
      destruct (toolResponseId m) eqn:E; [|reflexivity].
      apply toolResponseId_not_assistant in E. congruence.
    + unfold responseIdList at 2; simpl. fold (responseIdList ms).
      destruct (toolResponseId m) as [j|] eqn:Ej.
      * destruct (bool_decide (j ∈ C) && negb (bool_decide (j ∈ a))) eqn:Eb.
        -- apply andb_true_iff in Eb as [Eb1 Eb2].
           apply bool_decide_eq_true in Eb1.
           apply negb_true_iff, bool_decide_eq_false in Eb2.
           unfold responseIdList at 1; simpl. rewrite Ej.
           fold (responseIdList (secondPass C R (a ∪ {[j]}) ms)).
           rewrite !elem_of_cons, IH.
           destruct (decide (i = j)) as [->|Hne]; [tauto|]. set_solver.
        -- rewrite IH, elem_of_cons.
           apply andb_false_iff in Eb as [Eb|Eb].
           ++ apply bool_decide_eq_false in Eb.
              split; [tauto|]. intros ([->|?] & ? & ?); tauto.
           ++ apply negb_false_iff, bool_decide_eq_true in Eb.
              split; [tauto|]. intros ([->|?] & ? & ?); tauto.
      * unfold responseIdList at 1; simpl. rewrite Ej.
        fold (responseIdList (secondPass C R a ms)). apply IH.
Qed.

Lemma secondPass_responseIds_NoDup C R ms : forall (a : gset string),
  NoDup (responseIdList (secondPass C R a ms)).
Proof.
  induction ms as [|m ms IH]; intros a; simpl.
  - constructor.
  - destruct (assistantToolCalls m) as [calls|] eqn:Em.
    + rewrite responseIdList_app, (keepAssistant_responseIds _ _ _ Em).
      apply IH.
    + destruct (toolResponseId m) as [j|] eqn:Ej.
      * destruct (bool_decide (j ∈ C) && negb (bool_decide (j ∈ a))) eqn:Eb;
          [|apply IH].
        unfold responseIdList; simpl. rewrite Ej.
        fold (responseIdList (secondPass C R (a ∪ {[j]}) ms)).
        constructor; [|apply IH].
        rewrite secondPass_responseIds_elem. set_solver.
      * unfold responseIdList; simpl. rewrite Ej. apply IH.
Qed.

(** The final validation pass changes nothing on a list whose calls are
    all answered. *)
Lemma finalPass_id ids l : Forall (callsValid ids) l -> finalPass ids l = l.
Proof.
  unfold finalPass.
  induction 1 as [|m l Hm Hl IH]; simpl; [reflexivity|].
  rewrite IH. destruct (assistantToolCalls m) as [calls|] eqn:Em;
    [|reflexivity].
  destruct (Hm _ Em) as [Hne Hall].
  now rewrite (keepAssistant_valid _ _ _ Em Hne Hall).
Qed.

Lemma filter_valid_elem ids (calls : list ToolCall) c :
  c ∈ filter (validToolCall ids) calls <-> c ∈ calls /\ validToolCall ids c.
Proof. rewrite list_elem_of_filter. tauto. Qed.

Lemma elem_allCalls ms c :
  c ∈ allCalls ms <->
  exists m calls, m ∈ ms /\ assistantToolCalls m = Some calls /\ c ∈ calls.
Proof.
  unfold allCalls. rewrite list_elem_of_In, in_flat_map. split.
  - intros (m & Hm & Hc). apply list_elem_of_In in Hm, Hc.
    destruct (assistantToolCalls m) as [calls|] eqn:E; simpl in Hc.
    + eauto.
    + now apply elem_of_nil in Hc.
  - intros (m & calls & Hm & E & Hc). exists m.
    rewrite <- !list_elem_of_In. rewrite E. auto.
Qed.

(** After the second pass every surviving call is answered by a surviving
    response. *)
Lemma secondPass_callsValid ms :
  let C := collectToolCallIds ms in
  let R := collectToolResponseIds ms in
  Forall (callsValid (collectToolResponseIds (secondPass C R ∅ ms)))
         (secondPass C R ∅ ms).
Proof.
  intros C R. apply Forall_forall. intros m' Hm' calls' Hcalls'.
  destruct (secondPass_inv _ _ _ _ _ Hm')
    as [(m & calls & Hin & Hm & Hk)|(Hin & Hnone & _)]; [|congruence].
  destruct (keepAssistant_inv _ _ _ _ Hk) as [(Hne & ->)|(_ & _ & ->)].
  - rewrite (assistantToolCalls_with _ _ _ Hm) in Hcalls'.
    injection Hcalls' as <-. split; [assumption|].
    apply Forall_forall. intros c Hc.
    apply filter_valid_elem in Hc as (Hc & Hid & HR). split; [assumption|].
    apply elem_collectToolResponseIds, secondPass_responseIds_elem.
    split; [now apply elem_collectToolResponseIds|]. split; [|set_solver].
    apply elem_collectToolCallIds. split; [assumption|].
    apply list_elem_of_fmap. exists c. split; [reflexivity|].
    apply elem_allCalls. eauto.
  - rewrite (assistantToolCalls_with _ _ _ Hm) in Hcalls'. discriminate.
Qed.

(** The final validation pass never removes anything: the result of
    [cleanOrphanedToolCalls] is the result of its second pass. *)
Lemma clean_eq_secondPass ms :
  cleanOrphanedToolCalls ms =
  secondPass (collectToolCallIds ms) (collectToolResponseIds ms) ∅ ms.
Proof.
  unfold cleanOrphanedToolCalls. apply finalPass_id, secondPass_callsValid.
Qed.





Lemma assistant_no_responseId m calls :
  assistantToolCalls m = Some calls -> toolResponseId m = None.
Proof.
  intros Hm. destruct (toolResponseId m) eqn:E; [|reflexivity].
  apply toolResponseId_not_assistant in E. congruence.
Qed.




(** Every kept response with an id answers a call kept in the output. *)
Lemma clean_responses_matched ms t i :
  t ∈ cleanOrphanedToolCalls ms -> toolResponseId t = Some i ->
  exists m calls c, m ∈ cleanOrphanedToolCalls ms
                    /\ assistantToolCalls m = Some calls
                    /\ c ∈ calls /\ tc_id c = i.
Proof.
  rewrite clean_eq_secondPass. intros Hin Ht.
  assert (i ∈ responseIdList
                (secondPass (collectToolCallIds ms)
                            (collectToolResponseIds ms) ∅ ms)) as Hi.
  { unfold responseIdList. apply list_elem_of_omap. eauto. }
  apply secondPass_responseIds_elem in Hi as (HiR & HiC & _).
  apply elem_collectToolCallIds in HiC as (Hne & HiC).
  apply list_elem_of_fmap in HiC as (c & -> & Hc).
  apply elem_allCalls in Hc as (m & calls & Hm & Hcalls & Hc).
  assert (validToolCall (collectToolResponseIds ms) c) as Hvalid.
  { split; [assumption|]. now apply elem_collectToolResponseIds. }
  assert (c ∈ filter (validToolCall (collectToolResponseIds ms)) calls) as Hf.
  { apply filter_valid_elem. now split. }
  exists (with_tool_calls m
            (Some (filter (validToolCall (collectToolResponseIds ms)) calls))),
    (filter (validToolCall (collectToolResponseIds ms)) calls), c.
  split; [|split; [now apply (assistantToolCalls_with _ calls)|now split]].
  apply (secondPass_keeps_assistant _ _ _ _ m calls); [assumption..|].
  unfold keepAssistant.
  destruct (filter (validToolCall (collectToolResponseIds ms)) calls);
    [now apply elem_of_nil in Hf|].
  simpl. apply elem_of_cons. now left.
Qed.


(** The two scenarios of the specification. *)
Example orphaned_call_with_text :
  cleanOrphanedToolCalls Scenarios.orphanWithText =
  [ Scenarios.userMessage "list the files";
    Scenarios.assistantMessage (ContentText "Let me look.") None ].
Proof. vm_compute. reflexivity. Qed.

Example orphaned_call_without_text :
  cleanOrphanedToolCalls Scenarios.orphanWithoutText =
  [ Scenarios.userMessage "list the files" ].
Proof. vm_compute. reflexivity. Qed.





(** Tool responses without id go through both passes untouched. *)
Lemma secondPass_results_without_id C R ms : forall (a : gset string),
  filter isResultWithoutId (secondPass C R a ms)
  = filter isResultWithoutId ms.
Proof.
  induction ms as [|m ms IH]; intros a; simpl; [reflexivity|].
  destruct (assistantToolCalls m) as [calls|] eqn:Em.
  - assert (role m = assistant) as Hrole.
    { unfold assistantToolCalls in Em. destruct (role m); congruence. }
    rewrite filter_app, IH.
    assert (filter isResultWithoutId (keepAssistant R m calls) = []) as ->.
    { unfold keepAssistant.
      destruct (0 <? _); [|destruct (hasTextContent m); [|reflexivity]].
      all: rewrite filter_cons_False; [reflexivity|].
      all: unfold isResultWithoutId; cbn [role with_tool_calls];
        rewrite Hrole; intros [? _]; discriminate. }
    rewrite filter_cons_False; [reflexivity|].
    unfold isResultWithoutId. rewrite Hrole. intros [? _]. discriminate.
  - destruct (toolResponseId m) as [i|] eqn:Ei.
    + assert (~ isResultWithoutId m) as Hnot.
      { unfold isResultWithoutId. rewrite Ei. intros [_ ?]. discriminate. }
      destruct (_ && _).
      * rewrite !filter_cons_False by assumption. apply IH.
      * rewrite filter_cons_False by assumption. apply IH.
    + rewrite !filter_cons. now rewrite IH.
Qed.

(** C2: the hygiene pass does not pair every result with a call, nor keep
    at most one result per id.  A tool message whose [tool_call_id] is the
    empty string fails the test [message.tool_call_id], so it is neither
    checked against the calls nor de-duplicated: all such messages are
    kept, in every message list.  [convertToOpenAIFormat] gives that id to
    every function response without id, and the ids [call_0], [call_1], ...
    to the function calls without id, so for a history without ids the
    request keeps the result and drops the call it answers. *)
Theorem results_without_id_bypass_cleanup {L : JsonLib} :
  (forall messages,
      filter isResultWithoutId (cleanOrphanedToolCalls messages)
      = filter isResultWithoutId messages)
  /\ cleanOrphanedToolCalls Scenarios.resultsWithoutId
     = Scenarios.resultsWithoutId
  /\ ~ everyResultMatched (cleanOrphanedToolCalls Scenarios.resultsWithoutId)
  /\ ~ atMostOneResultPerId
         (cleanOrphanedToolCalls Scenarios.resultsWithoutId)
  /\ OpenAIConvert.convertToOpenAIFormat "gpt-4o" Scenarios.historyWithoutIds
     = [ Scenarios.userMessage "list the files";
         Scenarios.toolMessage "" "a.txt" ]
  /\ ~ everyResultMatched
         (OpenAIConvert.convertToOpenAIFormat "gpt-4o"
            Scenarios.historyWithoutIds).
Proof.
  assert (cleanOrphanedToolCalls Scenarios.resultsWithoutId
          = Scenarios.resultsWithoutId) as Hclean by (vm_compute; reflexivity).
  assert (OpenAIConvert.convertToOpenAIFormat "gpt-4o"
            Scenarios.historyWithoutIds
          = [ Scenarios.userMessage "list the files";
              Scenarios.toolMessage "" "a.txt" ]) as Hsent
    by (vm_compute; reflexivity).
  split; [|split; [|split; [|split; [|split]]]].
  - intros messages. rewrite clean_eq_secondPass.
    apply secondPass_results_without_id.
  - exact Hclean.
  - rewrite Hclean. intros H.
    destruct (H (Scenarios.toolMessage "" "a.txt"))
      as (m & calls & c & Hm & Hr & Hc & _).
    + unfold Scenarios.resultsWithoutId. rewrite !elem_of_cons. auto.
    + reflexivity.
    + unfold Scenarios.resultsWithoutId in Hm.
      rewrite !elem_of_cons, elem_of_nil in Hm.
      destruct Hm as [->|[->|[->|[]]]]; discriminate.
  - rewrite Hclean. intros H. specialize (H ""). vm_compute in H. lia.
  - exact Hsent.
  - rewrite Hsent. intros H.
    destruct (H (Scenarios.toolMessage "" "a.txt"))
      as (m & calls & c & Hm & Hr & Hc & _).
    + rewrite !elem_of_cons. auto.
    + reflexivity.
    + rewrite !elem_of_cons, elem_of_nil in Hm.
      destruct Hm as [->|[->|[]]]; discriminate.
Qed.

(** *** Idempotence *)

Lemma secondPass_tidy_id C R ms : forall (a : gset string),
  Forall (callsValid R) ms ->
  NoDup (responseIdList ms) ->
  (forall i, i ∈ responseIdList ms -> i ∈ C /\ i ∉ a) ->
  secondPass C R a ms = ms.
Proof.
  induction ms as [|m ms IH]; intros a Hv Hnd Hin; simpl; [reflexivity|].
  apply Forall_cons in Hv as [Hm Hv].
  destruct (assistantToolCalls m) as [calls|] eqn:Em.
  - destruct (Hm _ Em) as [Hne Hall].
    rewrite (keepAssistant_valid _ _ _ Em Hne Hall). simpl. f_equal.
    unfold responseIdList in Hnd, Hin. simpl in Hnd, Hin.
    rewrite (assistant_no_responseId _ _ Em) in Hnd, Hin.
    now apply IH.
  - unfold responseIdList in Hnd, Hin. simpl in Hnd, Hin.
    destruct (toolResponseId m) as [j|] eqn:Ej.
    + apply NoDup_cons in Hnd as [Hj Hnd].
      destruct (Hin j) as [HjC Hja]; [apply elem_of_cons; now left|].
      rewrite (bool_decide_eq_true_2 _ HjC), (bool_decide_eq_false_2 _ Hja).
      simpl. f_equal. apply IH; [assumption..|].
      intros i Hi. destruct (Hin i) as [? ?]; [apply elem_of_cons; now right|].
      split; [assumption|].
      assert (i <> j) by (intros ->; contradiction). set_solver.
    + f_equal. now apply IH.
Qed.

(** The cleanup leaves a tidy list alone. *)
Lemma tidy_clean_id ms : tidy ms -> cleanOrphanedToolCalls ms = ms.
Proof.
  intros (Hv & Hnd & Hin). rewrite clean_eq_secondPass.
  apply secondPass_tidy_id; [assumption..|].
  intros i Hi. split; [now apply Hin|set_solver].
Qed.

(** The cleanup produces a tidy list. *)
Lemma clean_tidy ms : tidy (cleanOrphanedToolCalls ms).
Proof.
  rewrite clean_eq_secondPass. split; [|split].
  - apply secondPass_callsValid.
  - apply secondPass_responseIds_NoDup.
  - intros i Hi.
    assert (exists t, t ∈ cleanOrphanedToolCalls ms
                      /\ toolResponseId t = Some i) as (t & Ht & Hi').
    { rewrite clean_eq_secondPass. unfold responseIdList in Hi.
      apply list_elem_of_omap in Hi as (t & ? & ?). eauto. }
    destruct (clean_responses_matched _ _ _ Ht Hi')
      as (m & calls & c & Hm & Hcalls & Hc & Hid).
    rewrite clean_eq_secondPass in Hm.
    apply elem_collectToolCallIds. split.
    + now apply (toolResponseId_nonempty t).
    + apply list_elem_of_fmap. exists c. split; [now symmetry|].
      apply elem_allCalls. eauto.
Qed.

Lemma mergeInto_role last m : role (mergeInto last m) = role last.
Proof. reflexivity. Qed.

Lemma assistant_role_no_responseId m :
  role m = assistant -> toolResponseId m = None.
Proof. unfold toolResponseId. now intros ->. Qed.

Lemma mergeInto_calls last m :
  role last = assistant -> role m = assistant ->
  default [] (assistantToolCalls (mergeInto last m)) =
  default [] (assistantToolCalls last) ++ default [] (assistantToolCalls m).
Proof.
  intros Hl Hm. unfold assistantToolCalls, mergeInto. simpl.
  rewrite Hl, Hm.
  destruct (tool_calls last) as [[|c1 cs1]|], (tool_calls m) as [[|c2 cs2]|];
    reflexivity.
Qed.

Lemma mergeInto_callsValid ids last m :
  role last = assistant -> role m = assistant ->
  callsValid ids last -> callsValid ids m ->
  callsValid ids (mergeInto last m).
Proof.
  intros Hl Hm Hvl Hvm calls Hcalls.
  pose proof (mergeInto_calls _ _ Hl Hm) as Hd. rewrite Hcalls in Hd.
  simpl in Hd. subst calls.
  unfold callsValid in Hvl, Hvm.
  unfold assistantToolCalls, mergeInto in Hcalls. simpl in Hcalls.
  unfold assistantToolCalls in Hvl, Hvm |- *. rewrite Hl in *. rewrite Hm in *.
  destruct (tool_calls last) as [cs1|], (tool_calls m) as [cs2|]; simpl in *.
  - destruct (Hvl _ eq_refl) as [Hne1 H1], (Hvm _ eq_refl) as [Hne2 H2].
    split; [destruct cs1; [congruence|discriminate]|].
    now apply Forall_app.
  - destruct (Hvl _ eq_refl) as [Hne1 H1].
    rewrite app_nil_r. now split.
  - destruct (Hvm _ eq_refl) as [Hne2 H2]. now split.
  - discriminate.
Qed.

Lemma mergeLoop_responseIds rest : forall last,
  responseIdList (mergeLoop last rest) = responseIdList (last :: rest).
Proof.
  induction rest as [|m rest IH]; intros last; simpl; [reflexivity|].
  destruct (bool_decide (role m = assistant)
            && bool_decide (role last = assistant)) eqn:E.
  - apply andb_true_iff in E as [Em El].
    apply bool_decide_eq_true in Em, El.
    rewrite IH. unfold responseIdList. simpl.
    rewrite (assistant_role_no_responseId m Em).
    rewrite (assistant_role_no_responseId last El).
    now rewrite (assistant_role_no_responseId (mergeInto last m)).
  - unfold responseIdList in *. simpl. now rewrite IH.
Qed.

Lemma mergeLoop_allCalls rest : forall last,
  allCalls (mergeLoop last rest) = allCalls (last :: rest).
Proof.
  induction rest as [|m rest IH]; intros last; simpl; [reflexivity|].
  destruct (bool_decide (role m = assistant)
            && bool_decide (role last = assistant)) eqn:E.
  - apply andb_true_iff in E as [Em El].
    apply bool_decide_eq_true in Em, El.
    rewrite IH. unfold allCalls. simpl.
    rewrite (mergeInto_calls _ _ El Em). now rewrite app_assoc.
  - unfold allCalls in *. simpl. now rewrite IH.
Qed.

Lemma mergeLoop_callsValid ids rest : forall last,
  Forall (callsValid ids) (last :: rest) ->
  Forall (callsValid ids) (mergeLoop last rest).
Proof.
  induction rest as [|m rest IH]; intros last Hv; simpl; [assumption|].
  apply Forall_cons in Hv as [Hl Hv]. apply Forall_cons in Hv as [Hm Hv].
  destruct (bool_decide (role m = assistant)
            && bool_decide (role last = assistant)) eqn:E.
  - apply andb_true_iff in E as [Em El].
    apply bool_decide_eq_true in Em, El.
    apply IH. apply Forall_cons. split; [|assumption].
    now apply mergeInto_callsValid.
  - apply Forall_cons. split; [assumption|].
    apply IH. now apply Forall_cons.
Qed.

Lemma merge_responseIds ms :
  responseIdList (mergeConsecutiveAssistantMessages ms) = responseIdList ms.
Proof. destruct ms; [reflexivity|apply mergeLoop_responseIds]. Qed.

Lemma merge_allCalls ms :
  allCalls (mergeConsecutiveAssistantMessages ms) = allCalls ms.
Proof. destruct ms; [reflexivity|apply mergeLoop_allCalls]. Qed.

(** Merging keeps a tidy list tidy. *)
Lemma merge_tidy ms : tidy ms -> tidy (mergeConsecutiveAssistantMessages ms).
Proof.
  intros (Hv & Hnd & Hin).
  assert (collectToolResponseIds (mergeConsecutiveAssistantMessages ms)
          = collectToolResponseIds ms) as HR.
  { apply set_eq. intros x.
    now rewrite !elem_collectToolResponseIds, merge_responseIds. }
  assert (collectToolCallIds (mergeConsecutiveAssistantMessages ms)
          = collectToolCallIds ms) as HC.
  { apply set_eq. intros x.
    now rewrite !elem_collectToolCallIds, merge_allCalls. }
  unfold tidy. rewrite HR, HC, merge_responseIds.
  split; [|now split].
  destruct ms as [|m ms]; [constructor|]. now apply mergeLoop_callsValid.
Qed.

Lemma mergeLoop_head rest : forall last,
  exists h t, mergeLoop last rest = h :: t /\ role h = role last.
Proof.
  induction rest as [|m rest IH]; intros last; simpl.
  - eauto.
  - destruct (_ && _).
    + destruct (IH (mergeInto last m)) as (h & t & -> & Hr). eauto.
    + eauto.
Qed.

(** Merging leaves no two assistant messages side by side, so merging
    again changes nothing. *)
Lemma merge_idem ms :
  mergeConsecutiveAssistantMessages (mergeConsecutiveAssistantMessages ms)
  = mergeConsecutiveAssistantMessages ms.
Proof.
  destruct ms as [|first rest]; [reflexivity|]. simpl.
  revert first. induction rest as [|m rest IH]; intros last; simpl.
  - reflexivity.
  - destruct (bool_decide (role m = assistant)
              && bool_decide (role last = assistant)) eqn:E.
    + apply IH.
    + simpl. specialize (IH m).
      destruct (mergeLoop_head rest m) as (h & t & Hht & Hr).
      rewrite Hht in IH |- *. simpl in IH |- *. rewrite Hr, E.
      now rewrite IH.
Qed.

(** C3: the hygiene pass (cleanup, then merging of consecutive assistant
    messages) is idempotent. *)
Theorem hygienePass_idempotent (messages : list Message) :
  hygienePass (hygienePass messages) = hygienePass messages.
Proof.
  unfold hygienePass.
  rewrite (tidy_clean_id (mergeConsecutiveAssistantMessages _)).
  - apply merge_idem.
  - apply merge_tidy, clean_tidy.
Qed.

Example hygienePass_untidy :
  hygienePass Scenarios.untidy =
  [ Scenarios.userMessage "list the files";
    Scenarios.assistantMessage (ContentText "Looking. Done.")
      (Some [Scenarios.call "call_1" "ls" "{}"]);
    Scenarios.toolMessage "call_1" "a.txt" ].
Proof. vm_compute. reflexivity. Qed.

End HygieneFacts.

(** ** Schema sanitizers *)

Module SchemaFacts.
Import Schema.

(** Induction on JSON trees, with the hypothesis for every element of an
    array and every value of an object. *)
Lemma json_tree_ind (P : json -> Prop) :
  P JNull -> (forall b, P (JBool b)) -> (forall n, P (JNum n)) ->
  (forall s, P (JStr s)) ->
  (forall xs, Forall P xs -> P (JArr xs)) ->
  (forall fields, Forall (fun kv => P (snd kv)) fields -> P (JObj fields)) ->
  forall j, P j.
Proof.
  intros Hnull Hbool Hnum Hstr Harr Hobj.
  fix IH 1. intros [| b | n | s | xs | fields].
  - exact Hnull.
  - apply Hbool.
  - apply Hnum.
  - apply Hstr.
  - apply Harr. induction xs as [|x xs IHxs]; constructor; [apply IH|exact IHxs].
  - apply Hobj.
    induction fields as [|[k v] fields IHf]; constructor;
      [apply IH|exact IHf].
Qed.





Lemma get_field_set_eq {A} k (v : A) o :
  Js.get_field k (Js.set_field k v o) = Some v.
Proof.
  induction o as [|[k' v'] o IH]; simpl.
  - now rewrite String.eqb_refl.
  - destruct (String.eqb_spec k k'); simpl.
    + now rewrite String.eqb_refl.
    + destruct (String.eqb_spec k k'); [contradiction|exact IH].
Qed.

Lemma get_field_set_ne {A} k k' (v : A) o :
  k <> k' -> Js.get_field k' (Js.set_field k v o) = Js.get_field k' o.
Proof.
  intros Hne. induction o as [|[k0 v0] o IH]; simpl.
  - destruct (String.eqb_spec k' k); [congruence|reflexivity].
  - destruct (String.eqb_spec k k0) as [->|]; simpl.
    + destruct (String.eqb_spec k' k0); [congruence|reflexivity].
    + destruct (String.eqb_spec k' k0); [reflexivity|exact IH].
Qed.


Lemma get_field_forallb {A} (g : string * A -> bool) k o v :
  forallb g o = true -> Js.get_field k o = Some v -> g (k, v) = true.
Proof.
  induction o as [|[k' v'] o IH]; simpl; [discriminate|].
  intros H. apply andb_true_iff in H as [H1 H2].
  destruct (String.eqb_spec k k') as [->|].
  - intros E. injection E as <-. exact H1.
  - now apply IH.
Qed.









Section Converters.
Context {L : JsonLib}.







End Converters.




(** The scenario schema through the three sanitizers. *)
Example openai_nullable_schema :
  @convertGeminiParametersToOpenAI ReferenceJson.lib Scenarios.nullableSchema =
  JObj [ ("type", JStr "object");
         ("properties",
          JObj [ ("path", JObj [("type", JStr "string")]);
                 ("depth", JObj [("type", JStr "object"); ("minimum", JNum 0)]);
                 ("tags", JObj [("type", JStr "array");
                                ("items", JObj [("type", JStr "object")])]) ]) ].
Proof. vm_compute. reflexivity. Qed.

Example bedrock_nullable_schema :
  convertGeminiParametersToBedrock Scenarios.nullableSchema =
  JObj [ ("type", JStr "object");
         ("properties",
          JObj [ ("path", JObj [("type", JStr "string")]);
                 ("depth", JObj [("type", JStr "object");
                                 ("minimum", JStr "0")]);
                 ("tags", JObj [("type", JStr "array");
                                ("items", JObj [("type", JStr "object")])]) ]) ].
Proof. vm_compute. reflexivity. Qed.

Example legacy_nullable_schema :
  sanitizeJsonSchema Scenarios.nullableSchemaLowerRoot =
  JObj [ ("type", JStr "object");
         ("properties",
          JObj [ ("path", JObj [("type", JStr "STRING")]);
                 ("depth", JObj [("type", JNull); ("minimum", JStr "0")]);
                 ("tags", JObj [("type", JStr "ARRAY");
                                ("items", JObj [("type", JStr "string")])]) ]) ].
Proof. vm_compute. reflexivity. Qed.

(** A parameter called [type] is taken for a type field: its schema is
    copied without being converted, union type included. *)
Example parameter_named_type_is_skipped :
  convertGeminiParametersToBedrock Scenarios.parameterNamedType =
  JObj [ ("type", JStr "object");
         ("properties",
          JObj [("type", JObj [("type", JArr [JStr "STRING"; JStr "null"])])]) ]
  /\ @convertGeminiParametersToOpenAI ReferenceJson.lib
       Scenarios.parameterNamedType
     = convertGeminiParametersToBedrock Scenarios.parameterNamedType.
Proof. split; vm_compute; reflexivity. Qed.





(** C4: the two current converters do not reach every [type] field.  Their
    loop takes every key named [type] for the type keyword of a schema,
    also inside a [properties] object, where it is the name of a parameter:
    the schema of a parameter called [type] is a value that is neither
    [null], an array nor a string, so it is copied as it is, whatever it
    holds.  In [{type: "OBJECT", properties: {type: {type: ["STRING",
    "null"]}}}] the union type of that parameter is still an array after
    conversion. *)
Theorem parameter_named_type_is_not_converted {L : JsonLib} :
  convertGeminiParametersToOpenAI Scenarios.parameterNamedType
  = JObj [ ("type", JStr "object");
           ("properties",
            JObj [("type",
                   JObj [("type", JArr [JStr "STRING"; JStr "null"])])]) ]
  /\ convertGeminiParametersToBedrock Scenarios.parameterNamedType
     = JObj [ ("type", JStr "object");
              ("properties",
               JObj [("type",
                      JObj [("type", JArr [JStr "STRING"; JStr "null"])])]) ]
  /\ typesAreLowerStrings
       (convertGeminiParametersToOpenAI Scenarios.parameterNamedType) = false
  /\ typesAreLowerStrings
       (convertGeminiParametersToBedrock Scenarios.parameterNamedType) = false
  /\ (forall schema,
        convertGeminiParametersToOpenAI
          (JObj [ ("type", JStr "OBJECT");
                  ("properties", JObj [("type", JObj schema)]) ])
        = JObj [ ("type", JStr "object");
                 ("properties", JObj [("type", JObj schema)]) ]
        /\ convertGeminiParametersToBedrock
             (JObj [ ("type", JStr "OBJECT");
                     ("properties", JObj [("type", JObj schema)]) ])
           = JObj [ ("type", JStr "object");
                    ("properties", JObj [("type", JObj schema)]) ]).
Proof.
  assert (forall schema,
            convertGeminiParametersToOpenAI
              (JObj [ ("type", JStr "OBJECT");
                      ("properties", JObj [("type", JObj schema)]) ])
            = JObj [ ("type", JStr "object");
                     ("properties", JObj [("type", JObj schema)]) ]
            /\ convertGeminiParametersToBedrock
                 (JObj [ ("type", JStr "OBJECT");
                         ("properties", JObj [("type", JObj schema)]) ])
               = JObj [ ("type", JStr "object");
                        ("properties", JObj [("type", JObj schema)]) ])
    as Hcopied by (intros schema; split; reflexivity).
  destruct (Hcopied [("type", JArr [JStr "STRING"; JStr "null"])])
    as [Hopenai Hbedrock].
  unfold Scenarios.parameterNamedType.
  rewrite Hopenai, Hbedrock.
  split; [reflexivity|]. split; [reflexivity|].
  split; [reflexivity|]. split; [reflexivity|exact Hcopied].
Qed.

End SchemaFacts.

(** ** [safeJsonParse] *)

Module SafeJsonFacts.
Section WithJsonLib.
Context {L : JsonLib}.

(** [safeJsonParse] catches everything its two attempts throw. *)
Lemma safeJsonParse_returns (jsonString fallbackValue : json) :
  exists v, safeJsonParse jsonString fallbackValue = Returns v.
Proof.
  destruct jsonString as [| | | s | |]; simpl; eauto.
  unfold try_catch, bind. repeat case_match; eauto.
Qed.

Lemma safeJsonParse_not_string jsonString fallbackValue :
  (forall s, jsonString <> JStr s) ->
  safeJsonParse jsonString fallbackValue = Returns fallbackValue.
Proof. destruct jsonString; try reflexivity. intros H. now destruct (H s). Qed.

Lemma safeJsonParse_empty fallbackValue :
  safeJsonParse (JStr "") fallbackValue = Returns fallbackValue.
Proof. reflexivity. Qed.

Lemma safeJsonParse_valid s v fallbackValue :
  s <> "" -> JSON_parse s = Returns v ->
  safeJsonParse (JStr s) fallbackValue = Returns v.
Proof.
  intros Hne Hp. simpl. apply JsFacts.nonempty_true in Hne.
  now rewrite Hne, Hp.
Qed.

Lemma safeJsonParse_repaired s e repaired v fallbackValue :
  s <> "" -> JSON_parse s = Throws e ->
  jsonrepair s = Returns repaired -> JSON_parse repaired = Returns v ->
  safeJsonParse (JStr s) fallbackValue = Returns v.
Proof.
  intros Hne Hp Hr Hv. simpl. apply JsFacts.nonempty_true in Hne.
  unfold try_catch, bind. now rewrite Hne, Hp, Hr, Hv.
Qed.

Lemma safeJsonParse_unparseable s fallbackValue :
  unparseable s ->
  safeJsonParse (JStr s) fallbackValue = Returns fallbackValue.
Proof.
  intros [[e He] Hr]. simpl. destruct (negb (Js.nonempty s)); [reflexivity|].
  unfold try_catch, bind. rewrite He.
  destruct Hr as [[e' ->]|(repaired & e' & -> & He')]; [reflexivity|].
  now rewrite He'.
Qed.

End WithJsonLib.
End SafeJsonFacts.

(** ** The current Bedrock adapter's stream *)

Module BedrockStreamFacts.
Import BedrockEvents Bedrock.
Section WithJsonLib.
Context {L : JsonLib}.

Lemma bedrock_steps_app st events1 events2 st1 outs1 :
  steps st events1 = (outs1, Returns st1) ->
  steps st (events1 ++ events2)
  = (outs1 ++ fst (steps st1 events2), snd (steps st1 events2)).
Proof.
  revert st outs1. induction events1 as [|event events1 IH];
    intros st outs1 H; simpl in *.
  - injection H as <- <-. simpl. now destruct (steps st events2).
  - destruct (step st event) as [[st' out]|e]; [|discriminate].
    destruct (steps st' events1) as [outs final] eqn:E.
    injection H as <- ->.
    rewrite (IH _ _ E). simpl. now rewrite app_assoc.
Qed.

(** A run of delta events yields its text deltas at once and in order,
    never a tool call, and appends the fragments for block [index] to the
    accumulator opened for it. *)
Lemma steps_deltas index id callName events : forall st buffer,
  forallb isDelta events = true ->
  JsMap.get index (streamingToolCalls st)
  = Some {| acc_id := id; acc_name := callName; acc_input := buffer |} ->
  exists st',
    steps st events = (textResponses events, Returns st')
    /\ JsMap.get index (streamingToolCalls st')
       = Some {| acc_id := id; acc_name := callName;
                 acc_input := buffer +:+ fragmentsFor index events |}.
Proof.
  induction events as [|event events IH]; intros st buffer Hd Hget.
  - exists st. simpl. now rewrite JsFacts.append_empty_r.
  - destruct event as [| contentBlockIndex delta | | | |]; try discriminate.
    simpl in Hd.
    destruct delta as [[text | input |]|].
    + destruct (IH st buffer Hd Hget) as (st' & Hs & Hg).
      exists st'. simpl. destruct (Js.nonempty text); now rewrite Hs.
    + simpl.
      destruct (Nat.eqb_spec (default 0 contentBlockIndex) index)
        as [Heq|Hne].
      * rewrite Heq, Hget. cbn [acc_id acc_name acc_input].
        destruct (IH {| streamingToolCalls :=
                          JsMap.set index
                            {| acc_id := id; acc_name := callName;
                               acc_input := buffer +:+ Js.str_or input "" |}
                            (streamingToolCalls st);
                        inputTokensSeen := inputTokensSeen st;
                        outputTokensSeen := outputTokensSeen st |}
                    (buffer +:+ Js.str_or input "") Hd) as (st' & Hs & Hg).
        { simpl. apply JsMapFacts.get_set_eq. }
        exists st'. rewrite Hs. split; [reflexivity|].
        rewrite Hg. now rewrite JsFacts.append_assoc.
      * destruct (JsMap.get (default 0 contentBlockIndex)
                    (streamingToolCalls st)) as [other|] eqn:Eo.
        -- destruct (IH {| streamingToolCalls :=
                             JsMap.set (default 0 contentBlockIndex)
                               {| acc_id := acc_id other;
                                  acc_name := acc_name other;
                                  acc_input := acc_input other
                                               +:+ Js.str_or input "" |}
                               (streamingToolCalls st);
                           inputTokensSeen := inputTokensSeen st;
                           outputTokensSeen := outputTokensSeen st |}
                       buffer Hd) as (st' & Hs & Hg).
           { simpl. rewrite JsMapFacts.get_set_ne by assumption. exact Hget. }
           exists st'. rewrite Hs. now split.
        -- destruct (IH st buffer Hd Hget) as (st' & Hs & Hg).
           exists st'. rewrite Hs. now split.
    + destruct (IH st buffer Hd Hget) as (st' & Hs & Hg).
      exists st'. simpl. now rewrite Hs.
    + destruct (IH st buffer Hd Hget) as (st' & Hs & Hg).
      exists st'. simpl. now rewrite Hs.
Qed.

(** A tool-use block from its start to its stop: the text deltas in
    between are yielded as they come, and the stop yields the one tool call,
    with the parsed buffer as arguments. *)
Lemma tool_block_emitted_once st startIndex stopIndex id callName deltas :
  callName <> "" ->
  default 0 startIndex = default 0 stopIndex ->
  forallb isDelta deltas = true ->
  exists args st',
    safeJsonParse (JStr (fragmentsFor (default 0 startIndex) deltas)) (JObj [])
    = Returns args
    /\ steps st
         (contentBlockStart startIndex
            (Some {| toolUseId := id; name := Some callName |})
          :: deltas ++ [contentBlockStop stopIndex])
       = (textResponses deltas
          ++ [createStreamResponse [FunctionCallPart id callName args None]
                STOP None],
          Returns st')
    /\ JsMap.get (default 0 startIndex) (streamingToolCalls st') = None.
Proof.
  intros Hname Hidx Hd.
  destruct (SafeJsonFacts.safeJsonParse_returns
              (JStr (fragmentsFor (default 0 startIndex) deltas)) (JObj []))
    as [args Hargs].
  set (index := default 0 startIndex) in *.
  set (st0 := {| streamingToolCalls :=
                   JsMap.set index
                     {| acc_id := id; acc_name := Some callName;
                        acc_input := "" |} (streamingToolCalls st);
                 inputTokensSeen := inputTokensSeen st;
                 outputTokensSeen := outputTokensSeen st |}).
  destruct (steps_deltas index id (Some callName) deltas st0 "" Hd)
    as (st1 & Hs & Hg).
  { apply JsMapFacts.get_set_eq. }
  change ("" +:+ fragmentsFor index deltas)
    with (fragmentsFor index deltas) in Hg.
  exists args,
    {| streamingToolCalls := JsMap.delete index (streamingToolCalls st1);
       inputTokensSeen := inputTokensSeen st1;
       outputTokensSeen := outputTokensSeen st1 |}.
  split; [exact Hargs|]. split; [|apply JsMapFacts.get_delete_eq].
  cbn [steps step]. fold index. fold st0.
  rewrite (bedrock_steps_app _ _ _ _ _ Hs). cbn [steps step].
  rewrite <- Hidx. fold index. rewrite Hg. cbn [acc_name acc_input acc_id].
  apply JsFacts.nonempty_true in Hname. rewrite Hname, Hargs.
  reflexivity.
Qed.

(** A block opened without a tool name: its stop yields nothing. *)
Lemma unnamed_block_emits_nothing st startIndex stopIndex id callName deltas :
  Js.truthy_str callName = false ->
  default 0 startIndex = default 0 stopIndex ->
  forallb isDelta deltas = true ->
  exists st',
    steps st
      (contentBlockStart startIndex
         (Some {| toolUseId := id; name := callName |})
       :: deltas ++ [contentBlockStop stopIndex])
    = (textResponses deltas, Returns st').
Proof.
  intros Hname Hidx Hd.
  set (index := default 0 startIndex) in *.
  set (st0 := {| streamingToolCalls :=
                   JsMap.set index
                     {| acc_id := id; acc_name := callName;
                        acc_input := "" |} (streamingToolCalls st);
                 inputTokensSeen := inputTokensSeen st;
                 outputTokensSeen := outputTokensSeen st |}).
  destruct (steps_deltas index id callName deltas st0 "" Hd)
    as (st1 & Hs & Hg).
  { apply JsMapFacts.get_set_eq. }
  exists st1.
  cbn [steps step]. fold index. fold st0.
  rewrite (bedrock_steps_app _ _ _ _ _ Hs). cbn [steps step].
  rewrite <- Hidx. fold index. rewrite Hg. cbn [acc_name].
  destruct callName as [n|]; cbn [Js.truthy_str] in Hname.
  - rewrite Hname. cbn [fst snd]. now rewrite app_nil_r.
  - cbn [fst snd]. now rewrite app_nil_r.
Qed.

(** No event makes the loop throw. *)
Lemma bedrock_step_returns st event :
  exists st' out, step st event = Returns (st', out).
Proof.
  destruct event as [index toolUse | index delta | index | reason | usage |];
    cbn [step].
  - destruct toolUse; eauto.
  - destruct delta as [[text | input |]|]; eauto.
    + destruct (Js.nonempty text); eauto.
    + destruct (JsMap.get _ _); eauto.
  - destruct (JsMap.get _ _) as [accumulatedCall|]; eauto.
    destruct (acc_name accumulatedCall) as [callName|]; eauto.
    destruct (Js.nonempty callName); eauto.
    destruct (SafeJsonFacts.safeJsonParse_returns
                (JStr (acc_input accumulatedCall)) (JObj [])) as [args ->].
    cbn [bind]. eauto.
  - eauto.
  - eauto.
  - eauto.
Qed.

Lemma bedrock_steps_return events : forall st,
  exists outs st', steps st events = (outs, Returns st').
Proof.
  induction events as [|event events IH]; intros st; cbn [steps]; [eauto|].
  destruct (bedrock_step_returns st event) as (st1 & out & ->).
  destruct (IH st1) as (outs & st' & ->). eauto.
Qed.

End WithJsonLib.
End BedrockStreamFacts.

(** ** The OpenAI-compatible adapter's stream *)

Module OpenAIStreamFacts.
Import OpenAIResponses.
Section WithJsonLib.
Context {L : JsonLib}.

Lemma parseArguments_returns s :
  parseArguments s = Returns (parsedArguments s).
Proof.
  unfold parsedArguments, parseArguments.
  destruct (Js.nonempty s); [|reflexivity].
  destruct (SafeJsonFacts.safeJsonParse_returns (JStr s) (JObj [])) as [v ->].
  reflexivity.
Qed.

(** On a buffer that is valid JSON the arguments are its parse. *)
Lemma parsedArguments_valid s v :
  s <> "" -> JSON_parse s = Returns v -> parsedArguments s = v.
Proof.
  intros Hne Hp. unfold parsedArguments, parseArguments.
  apply JsFacts.nonempty_true in Hne as Hne'. rewrite Hne'.
  now rewrite (SafeJsonFacts.safeJsonParse_valid s v (JObj []) Hne Hp).
Qed.

Lemma blockPart_erased b acc :
  map eraseSignature (blockPart b acc) = blockPart b acc.
Proof.
  unfold blockPart. destruct (acc_name acc) as [n|]; [|reflexivity].
  destruct (Js.nonempty n); [|reflexivity]. now destruct (_ && _).
Qed.

(** What one block adds to the parts, thought signature apart. *)
Lemma emitAccumulated_erase b r parts acc :
  exists parts',
    emitAccumulated b r parts acc = Returns parts'
    /\ map eraseSignature parts'
       = map eraseSignature parts ++ blockPart b acc.
Proof.
  unfold emitAccumulated, blockPart.
  destruct (acc_name acc) as [n|]; [|exists parts; now rewrite app_nil_r].
  destruct (Js.nonempty n); [|exists parts; now rewrite app_nil_r].
  rewrite parseArguments_returns. simpl.
  destruct (b && String.eqb n "respond_in_schema");
    eexists; (split; [reflexivity|]); now rewrite map_app.
Qed.

(** When the stream finishes every accumulated block adds its part, in the
    order the blocks were opened, and nothing throws. *)
Lemma emitAll_erase b r entries : forall parts,
  exists parts',
    emitAll b r parts entries = Returns parts'
    /\ map eraseSignature parts'
       = map eraseSignature parts
         ++ flat_map (fun e => blockPart b (snd e)) entries.
Proof.
  induction entries as [|[k acc] entries IH]; intros parts; simpl.
  - exists parts. now rewrite app_nil_r.
  - destruct (emitAccumulated_erase b r parts acc) as (parts1 & -> & H1).
    simpl. destruct (IH parts1) as (parts' & -> & H').
    exists parts'. split; [reflexivity|]. now rewrite H', H1, app_assoc.
Qed.

Lemma accumulate_keys m d :
  NoDup (map fst m) -> NoDup (map fst (accumulate m d)).
Proof. apply JsMapFacts.set_keys_NoDup. Qed.

Lemma foldl_accumulate_keys ds : forall m,
  NoDup (map fst m) -> NoDup (map fst (foldl accumulate m ds)).
Proof.
  induction ds as [|d ds IH]; intros m Hm; simpl; [exact Hm|].
  now apply IH, accumulate_keys.
Qed.

(** The accumulator of block [index] after a run of deltas: the fragments
    for the block appended in order, and the last name and id given. *)
Lemma foldl_accumulate_view index ds : forall m,
  argumentsOf (JsMap.get index (foldl accumulate m ds))
  = argumentsOf (JsMap.get index m) +:+ argumentsFor index ds
  /\ nameOf (JsMap.get index (foldl accumulate m ds))
     = lastName index (nameOf (JsMap.get index m)) ds
  /\ idOf (JsMap.get index (foldl accumulate m ds))
     = lastId index (idOf (JsMap.get index m)) ds.
Proof.
  induction ds as [|d ds IH]; intros m; simpl.
  - now rewrite JsFacts.append_empty_r.
  - destruct (IH (accumulate m d)) as (Ha & Hn & Hi).
    rewrite Ha, Hn, Hi. clear IH Ha Hn Hi.
    unfold accumulate.
    destruct (Nat.eqb_spec (default 0 (tcd_index d)) index) as [->|Hne].
    + rewrite JsMapFacts.get_set_eq. simpl.
      destruct (JsMap.get index m) as [a|]; simpl;
        rewrite ?JsFacts.append_assoc;
        destruct (Js.truthy_str (tcd_name d)), (Js.truthy_str (tcd_id d));
        auto.
    + rewrite JsMapFacts.get_set_ne by assumption. auto.
Qed.

Lemma convert_nonfinal st chunk b :
  isFinishing chunk = false ->
  exists st',
    convertStreamChunkToGeminiFormat st chunk b
    = Returns (st', nonFinalResponse chunk)
    /\ streamingToolCalls st'
       = foldl accumulate (streamingToolCalls st) (deltasOf chunk).
Proof.
  unfold isFinishing, convertStreamChunkToGeminiFormat, nonFinalResponse,
    deltasOf, textPartsOf.
  destruct (choice0 chunk) as [choice|]; intros Hf.
  - rewrite Hf. eexists. split; [reflexivity|]. simpl.
    now destruct (delta_tool_calls choice).
  - exists st. now split.
Qed.

(** Before the finish reason comes, every chunk is answered at once by
    its own text and nothing else, while the tool-call deltas accumulate. *)
Lemma steps_nonfinal b chunks : forall st,
  forallb (fun c => negb (isFinishing c)) chunks = true ->
  exists st',
    steps st b chunks = (map nonFinalResponse chunks, Returns st')
    /\ streamingToolCalls st'
       = foldl accumulate (streamingToolCalls st) (flat_map deltasOf chunks).
Proof.
  induction chunks as [|chunk chunks IH]; intros st Hn; simpl.
  - exists st. now split.
  - simpl in Hn. apply andb_true_iff in Hn as [Hc Hn].
    apply negb_true_iff in Hc.
    destruct (convert_nonfinal st chunk b Hc) as (st1 & -> & H1).
    destruct (IH st1 Hn) as (st' & -> & H').
    exists st'. split; [reflexivity|]. now rewrite H', H1, foldl_app.
Qed.

Lemma openai_steps_app st b chunks1 chunks2 st1 outs1 :
  steps st b chunks1 = (outs1, Returns st1) ->
  steps st b (chunks1 ++ chunks2)
  = (outs1 ++ fst (steps st1 b chunks2), snd (steps st1 b chunks2)).
Proof.
  revert st outs1. induction chunks1 as [|chunk chunks1 IH];
    intros st outs1 H; simpl in *.
  - injection H as <- <-. simpl. now destruct (steps st b chunks2).
  - destruct (convertStreamChunkToGeminiFormat st chunk b)
      as [[st' out]|e]; [|discriminate].
    destruct (steps st' b chunks1) as [outs final] eqn:E.
    injection H as <- ->.
    now rewrite (IH _ _ E).
Qed.

(** The chunk with the finish reason: its text, then one part per
    accumulated block. *)
Lemma convert_final st chunk b :
  isFinishing chunk = true ->
  exists finalParts reason,
    convertStreamChunkToGeminiFormat st chunk b
    = Returns ({| streamingToolCalls := [];
                  streamingReasoningDetails := None |},
               {| candidate := Some (finalParts, reason);
                  usageMetadata :=
                    Usage.usageMetadataOf (chunk_usage chunk) |})
    /\ map eraseSignature finalParts
       = textPartsOf chunk
         ++ flat_map (fun e => blockPart b (snd e))
              (foldl accumulate (streamingToolCalls st) (deltasOf chunk)).
Proof.
  unfold isFinishing, convertStreamChunkToGeminiFormat, deltasOf, textPartsOf.
  destruct (choice0 chunk) as [choice|]; [|discriminate]. intros Hf.
  rewrite Hf.
  match goal with
  | |- context [emitAll b ?r ?parts ?entries] =>
      destruct (emitAll_erase b r entries parts) as (finalParts & -> & Hp)
  end.
  exists finalParts, (OpenAIFinish.mapFinishReason (finish_reason choice)).
  split; [reflexivity|]. rewrite Hp. f_equal.
  - destruct (delta_content choice) as [t|]; [|reflexivity].
    now destruct (Js.nonempty t).
  - now destruct (delta_tool_calls choice).
Qed.

(** A whole stream: chunks without a finish reason, then the chunk that
    carries it. *)
Lemma stream_reassembled leftover b chunks fin :
  forallb (fun c => negb (isFinishing c)) chunks = true ->
  isFinishing fin = true ->
  exists finalParts reason,
    streamGenerator leftover (chunks ++ [fin]) b
    = {| yielded :=
           map nonFinalResponse chunks
           ++ [{| candidate := Some (finalParts, reason);
                  usageMetadata := Usage.usageMetadataOf (chunk_usage fin) |}];
         failure := None |}
    /\ map eraseSignature finalParts
       = textPartsOf fin
         ++ flat_map (fun e => blockPart b (snd e))
              (accumulated (flat_map deltasOf (chunks ++ [fin]))).
Proof.
  intros Hn Hf. unfold streamGenerator.
  destruct (steps_nonfinal b chunks
              {| streamingToolCalls := []; streamingReasoningDetails := None |}
              Hn) as (st1 & Hs & Hcalls).
  simpl in Hcalls.
  destruct (convert_final st1 fin b Hf) as (finalParts & reason & Hc & Hparts).
  rewrite (openai_steps_app _ _ _ _ _ _ Hs). cbn [steps]. rewrite Hc. simpl.
  exists finalParts, reason. split; [reflexivity|].
  rewrite Hcalls, <- foldl_app in Hparts.
  rewrite Hparts. unfold accumulated.
  rewrite flat_map_app. simpl. now rewrite app_nil_r.
Qed.

(** The blocks of the accumulator have distinct indices, and each holds
    what the deltas of its index gave it. *)
Lemma accumulated_keys ds : NoDup (map fst (accumulated ds)).
Proof. apply foldl_accumulate_keys. constructor. Qed.

Lemma accumulated_entry ds index acc :
  (index, acc) ∈ accumulated ds ->
  acc_name acc = lastName index None ds
  /\ acc_id acc = lastId index None ds
  /\ acc_arguments acc = argumentsFor index ds.
Proof.
  intros Hin.
  apply (JsMapFacts.elem_get _ _ _ (accumulated_keys ds)) in Hin.
  destruct (foldl_accumulate_view index ds []) as (Ha & Hnm & Hi).
  unfold accumulated in Hin. rewrite Hin in Ha, Hnm, Hi.
  simpl in Ha, Hnm, Hi. auto.
Qed.

Lemma named_block_accumulated ds index callName :
  lastName index None ds = Some callName ->
  exists acc, (index, acc) ∈ accumulated ds.
Proof.
  intros Hname.
  destruct (foldl_accumulate_view index ds []) as (_ & Hnm & _).
  simpl in Hnm. rewrite Hname in Hnm.
  destruct (JsMap.get index (foldl accumulate [] ds)) as [acc|] eqn:Eg;
    [|discriminate].
  exists acc. now apply JsMapFacts.get_elem.
Qed.

(** A block adds at most one part. *)
Lemma blockPart_length b acc : length (blockPart b acc) <= 1.
Proof.
  unfold blockPart. destruct (acc_name acc) as [n|]; [|cbn; lia].
  destruct (Js.nonempty n); [|cbn; lia]. destruct (_ && _); cbn; lia.
Qed.

Lemma blockPart_call b acc callName :
  acc_name acc = Some callName -> callName <> "" ->
  b && String.eqb callName "respond_in_schema" = false ->
  blockPart b acc
  = [FunctionCallPart (acc_id acc) callName
       (parsedArguments (acc_arguments acc)) None].
Proof.
  intros Hn Hne Hs. unfold blockPart. rewrite Hn.
  apply JsFacts.nonempty_true in Hne. now rewrite Hne, Hs.
Qed.

Lemma blockPart_unnamed b acc :
  Js.truthy_str (acc_name acc) = false -> blockPart b acc = [].
Proof.
  unfold blockPart. destruct (acc_name acc) as [n|]; [|reflexivity].
  cbn [Js.truthy_str]. now intros ->.
Qed.

Lemma blockPart_schema acc :
  acc_name acc = Some "respond_in_schema" ->
  blockPart true acc
  = [TextPart (JSON_stringify (parsedArguments (acc_arguments acc)))].
Proof. intros Hn. unfold blockPart. now rewrite Hn. Qed.

(** What [parsedArguments] is: the empty object for the empty buffer, and
    what [safeJsonParse] returns otherwise. *)
Lemma parsedArguments_empty : parsedArguments "" = JObj [].
Proof. reflexivity. Qed.

Lemma parsedArguments_safe s :
  s <> "" -> safeJsonParse (JStr s) (JObj []) = Returns (parsedArguments s).
Proof.
  intros Hne. unfold parsedArguments, parseArguments.
  apply JsFacts.nonempty_true in Hne. rewrite Hne.
  now destruct (SafeJsonFacts.safeJsonParse_returns (JStr s) (JObj []))
    as [v ->].
Qed.

(** No chunk makes the loop throw. *)
Lemma chunk_conversion_returns st chunk b :
  exists st' response,
    convertStreamChunkToGeminiFormat st chunk b = Returns (st', response).
Proof.
  destruct (isFinishing chunk) eqn:Ef.
  - destruct (convert_final st chunk b Ef) as (finalParts & reason & -> & _).
    eauto.
  - destruct (convert_nonfinal st chunk b Ef) as (st' & -> & _). eauto.
Qed.

Lemma openai_steps_return b chunks : forall st,
  exists outs st', steps st b chunks = (outs, Returns st').
Proof.
  induction chunks as [|chunk chunks IH]; intros st; cbn [steps]; [eauto|].
  destruct (chunk_conversion_returns st chunk b) as (st1 & response & ->).
  destruct (IH st1) as (outs & st' & ->). eauto.
Qed.

End WithJsonLib.
End OpenAIStreamFacts.

(** ** Tool calls are emitted once, when their block closes *)

Module ReassemblyFacts.
Import BedrockEvents.

(** The scenario of the specification on the two adapters, with the
    reference JSON library. *)
Example bedrock_three_fragments :
  @Bedrock.streamGenerator ReferenceJson.lib []
    (Some (Scenarios.bedrockToolStream (Some "list_directory")))
  = {| yielded :=
         [ Bedrock.createStreamResponse [TextPart "Let me look."]
             FINISH_REASON_UNSPECIFIED None;
           Bedrock.createStreamResponse
             [FunctionCallPart (Some "tooluse_1") "list_directory"
                ReferenceJson.pathArguments None]
             STOP None ];
       failure := None |}.
Proof. vm_compute. reflexivity. Qed.

Example openai_three_fragments :
  @OpenAIResponses.streamGenerator ReferenceJson.lib Scenarios.emptyState
    (Scenarios.openaiToolChunks "list_directory" ++ [Scenarios.openaiFinish])
    false
  = {| yielded :=
         map OpenAIResponses.nonFinalResponse
           (Scenarios.openaiToolChunks "list_directory")
         ++ [ {| candidate :=
                   Some ([FunctionCallPart (Some "call_1") "list_directory"
                            ReferenceJson.pathArguments None],
                         OwnValue STOP);
                 usageMetadata := None |} ];
       failure := None |}.
Proof. vm_compute. reflexivity. Qed.

(** C1, as stated, fails: in a JSON-schema request the OpenAI adapter turns
    the block of the schema tool into a text part, so a stream with a
    tool-call block ends with no tool-call part at all; and both adapters
    emit nothing for a block that was opened without a tool name. *)
Lemma reassembly_counterexample :
  List.filter isFunctionCallPart
    (flat_map responseParts
       (yielded
          (@OpenAIResponses.streamGenerator ReferenceJson.lib
             Scenarios.emptyState
             (Scenarios.openaiToolChunks "respond_in_schema"
              ++ [Scenarios.openaiFinish])
             true))) = []
  /\ List.filter isFunctionCallPart
       (flat_map responseParts
          (yielded
             (@Bedrock.streamGenerator ReferenceJson.lib []
                (Some (Scenarios.bedrockToolStream None))))) = [].
Proof. split; vm_compute; reflexivity. Qed.

(** C1 (amended).  Current Bedrock adapter: from any state, a tool-use block
    opened with a non-empty tool name, followed by delta events and by the
    stop of that block, yields the text deltas at once and in order, then
    exactly one response with exactly one tool-call part, whose arguments
    are [safeJsonParse] of the concatenated fragments of the block (their
    JSON parse when they are valid JSON); nothing else is yielded and the
    accumulator is discarded.  A block opened without a tool name yields
    its text deltas only.  OpenAI adapter: every chunk without a finish
    reason is answered at once by its own text only, and the chunk with the
    finish reason by its text followed by what each accumulated block
    stands for, in the order the blocks were opened.  The blocks have
    distinct indices, there is one for every index the deltas name, and it
    holds the fragments of its index in order with the last name and id
    given.  A block stands for at most one part: a tool-call part (thought
    signature apart) whose arguments are [safeJsonParse] of its fragments
    when its name is not empty, nothing when it has no name, and a text
    part when it is the [respond_in_schema] block of a JSON-schema
    request. *)
Theorem tool_call_emitted_once_at_close {L : JsonLib} :
  (forall st startIndex stopIndex id callName deltas,
      callName <> "" ->
      default 0 startIndex = default 0 stopIndex ->
      forallb isDelta deltas = true ->
      exists args st',
        safeJsonParse
          (JStr (Bedrock.fragmentsFor (default 0 startIndex) deltas)) (JObj [])
        = Returns args
        /\ (forall v,
              Bedrock.fragmentsFor (default 0 startIndex) deltas <> "" ->
              JSON_parse (Bedrock.fragmentsFor (default 0 startIndex) deltas)
              = Returns v -> args = v)
        /\ Bedrock.steps st
             (contentBlockStart startIndex
                (Some {| toolUseId := id; name := Some callName |})
              :: deltas ++ [contentBlockStop stopIndex])
           = (Bedrock.textResponses deltas
              ++ [Bedrock.createStreamResponse
                    [FunctionCallPart id callName args None] STOP None],
              Returns st')
        /\ JsMap.get (default 0 startIndex) (Bedrock.streamingToolCalls st')
           = None)
  /\ (forall st startIndex stopIndex id callName deltas,
        Js.truthy_str callName = false ->
        default 0 startIndex = default 0 stopIndex ->
        forallb isDelta deltas = true ->
        exists st',
          Bedrock.steps st
            (contentBlockStart startIndex
               (Some {| toolUseId := id; name := callName |})
             :: deltas ++ [contentBlockStop stopIndex])
          = (Bedrock.textResponses deltas, Returns st'))
  /\ (forall deltas,
        List.filter isFunctionCallPart
          (flat_map responseParts (Bedrock.textResponses deltas)) = [])
  /\ (forall leftover b chunks fin,
        forallb (fun c => negb (OpenAIResponses.isFinishing c)) chunks = true ->
        OpenAIResponses.isFinishing fin = true ->
        exists finalParts reason,
          OpenAIResponses.streamGenerator leftover (chunks ++ [fin]) b
          = {| yielded :=
                 map OpenAIResponses.nonFinalResponse chunks
                 ++ [{| candidate := Some (finalParts, reason);
                        usageMetadata :=
                          Usage.usageMetadataOf
                            (OpenAIResponses.chunk_usage fin) |}];
               failure := None |}
          /\ map OpenAIResponses.eraseSignature finalParts
             = OpenAIResponses.textPartsOf fin
               ++ flat_map
                    (fun e => OpenAIResponses.blockPart b (snd e))
                    (OpenAIResponses.accumulated
                       (flat_map OpenAIResponses.deltasOf (chunks ++ [fin]))))
  /\ (forall deltas,
        NoDup (map fst (OpenAIResponses.accumulated deltas))
        /\ (forall index callName,
              OpenAIResponses.lastName index None deltas = Some callName ->
              exists accumulatedCall,
                (index, accumulatedCall) ∈ OpenAIResponses.accumulated deltas)
        /\ (forall index accumulatedCall,
              (index, accumulatedCall) ∈ OpenAIResponses.accumulated deltas ->
              OpenAIResponses.acc_name accumulatedCall
              = OpenAIResponses.lastName index None deltas
              /\ OpenAIResponses.acc_id accumulatedCall
                 = OpenAIResponses.lastId index None deltas
              /\ OpenAIResponses.acc_arguments accumulatedCall
                 = OpenAIResponses.argumentsFor index deltas))
  /\ (forall b accumulatedCall,
        length (OpenAIResponses.blockPart b accumulatedCall) <= 1
        /\ (forall callName,
              OpenAIResponses.acc_name accumulatedCall = Some callName ->
              callName <> "" ->
              b && String.eqb callName "respond_in_schema" = false ->
              OpenAIResponses.blockPart b accumulatedCall
              = [FunctionCallPart (OpenAIResponses.acc_id accumulatedCall)
                   callName
                   (OpenAIResponses.parsedArguments
                      (OpenAIResponses.acc_arguments accumulatedCall))
                   None])
        /\ (Js.truthy_str (OpenAIResponses.acc_name accumulatedCall) = false ->
            OpenAIResponses.blockPart b accumulatedCall = [])
        /\ (OpenAIResponses.acc_name accumulatedCall
            = Some "respond_in_schema" ->
            OpenAIResponses.blockPart true accumulatedCall
            = [TextPart
                 (JSON_stringify
                    (OpenAIResponses.parsedArguments
                       (OpenAIResponses.acc_arguments accumulatedCall)))]))
  /\ (OpenAIResponses.parsedArguments "" = JObj []
      /\ forall s,
          s <> "" ->
          safeJsonParse (JStr s) (JObj [])
          = Returns (OpenAIResponses.parsedArguments s)
          /\ forall v, JSON_parse s = Returns v ->
                       OpenAIResponses.parsedArguments s = v)
  /\ (forall chunk,
        responseParts (OpenAIResponses.nonFinalResponse chunk)
        = OpenAIResponses.textPartsOf chunk
        /\ List.filter isFunctionCallPart (OpenAIResponses.textPartsOf chunk)
           = []).
Proof.
  split; [|split; [|split; [|split; [|split; [|split; [|split]]]]]].
  - intros st startIndex stopIndex id callName deltas Hne Hidx Hd.
    destruct (BedrockStreamFacts.tool_block_emitted_once
                st startIndex stopIndex id callName deltas Hne Hidx Hd)
      as (args & st' & Hargs & Hsteps & Hget).
    exists args, st'. split; [exact Hargs|]. split; [|now split].
    intros v Hnonempty Hparse.
    rewrite (SafeJsonFacts.safeJsonParse_valid _ v (JObj []) Hnonempty Hparse)
      in Hargs.
    now injection Hargs.
  - apply BedrockStreamFacts.unnamed_block_emits_nothing.
  - intros deltas. induction deltas as [|event deltas IH]; [reflexivity|].
    cbn [Bedrock.textResponses flat_map].
    change (flat_map _ deltas) with (Bedrock.textResponses deltas).
    rewrite flat_map_app, List.filter_app, IH, app_nil_r.
    destruct event as [| index [[text | input |]|] | | | |]; try reflexivity.
    now destruct (Js.nonempty text).
  - apply OpenAIStreamFacts.stream_reassembled.
  - intros deltas. split; [apply OpenAIStreamFacts.accumulated_keys|].
    split.
    + apply OpenAIStreamFacts.named_block_accumulated.
    + apply OpenAIStreamFacts.accumulated_entry.
  - intros b accumulatedCall.
    split; [apply OpenAIStreamFacts.blockPart_length|].
    split; [apply OpenAIStreamFacts.blockPart_call|].
    split; [apply OpenAIStreamFacts.blockPart_unnamed
           |apply OpenAIStreamFacts.blockPart_schema].
  - split; [reflexivity|]. intros s Hne.
    split; [now apply OpenAIStreamFacts.parsedArguments_safe|].
    intros v. now apply OpenAIStreamFacts.parsedArguments_valid.
  - intros chunk. unfold OpenAIResponses.nonFinalResponse, responseParts,
      OpenAIResponses.textPartsOf. simpl.
    destruct (OpenAIResponses.choice0 chunk) as [choice|]; [|now split].
    split; [reflexivity|].
    destruct (OpenAIResponses.delta_content choice) as [t|]; [|reflexivity].
    now destruct (Js.nonempty t).
Qed.

(** The theorem at the three fragments of the specification, on both
    adapters, with the reference JSON library. *)
Lemma tool_call_emitted_once_at_close_witness :
  (exists st',
      @Bedrock.steps ReferenceJson.lib Scenarios.bedrockStart
        (contentBlockStart (Some 1)
           (Some {| toolUseId := Some "tooluse_1";
                    name := Some "list_directory" |})
         :: Scenarios.bedrockFragments ++ [contentBlockStop (Some 1)])
      = ([Bedrock.createStreamResponse
            [FunctionCallPart (Some "tooluse_1") "list_directory"
               ReferenceJson.pathArguments None] STOP None],
         Returns st'))
  /\ exists finalParts,
      map OpenAIResponses.eraseSignature finalParts
      = [FunctionCallPart (Some "call_1") "list_directory"
           ReferenceJson.pathArguments None]
      /\ last (yielded
                 (@OpenAIResponses.streamGenerator ReferenceJson.lib
                    Scenarios.emptyState
                    (Scenarios.openaiToolChunks "list_directory"
                     ++ [Scenarios.openaiFinish]) false))
         = Some {| candidate := Some (finalParts, OwnValue STOP);
                   usageMetadata := None |}.
Proof.
  destruct (@tool_call_emitted_once_at_close ReferenceJson.lib)
    as (Hbedrock & _ & _ & Hopenai & _).
  split.
  - destruct (Hbedrock Scenarios.bedrockStart (Some 1) (Some 1)
                (Some "tooluse_1") "list_directory" Scenarios.bedrockFragments)
      as (args & st' & Hargs & Hvalid & Hsteps & _);
      [discriminate|reflexivity|reflexivity|].
    exists st'. rewrite Hsteps.
    rewrite (Hvalid ReferenceJson.pathArguments);
      [reflexivity|discriminate|vm_compute; reflexivity].
  - destruct (Hopenai Scenarios.emptyState false
                (Scenarios.openaiToolChunks "list_directory")
                Scenarios.openaiFinish)
      as (finalParts & reason & Hstream & Hblocks);
      [reflexivity|reflexivity|].
    exists finalParts.
    pose proof openai_three_fragments as Hrun. rewrite Hstream in Hrun.
    injection Hrun as -> ->.
    split; [reflexivity|]. rewrite Hstream. reflexivity.
Defined.

(** *** Malformed argument buffers *)

(** The buffer [{:2}], which cannot be repaired: the call is finalized with
    the empty object and the text delta that follows is delivered. *)
Example bedrock_broken_buffer :
  @Bedrock.streamGenerator ReferenceJson.lib []
    (Some Scenarios.bedrockBrokenStream)
  = {| yielded :=
         [ Bedrock.createStreamResponse
             [FunctionCallPart (Some "tooluse_1") "list_directory"
                (JObj []) None] STOP None;
           Bedrock.createStreamResponse [TextPart "Done."]
             FINISH_REASON_UNSPECIFIED None ];
       failure := None |}.
Proof. vm_compute. reflexivity. Qed.

(** The buffer [{"path": "/src"], which lacks its closing brace: the call is
    finalized with the arguments of the repaired text. *)
Example bedrock_repaired_buffer :
  @Bedrock.streamGenerator ReferenceJson.lib []
    (Some Scenarios.bedrockUnclosedStream)
  = {| yielded :=
         [ Bedrock.createStreamResponse
             [FunctionCallPart (Some "tooluse_1") "list_directory"
                ReferenceJson.pathArguments None] STOP None;
           Bedrock.createStreamResponse [TextPart "Done."]
             FINISH_REASON_UNSPECIFIED None ];
       failure := None |}.
Proof. vm_compute. reflexivity. Qed.

Example openai_repaired_buffer :
  @OpenAIResponses.streamGenerator ReferenceJson.lib Scenarios.emptyState
    (Scenarios.openaiBufferChunks ReferenceJson.unclosedText
     ++ [Scenarios.openaiFinish]) false
  = {| yielded :=
         map OpenAIResponses.nonFinalResponse
           (Scenarios.openaiBufferChunks ReferenceJson.unclosedText)
         ++ [ {| candidate :=
                   Some ([FunctionCallPart (Some "call_1") "list_directory"
                            ReferenceJson.pathArguments None],
                         OwnValue STOP);
                 usageMetadata := None |} ];
       failure := None |}.
Proof. vm_compute. reflexivity. Qed.

(** C6, as stated, fails on the first Bedrock adapter: its block-stop
    handler parses the buffer with [JSON.parse] alone and rethrows, so a
    buffer that is not JSON ends the stream with an error, whether it can
    be repaired or not, and the text delta that follows is never
    delivered. *)
Lemma malformed_buffer_counterexample :
  @BedrockLegacy.streamGenerator ReferenceJson.lib []
    Scenarios.bedrockBrokenStream
  = {| yielded := [];
       failure :=
         Some ("Invalid JSON in tool call list_directory: "
               +:+ "SyntaxError: Unexpected token in JSON") |}
  /\ @BedrockLegacy.streamGenerator ReferenceJson.lib []
       Scenarios.bedrockUnclosedStream
     = {| yielded := [];
          failure :=
            Some ("Invalid JSON in tool call list_directory: "
                  +:+ "SyntaxError: Unexpected token in JSON") |}.
Proof. split; vm_compute; reflexivity. Qed.

(** C6 (amended).  [safeJsonParse] always returns: its fallback for an
    argument that is not a string, is empty, or can be parsed neither as it
    is nor after repair; the parse of the text when [JSON.parse] accepts
    it; and the parse of the repaired text when [JSON.parse] rejects the
    text and accepts what [jsonrepair] makes of it.  In the current Bedrock
    adapter the stop of a block with a tool name finalizes the call with
    what [safeJsonParse] returns for its buffer: the parse of the repaired
    buffer when the repair succeeds, the empty object when the buffer is
    unparseable; the OpenAI adapter does the same with every accumulated
    block when the stream finishes; and neither stream ever ends with an
    error.  The first Bedrock adapter instead ends the stream with the error
    [Invalid JSON in tool call <name>: ...] when [JSON.parse] rejects a
    non-empty buffer, repairable or not. *)
Theorem malformed_arguments_fall_back {L : JsonLib} :
  (forall jsonString fallbackValue,
      (exists v, safeJsonParse jsonString fallbackValue = Returns v)
      /\ ((forall s, jsonString <> JStr s) ->
          safeJsonParse jsonString fallbackValue = Returns fallbackValue)
      /\ (jsonString = JStr "" ->
          safeJsonParse jsonString fallbackValue = Returns fallbackValue)
      /\ (forall s v, jsonString = JStr s -> s <> "" ->
          JSON_parse s = Returns v ->
          safeJsonParse jsonString fallbackValue = Returns v)
      /\ (forall s e repaired v, jsonString = JStr s -> s <> "" ->
          JSON_parse s = Throws e -> jsonrepair s = Returns repaired ->
          JSON_parse repaired = Returns v ->
          safeJsonParse jsonString fallbackValue = Returns v)
      /\ (forall s, jsonString = JStr s -> unparseable s ->
          safeJsonParse jsonString fallbackValue = Returns fallbackValue))
  /\ (forall st index id callName buffer,
        callName <> "" ->
        JsMap.get (default 0 index) (Bedrock.streamingToolCalls st)
        = Some {| Bedrock.acc_id := id; Bedrock.acc_name := Some callName;
                  Bedrock.acc_input := buffer |} ->
        exists args st',
          safeJsonParse (JStr buffer) (JObj []) = Returns args
          /\ Bedrock.step st (contentBlockStop index)
             = Returns (st',
                        [Bedrock.createStreamResponse
                           [FunctionCallPart id callName args None]
                           STOP None])
          /\ (unparseable buffer -> args = JObj [])
          /\ (forall e repaired v,
                buffer <> "" -> JSON_parse buffer = Throws e ->
                jsonrepair buffer = Returns repaired ->
                JSON_parse repaired = Returns v -> args = v))
  /\ (forall leftover events,
        failure (Bedrock.streamGenerator leftover (Some events)) = None)
  /\ (forall b reasoning parts id callName buffer signature,
        callName <> "" ->
        b && String.eqb callName "respond_in_schema" = false ->
        exists args signature',
          OpenAIResponses.emitAccumulated b reasoning parts
            {| OpenAIResponses.acc_id := id;
               OpenAIResponses.acc_name := Some callName;
               OpenAIResponses.acc_arguments := buffer;
               OpenAIResponses.acc_thought_signature := signature |}
          = Returns (parts ++ [FunctionCallPart id callName args signature'])
          /\ (buffer <> "" ->
              safeJsonParse (JStr buffer) (JObj []) = Returns args)
          /\ (unparseable buffer -> args = JObj [])
          /\ (forall e repaired v,
                buffer <> "" -> JSON_parse buffer = Throws e ->
                jsonrepair buffer = Returns repaired ->
                JSON_parse repaired = Returns v -> args = v))
  /\ (forall leftover chunks b,
        failure (OpenAIResponses.streamGenerator leftover chunks b) = None)
  /\ (forall st index id callName buffer e,
        id <> "" -> callName <> "" -> buffer <> "" ->
        JSON_parse buffer = Throws e ->
        JsMap.get (default (BedrockLegacy.currentBlockIndex st) index)
          (BedrockLegacy.streamingToolUses st)
        = Some {| BedrockLegacy.acc_toolUseId := Some id;
                  BedrockLegacy.acc_name := Some callName;
                  BedrockLegacy.acc_input := buffer |} ->
        BedrockLegacy.step st (contentBlockStop index)
        = Throws ("Invalid JSON in tool call " +:+ callName +:+ ": " +:+ e)).
Proof.
  assert (forall buffer args,
            safeJsonParse (JStr buffer) (JObj []) = Returns args ->
            (unparseable buffer -> args = JObj [])
            /\ (forall e repaired v,
                  buffer <> "" -> JSON_parse buffer = Throws e ->
                  jsonrepair buffer = Returns repaired ->
                  JSON_parse repaired = Returns v -> args = v)) as Hcases.
  { intros buffer args Hargs. split.
    - intros Hbad.
      rewrite (SafeJsonFacts.safeJsonParse_unparseable _ (JObj []) Hbad)
        in Hargs.
      now injection Hargs.
    - intros e repaired v Hne Hp Hr Hv.
      rewrite (SafeJsonFacts.safeJsonParse_repaired _ _ _ _ (JObj [])
                 Hne Hp Hr Hv) in Hargs.
      now injection Hargs. }
  split; [|split; [|split; [|split; [|split]]]].
  - intros jsonString fallbackValue.
    split; [|split; [|split; [|split; [|split]]]].
    + apply SafeJsonFacts.safeJsonParse_returns.
    + apply SafeJsonFacts.safeJsonParse_not_string.
    + intros ->. apply SafeJsonFacts.safeJsonParse_empty.
    + intros s v -> Hne Hp. now apply SafeJsonFacts.safeJsonParse_valid.
    + intros s e repaired v -> Hne Hp Hr Hv.
      now apply (SafeJsonFacts.safeJsonParse_repaired s e repaired v).
    + intros s -> Hs. now apply SafeJsonFacts.safeJsonParse_unparseable.
  - intros st index id callName buffer Hne Hget.
    destruct (SafeJsonFacts.safeJsonParse_returns (JStr buffer) (JObj []))
      as [args Hargs].
    exists args. eexists. split; [exact Hargs|]. split.
    + unfold Bedrock.step. rewrite Hget.
      cbn [Bedrock.acc_name Bedrock.acc_input Bedrock.acc_id].
      apply JsFacts.nonempty_true in Hne. rewrite Hne, Hargs.
      reflexivity.
    + now apply Hcases.
  - intros leftover events. unfold Bedrock.streamGenerator.
    destruct (BedrockStreamFacts.bedrock_steps_return events
                {| Bedrock.streamingToolCalls := [];
                   Bedrock.inputTokensSeen := 0;
                   Bedrock.outputTokensSeen := 0 |}) as (outs & st' & ->).
    reflexivity.
  - intros b reasoning parts id callName buffer signature Hne Hschema.
    unfold OpenAIResponses.emitAccumulated.
    cbn [OpenAIResponses.acc_name OpenAIResponses.acc_arguments
         OpenAIResponses.acc_id OpenAIResponses.acc_thought_signature].
    apply JsFacts.nonempty_true in Hne. rewrite Hne.
    rewrite OpenAIStreamFacts.parseArguments_returns. cbn [bind].
    rewrite Hschema.
    exists (OpenAIResponses.parsedArguments buffer). eexists.
    split; [reflexivity|].
    split; [apply OpenAIStreamFacts.parsedArguments_safe|].
    destruct (String.eqb buffer "") eqn:Eb.
    + apply String.eqb_eq in Eb. subst buffer. split; [reflexivity|].
      intros e repaired v Hnonempty. now destruct Hnonempty.
    + apply String.eqb_neq in Eb. apply Hcases.
      now apply OpenAIStreamFacts.parsedArguments_safe.
  - intros leftover chunks b. unfold OpenAIResponses.streamGenerator.
    destruct (OpenAIStreamFacts.openai_steps_return b chunks
                {| OpenAIResponses.streamingToolCalls := [];
                   OpenAIResponses.streamingReasoningDetails := None |})
      as (outs & st' & ->).
    reflexivity.
  - intros st index id callName buffer e Hid Hname Hbuf Hparse Hget.
    unfold BedrockLegacy.step. rewrite Hget.
    cbn [BedrockLegacy.acc_toolUseId BedrockLegacy.acc_name
         BedrockLegacy.acc_input Js.truthy_str Js.str_or].
    apply JsFacts.nonempty_true in Hid, Hname, Hbuf.
    rewrite Hid, Hname, Hbuf, Hparse. reflexivity.
Qed.

(** The theorem with the reference library, on the buffer [{:2}], which
    cannot be repaired, and on [{"path": "/src"], which can: [safeJsonParse]
    falls back on the first and returns the repaired arguments on the
    second, the current Bedrock adapter emits the call with these
    arguments, and the first adapter throws on both. *)
Lemma malformed_arguments_fall_back_witness :
  @safeJsonParse ReferenceJson.lib (JStr ReferenceJson.keylessText) (JObj [])
  = Returns (JObj [])
  /\ @safeJsonParse ReferenceJson.lib (JStr ReferenceJson.unclosedText)
       (JObj [])
     = Returns ReferenceJson.pathArguments
  /\ @safeJsonParse ReferenceJson.lib JNull (JObj []) = Returns (JObj [])
  /\ (exists st',
        @Bedrock.step ReferenceJson.lib
          {| Bedrock.streamingToolCalls :=
               [(0, {| Bedrock.acc_id := Some "tooluse_1";
                       Bedrock.acc_name := Some "list_directory";
                       Bedrock.acc_input := ReferenceJson.keylessText |})];
             Bedrock.inputTokensSeen := 0; Bedrock.outputTokensSeen := 0 |}
          (contentBlockStop (Some 0))
        = Returns (st',
                   [Bedrock.createStreamResponse
                      [FunctionCallPart (Some "tooluse_1") "list_directory"
                         (JObj []) None] STOP None]))
  /\ (exists st',
        @Bedrock.step ReferenceJson.lib
          {| Bedrock.streamingToolCalls :=
               [(0, {| Bedrock.acc_id := Some "tooluse_1";
                       Bedrock.acc_name := Some "list_directory";
                       Bedrock.acc_input := ReferenceJson.unclosedText |})];
             Bedrock.inputTokensSeen := 0; Bedrock.outputTokensSeen := 0 |}
          (contentBlockStop (Some 0))
        = Returns (st',
                   [Bedrock.createStreamResponse
                      [FunctionCallPart (Some "tooluse_1") "list_directory"
                         ReferenceJson.pathArguments None] STOP None]))
  /\ @BedrockLegacy.step ReferenceJson.lib
       {| BedrockLegacy.streamingToolUses :=
            [(0, {| BedrockLegacy.acc_toolUseId := Some "tooluse_1";
                    BedrockLegacy.acc_name := Some "list_directory";
                    BedrockLegacy.acc_input := ReferenceJson.unclosedText |})];
          BedrockLegacy.currentBlockIndex := 0 |}
       (contentBlockStop None)
     = Throws ("Invalid JSON in tool call list_directory: "
               +:+ "SyntaxError: Unexpected token in JSON").
Proof.
  assert (@unparseable ReferenceJson.lib ReferenceJson.keylessText) as Hbad.
  { split; [eexists; vm_compute; reflexivity|].
    left. eexists. vm_compute. reflexivity. }
  assert (@JSON_parse ReferenceJson.lib ReferenceJson.unclosedText
          = Throws "SyntaxError: Unexpected token in JSON") as Hrejected
    by (vm_compute; reflexivity).
  assert (exists repaired,
            @jsonrepair ReferenceJson.lib ReferenceJson.unclosedText
            = Returns repaired
            /\ @JSON_parse ReferenceJson.lib repaired
               = Returns ReferenceJson.pathArguments)
    as (repaired & Hrepair & Hparsed).
  { eexists. split; vm_compute; reflexivity. }
  destruct (@malformed_arguments_fall_back ReferenceJson.lib)
    as (Hsafe & Hbedrock & _ & _ & _ & Hlegacy).
  destruct (Hsafe (JStr ReferenceJson.keylessText) (JObj []))
    as (_ & _ & _ & _ & _ & Hunparseable).
  destruct (Hsafe (JStr ReferenceJson.unclosedText) (JObj []))
    as (_ & _ & _ & _ & Hrepaired & _).
  destruct (Hsafe JNull (JObj [])) as (_ & Hnotstring & _).
  split; [now apply (Hunparseable ReferenceJson.keylessText)|].
  split.
  { apply (Hrepaired ReferenceJson.unclosedText
               "SyntaxError: Unexpected token in JSON" repaired
               ReferenceJson.pathArguments);
      [reflexivity|discriminate|exact Hrejected|exact Hrepair|exact Hparsed]. }
  split; [apply Hnotstring; discriminate|].
  split; [|split].
  - destruct (Hbedrock
                {| Bedrock.streamingToolCalls :=
                     [(0, {| Bedrock.acc_id := Some "tooluse_1";
                             Bedrock.acc_name := Some "list_directory";
                             Bedrock.acc_input := ReferenceJson.keylessText |})];
                   Bedrock.inputTokensSeen := 0;
                   Bedrock.outputTokensSeen := 0 |}
                (Some 0) (Some "tooluse_1") "list_directory"
                ReferenceJson.keylessText)
      as (args & st' & _ & Hstep & Hempty & _);
      [discriminate|reflexivity|].
    exists st'. rewrite Hstep. now rewrite (Hempty Hbad).
  - destruct (Hbedrock
                {| Bedrock.streamingToolCalls :=
                     [(0, {| Bedrock.acc_id := Some "tooluse_1";
                             Bedrock.acc_name := Some "list_directory";
                             Bedrock.acc_input := ReferenceJson.unclosedText |})];
                   Bedrock.inputTokensSeen := 0;
                   Bedrock.outputTokensSeen := 0 |}
                (Some 0) (Some "tooluse_1") "list_directory"
                ReferenceJson.unclosedText)
      as (args & st' & _ & Hstep & _ & Hfixed);
      [discriminate|reflexivity|].
    exists st'. rewrite Hstep.
    now rewrite (Hfixed "SyntaxError: Unexpected token in JSON" repaired
                   ReferenceJson.pathArguments
                   ltac:(discriminate) Hrejected Hrepair Hparsed).
  - apply (Hlegacy _ None "tooluse_1" "list_directory"
             ReferenceJson.unclosedText);
      [discriminate..|exact Hrejected|reflexivity].
Defined.

End ReassemblyFacts.

(** ** JSON-schema requests *)

Module SchemaRequestFacts.
Import OpenAIResponses.

Lemma attachToFirstCall_text details t :
  attachToFirstCall details [TextPart t] = [TextPart t].
Proof. reflexivity. Qed.

Lemma attachToFirstCall_erase details parts :
  map eraseSignature (attachToFirstCall details parts)
  = map eraseSignature parts.
Proof.
  induction parts as [|[t | id callName args signature] parts IH];
    [reflexivity| |reflexivity].
  cbn [attachToFirstCall map eraseSignature]. now rewrite IH.
Qed.

(** A part that is a text part once its signature is erased is that text
    part. *)
Lemma erased_text part t : eraseSignature part = TextPart t -> part = TextPart t.
Proof. destruct part; [trivial|discriminate]. Qed.

Lemma erased_texts parts texts :
  map eraseSignature parts = map TextPart texts -> parts = map TextPart texts.
Proof.
  revert texts. induction parts as [|part parts IH]; intros [|t texts] H;
    try discriminate; [reflexivity|].
  cbn [map] in H. injection H as Hp Hr.
  cbn [map]. now rewrite (erased_text _ _ Hp), (IH _ Hr).
Qed.

Lemma erased_calls parts :
  List.filter isFunctionCallPart (map eraseSignature parts) = [] ->
  List.filter isFunctionCallPart parts = [].
Proof.
  induction parts as [|[t | id callName args signature] parts IH];
    cbn [map eraseSignature List.filter isFunctionCallPart];
    [reflexivity|exact IH|discriminate].
Qed.

Section WithJsonLib.
Context {L : JsonLib}.

Lemma decodeToolCall_erase b parts toolCall :
  exists parts',
    decodeToolCall b parts toolCall = Returns parts'
    /\ map eraseSignature parts'
       = map eraseSignature parts ++ callPart b toolCall.
Proof.
  unfold decodeToolCall, callPart.
  destruct (rtc_function toolCall) as [function|];
    [|exists parts; now rewrite app_nil_r].
  destruct (String.eqb (rtc_type toolCall) "function");
    [|exists parts; now rewrite app_nil_r].
  rewrite OpenAIStreamFacts.parseArguments_returns. cbn [bind].
  destruct (b && String.eqb (rf_name function) "respond_in_schema");
    eexists; (split; [reflexivity|]); now rewrite map_app.
Qed.

Lemma decodeToolCalls_erase b toolCalls : forall parts,
  exists parts',
    decodeToolCalls b parts toolCalls = Returns parts'
    /\ map eraseSignature parts'
       = map eraseSignature parts ++ flat_map (callPart b) toolCalls.
Proof.
  induction toolCalls as [|toolCall toolCalls IH]; intros parts;
    cbn [decodeToolCalls flat_map].
  - exists parts. now rewrite app_nil_r.
  - destruct (decodeToolCall_erase b parts toolCall) as (parts1 & -> & H1).
    cbn [bind]. destruct (IH parts1) as (parts' & -> & H').
    exists parts'. split; [reflexivity|]. now rewrite H', H1, app_assoc.
Qed.

(** The parts of the blocking response, thought signatures apart: the text
    of the message, then what each tool call stands for. *)
Lemma blocking_parts response choice others b :
  choices response = choice :: others ->
  exists r,
    convertToGeminiFormat response b = Returns r
    /\ map eraseSignature (responseParts r)
       = messageTextParts choice
         ++ flat_map (callPart b) (default [] (message_tool_calls choice)).
Proof.
  intros Hc. unfold convertToGeminiFormat. rewrite Hc.
  fold (messageTextParts choice).
  assert (map eraseSignature (messageTextParts choice)
          = messageTextParts choice) as Htext.
  { unfold messageTextParts. destruct (message_content choice) as [t|];
      [destruct (Js.nonempty t)|]; reflexivity. }
  assert (exists parts,
            match message_tool_calls choice with
            | Some toolCalls =>
                decodeToolCalls b (messageTextParts choice) toolCalls
            | None => Returns (messageTextParts choice)
            end = Returns parts
            /\ map eraseSignature parts
               = messageTextParts choice
                 ++ flat_map (callPart b)
                      (default [] (message_tool_calls choice)))
    as (parts & -> & Hparts).
  { destruct (message_tool_calls choice) as [toolCalls|]; cbn [default].
    - destruct (decodeToolCalls_erase b toolCalls (messageTextParts choice))
        as (parts & Hd & Hp).
      exists parts. split; [exact Hd|]. now rewrite Hp, Htext.
    - exists (messageTextParts choice). split; [reflexivity|].
      cbn [flat_map]. now rewrite app_nil_r. }
  cbn [bind]. eexists. split; [reflexivity|].
  unfold responseParts. cbn [candidate].
  destruct (validSignature _); [rewrite attachToFirstCall_erase|];
    exact Hparts.
Qed.

Lemma callPart_schema toolCall :
  callsSchemaTool toolCall = true ->
  callPart true toolCall
  = [TextPart (JSON_stringify (parsedArguments (callArguments toolCall)))].
Proof.
  unfold callsSchemaTool, callPart, callArguments.
  destruct (rtc_function toolCall) as [function|];
    [|now rewrite andb_false_r].
  intros H. apply andb_true_iff in H as [-> ->]. reflexivity.
Qed.

Lemma schema_calls_are_texts toolCalls :
  forallb callsSchemaTool toolCalls = true ->
  flat_map (callPart true) toolCalls
  = map TextPart
      (map (fun toolCall =>
              JSON_stringify (parsedArguments (callArguments toolCall)))
           toolCalls).
Proof.
  induction toolCalls as [|toolCall toolCalls IH]; [reflexivity|].
  cbn [forallb flat_map map]. intros H.
  apply andb_true_iff in H as [Hc H].
  now rewrite (callPart_schema _ Hc), (IH H).
Qed.

(** In a JSON-schema request, the blocks of a stream whose only named
    blocks are [respond_in_schema] blocks stand for text parts. *)
Lemma schema_blocks_are_texts deltas :
  (forall index callName,
      lastName index None deltas = Some callName -> callName <> "" ->
      callName = "respond_in_schema") ->
  List.filter isFunctionCallPart
    (flat_map (fun e => blockPart true (snd e)) (accumulated deltas)) = [].
Proof.
  intros Hnames.
  assert (forall entries,
            (forall e, e ∈ entries -> e ∈ accumulated deltas) ->
            List.filter isFunctionCallPart
              (flat_map (fun e => blockPart true (snd e)) entries) = [])
    as Hall.
  { induction entries as [|[index acc] entries IH]; intros Hin;
      [reflexivity|].
    cbn [flat_map snd]. rewrite List.filter_app, IH, app_nil_r.
    - destruct (OpenAIStreamFacts.accumulated_entry deltas index acc)
        as (Hn & _).
      { apply Hin. apply elem_of_cons. now left. }
      unfold blockPart. rewrite Hn.
      destruct (lastName index None deltas) as [callName|] eqn:El;
        [|reflexivity].
      destruct (Js.nonempty callName) eqn:En; [|reflexivity].
      rewrite (Hnames index callName El (proj1 (JsFacts.nonempty_true _) En)).
      reflexivity.
    - intros e He. apply Hin. apply elem_of_cons. now right. }
  apply Hall. auto.
Qed.

End WithJsonLib.

(** C7: a request with a truthy [responseJsonSchema] and the JSON mime type
    is sent with exactly one tool, [respond_in_schema], whose parameters are
    the caller's schema, whatever tools the request declares.  Blocking
    path: the response to a completion has the text of the message, if any,
    followed by what each tool call stands for; a function call of
    [respond_in_schema] stands for one text part holding [JSON.stringify] of
    its parsed arguments, so a completion whose tool calls all call that
    tool decodes to text parts only.  Stream path: the response to the chunk
    with the finish reason has the text of the chunk followed by what each
    accumulated block stands for; a [respond_in_schema] block stands for one
    text part holding [JSON.stringify] of its parsed arguments, so a stream
    whose named blocks all call that tool yields no tool-call part.  The
    parsed arguments of a non-empty text that is valid JSON are its
    parse. *)
Theorem json_schema_request_round_trip {L : JsonLib} :
  (forall request c schema,
      config request = Some c ->
      responseJsonSchema c = Some schema -> Js.truthy schema = true ->
      responseMimeType c = Some "application/json" ->
      isJsonSchemaRequest request = true
      /\ requestTools request
         = Some [{| ft_name := "respond_in_schema";
                    ft_description :=
                      "Provide the response in the specified JSON schema format";
                    ft_parameters := schema |}])
  /\ (forall response choice others,
        choices response = choice :: others ->
        exists r,
          convertToGeminiFormat response true = Returns r
          /\ map eraseSignature (responseParts r)
             = messageTextParts choice
               ++ flat_map (callPart true)
                    (default [] (message_tool_calls choice))
          /\ (forallb callsSchemaTool (default [] (message_tool_calls choice))
              = true ->
              responseParts r
              = messageTextParts choice
                ++ map (fun toolCall =>
                          TextPart
                            (JSON_stringify
                               (parsedArguments (callArguments toolCall))))
                       (default [] (message_tool_calls choice))
              /\ List.filter isFunctionCallPart (responseParts r) = []))
  /\ (forall leftover chunks fin,
        forallb (fun c => negb (isFinishing c)) chunks = true ->
        isFinishing fin = true ->
        exists finalParts reason,
          streamGenerator leftover (chunks ++ [fin]) true
          = {| yielded :=
                 map nonFinalResponse chunks
                 ++ [{| candidate := Some (finalParts, reason);
                        usageMetadata :=
                          Usage.usageMetadataOf (chunk_usage fin) |}];
               failure := None |}
          /\ map eraseSignature finalParts
             = textPartsOf fin
               ++ flat_map (fun e => blockPart true (snd e))
                    (accumulated (flat_map deltasOf (chunks ++ [fin])))
          /\ (forall index,
                lastName index None (flat_map deltasOf (chunks ++ [fin]))
                = Some "respond_in_schema" ->
                TextPart
                  (JSON_stringify
                     (parsedArguments
                        (argumentsFor index
                           (flat_map deltasOf (chunks ++ [fin])))))
                ∈ finalParts)
          /\ ((forall index callName,
                 lastName index None (flat_map deltasOf (chunks ++ [fin]))
                 = Some callName ->
                 callName <> "" -> callName = "respond_in_schema") ->
              List.filter isFunctionCallPart finalParts = [])
          /\ Forall (fun chunk =>
                       List.filter isFunctionCallPart
                         (responseParts (nonFinalResponse chunk)) = [])
               chunks)
  /\ (forall s A,
        s <> "" -> JSON_parse s = Returns A -> parsedArguments s = A).
Proof.
  split; [|split; [|split]].
  - intros request c schema Hc Hschema Htruthy Hmime.
    assert (isJsonSchemaRequest request = true) as Hjson.
    { unfold isJsonSchemaRequest. now rewrite Hc, Hschema, Hmime, Htruthy. }
    split; [exact Hjson|].
    unfold requestTools. now rewrite Hc, Hjson, Hschema.
  - intros response choice others Hc.
    destruct (blocking_parts response choice others true Hc)
      as (r & Hr & Hparts).
    exists r. split; [exact Hr|]. split; [exact Hparts|].
    intros Hall.
    rewrite (schema_calls_are_texts _ Hall) in Hparts.
    assert (exists texts, messageTextParts choice = map TextPart texts)
      as [texts Htexts].
    { unfold messageTextParts. destruct (message_content choice) as [t|];
        [destruct (Js.nonempty t)|];
        [now exists [t]|now exists []|now exists []]. }
    rewrite Htexts, <- map_app in Hparts.
    apply erased_texts in Hparts. split.
    + rewrite Hparts, map_app, <- Htexts. now rewrite map_map.
    + rewrite Hparts.
      generalize (texts ++ map (fun toolCall =>
                                 JSON_stringify
                                   (parsedArguments (callArguments toolCall)))
                               (default [] (message_tool_calls choice))).
      intros l. induction l as [|t l IH]; [reflexivity|exact IH].
  - intros leftover chunks fin Hn Hf.
    destruct (OpenAIStreamFacts.stream_reassembled leftover true chunks fin
                Hn Hf) as (finalParts & reason & Hstream & Hparts).
    exists finalParts, reason. split; [exact Hstream|].
    split; [exact Hparts|]. split; [|split].
    + intros index Hname.
      destruct (OpenAIStreamFacts.named_block_accumulated _ _ _ Hname)
        as [acc Hin].
      destruct (OpenAIStreamFacts.accumulated_entry _ _ _ Hin)
        as (Hn' & _ & Ha).
      rewrite Hname in Hn'.
      assert (TextPart
                (JSON_stringify
                   (parsedArguments
                      (argumentsFor index
                         (flat_map deltasOf (chunks ++ [fin])))))
              ∈ map eraseSignature finalParts) as Hin'.
      { rewrite Hparts. apply elem_of_app. right.
        apply list_elem_of_In, in_flat_map. exists (index, acc).
        split; [now apply list_elem_of_In|].
        cbn [snd]. rewrite (OpenAIStreamFacts.blockPart_schema _ Hn'), Ha.
        now left. }
      apply list_elem_of_fmap in Hin' as (part & Hp & Hin').
      symmetry in Hp. apply erased_text in Hp. now subst part.
    + intros Hnames. apply erased_calls. rewrite Hparts, List.filter_app.
      rewrite (schema_blocks_are_texts _ Hnames), app_nil_r.
      unfold textPartsOf. destruct (choice0 fin) as [choice|]; [|reflexivity].
      destruct (delta_content choice) as [t|]; [|reflexivity].
      now destruct (Js.nonempty t).
    + apply Forall_forall. intros chunk _.
      unfold nonFinalResponse, responseParts, textPartsOf. cbn [candidate].
      destruct (choice0 chunk) as [choice|]; [|reflexivity].
      destruct (delta_content choice) as [t|]; [|reflexivity].
      now destruct (Js.nonempty t).
  - apply OpenAIStreamFacts.parsedArguments_valid.
Qed.

(** The theorem at the scenario of the specification: the schema
    [{type: "object", properties: {x: {type: "integer"}}}], a completion
    calling the tool with [{"x":5}], and a stream doing the same. *)
Lemma json_schema_request_round_trip_witness :
  @requestTools ReferenceJson.lib Scenarios.jsonSchemaRequest
  = Some [{| ft_name := "respond_in_schema";
             ft_description :=
               "Provide the response in the specified JSON schema format";
             ft_parameters := Scenarios.xSchema |}]
  /\ (exists r,
        @convertToGeminiFormat ReferenceJson.lib Scenarios.schemaToolCompletion
          true = Returns r
        /\ responseParts r = [TextPart ReferenceJson.xFiveText])
  /\ exists finalParts reason,
      @streamGenerator ReferenceJson.lib Scenarios.emptyState
        (Scenarios.schemaToolChunks ++ [Scenarios.openaiFinish]) true
      = {| yielded :=
             map nonFinalResponse Scenarios.schemaToolChunks
             ++ [{| candidate := Some (finalParts, reason);
                    usageMetadata := None |}];
           failure := None |}
      /\ TextPart ReferenceJson.xFiveText ∈ finalParts
      /\ List.filter isFunctionCallPart finalParts = [].
Proof.
  destruct (@json_schema_request_round_trip ReferenceJson.lib)
    as (Hrequest & Hdecode & Hstream & _).
  split; [|split].
  - eapply Hrequest; reflexivity.
  - destruct (Hdecode Scenarios.schemaToolCompletion _ _ eq_refl)
      as (r & Hr & _ & Hschema).
    exists r. split; [exact Hr|].
    destruct (Hschema eq_refl) as [Hparts _]. rewrite Hparts.
    vm_compute. reflexivity.
  - destruct (Hstream Scenarios.emptyState Scenarios.schemaToolChunks
                Scenarios.openaiFinish eq_refl eq_refl)
      as (finalParts & reason & Hrun & _ & Htext & Hnone & _).
    exists finalParts, reason. split; [exact Hrun|]. split.
    + specialize (Htext 0 eq_refl).
      replace ReferenceJson.xFiveText
        with (@JSON_stringify ReferenceJson.lib
                (@parsedArguments ReferenceJson.lib
                   (argumentsFor 0
                      (flat_map deltasOf
                         (Scenarios.schemaToolChunks
                          ++ [Scenarios.openaiFinish])))))
        by (vm_compute; reflexivity).
      exact Htext.
    + apply Hnone. intros index callName Hname Hne.
      destruct index as [|index].
      * vm_compute in Hname. now injection Hname as <-.
      * exfalso. clear -Hname. cbn in Hname. discriminate.
Defined.

End SchemaRequestFacts.

(** ** Internal reasoning and the provider messages *)

Module ThoughtFacts.

Section WithJsonLib.
Context {L : JsonLib}.

Lemma openai_bucketPart_text b b' part :
  OpenAIConvert.textParts b = OpenAIConvert.textParts b' ->
  OpenAIConvert.textParts (OpenAIConvert.bucketPart b part)
  = OpenAIConvert.textParts (OpenAIConvert.bucketPart b' part).
Proof.
  intros H. unfold OpenAIConvert.bucketPart, OpenAIConvert.pushText,
    OpenAIConvert.setReasoning.
  repeat case_match; simpl; congruence.
Qed.

Lemma openai_bucketPart_thought b part :
  isThoughtText part = true ->
  OpenAIConvert.textParts (OpenAIConvert.bucketPart b part)
  = OpenAIConvert.textParts b.
Proof.
  destruct part as [s|p]; [discriminate|]. simpl.
  intros H. apply andb_true_iff in H as [Ht Hth]. rewrite Ht, Hth. simpl.
  repeat case_match; reflexivity.
Qed.

(** In the OpenAI adapter's bucketing, the text parts flagged as thoughts
    add nothing to the text bucket. *)
Lemma openai_text_ignores_thoughts parts : forall b b',
  OpenAIConvert.textParts b = OpenAIConvert.textParts b' ->
  OpenAIConvert.textParts (foldl OpenAIConvert.bucketPart b parts)
  = OpenAIConvert.textParts
      (foldl OpenAIConvert.bucketPart b'
         (List.filter (fun p => negb (isThoughtText p)) parts)).
Proof.
  induction parts as [|part parts IH]; intros b b' H; simpl; [exact H|].
  destruct (isThoughtText part) eqn:E; simpl.
  - apply IH. now rewrite openai_bucketPart_thought.
  - apply IH. now apply openai_bucketPart_text.
Qed.

Lemma bedrock_bucketPart_text b b' part :
  BedrockConvert.contentBlocks b = BedrockConvert.contentBlocks b' ->
  BedrockConvert.contentBlocks (BedrockConvert.bucketPart b part)
  = BedrockConvert.contentBlocks (BedrockConvert.bucketPart b' part).
Proof.
  intros H. unfold BedrockConvert.bucketPart.
  repeat case_match; simpl; congruence.
Qed.

Lemma bedrock_bucketPart_thought b part :
  isThoughtText part = true ->
  BedrockConvert.contentBlocks (BedrockConvert.bucketPart b part)
  = BedrockConvert.contentBlocks b.
Proof.
  destruct part as [s|p]; [discriminate|]. simpl.
  intros H. apply andb_true_iff in H as [Ht Hth]. rewrite Ht, Hth. simpl.
  repeat case_match; reflexivity.
Qed.

(** The same in the current Bedrock adapter. *)
Lemma bedrock_text_ignores_thoughts parts : forall b b',
  BedrockConvert.contentBlocks b = BedrockConvert.contentBlocks b' ->
  BedrockConvert.contentBlocks (foldl BedrockConvert.bucketPart b parts)
  = BedrockConvert.contentBlocks
      (foldl BedrockConvert.bucketPart b'
         (List.filter (fun p => negb (isThoughtText p)) parts)).
Proof.
  induction parts as [|part parts IH]; intros b b' H; simpl; [exact H|].
  destruct (isThoughtText part) eqn:E; simpl.
  - apply IH. now rewrite bedrock_bucketPart_thought.
  - apply IH. now apply bedrock_bucketPart_text.
Qed.

End WithJsonLib.

(** C9: the Anthropic adapter emits a text part flagged as internal
    reasoning as an ordinary text block of the assistant message, where the
    OpenAI and current Bedrock adapters drop it from the same turn.  (The
    source's [processContentParts] tests ['text' in part && part.text] and
    never reads [part.thought].) *)
Theorem anthropic_emits_thought_as_text :
  @Anthropic.processContentParts ReferenceJson.lib Scenarios.cannedAdapter
    "model" (Some Scenarios.turnWithThought)
  = ("assistant",
     [ Anthropic.TextBlock "The user wants the file list; I should call ls.";
       Anthropic.TextBlock "Here are the files." ])
  /\ OpenAIConvert.textParts
       (@OpenAIConvert.bucketParts ReferenceJson.lib Scenarios.turnWithThought)
     = ["Here are the files."]
  /\ BedrockConvert.contentBlocks
       (@BedrockConvert.bucketParts ReferenceJson.lib Scenarios.turnWithThought)
     = [BedrockConvert.TextBlock "Here are the files."].
Proof. repeat split; vm_compute; reflexivity. Qed.

(** The first Bedrock adapter collects the thought with the other texts. *)
Example legacy_bedrock_keeps_thoughts :
  BedrockLegacyConvert.textPartsOf Scenarios.turnWithThought
  = [ "The user wants the file list; I should call ls.";
      "Here are the files." ].
Proof. reflexivity. Qed.

(** The single-[Content] path of the OpenAI and Bedrock converters joins
    every text, thoughts included. *)
Example single_content_keeps_thoughts :
  @OpenAIConvert.contentMessages ReferenceJson.lib
    (ContentsSingle (ContentObject "model" (Some Scenarios.turnWithThought)))
  = [ OpenAIConvert.plainMessage OpenAI.assistant
        (OpenAI.ContentText
           ("The user wants the file list; I should call ls."
            +:+ String Js.LF "Here are the files.")) None ].
Proof. vm_compute. reflexivity. Qed.

End ThoughtFacts.

(** ** The Anthropic stream wrapper *)

Module AnthropicStreamFacts.
Import Anthropic.

(** C10: drained, the generator returned by the Anthropic adapter's
    [generateContentStream] yields exactly one response, the one
    [generateContent] returns for the same request, and then ends; when
    [generateContent] throws, it yields nothing and ends with that error. *)
Theorem stream_is_single_blocking_response {L : JsonLib} {A : Adapter}
    (request : GenerateContentParameters) (userPromptId : string) :
  (forall response,
      generateContent request userPromptId = Returns response ->
      forall fuel, 2 <= fuel ->
        drain fuel request userPromptId
          (generateContentStream request userPromptId)
        = Some {| yielded := [response]; failure := None |})
  /\ (forall error,
        generateContent request userPromptId = Throws error ->
        forall fuel, 1 <= fuel ->
          drain fuel request userPromptId
            (generateContentStream request userPromptId)
          = Some {| yielded := []; failure := Some error |}).
Proof.
  split.
  - intros response Hg fuel Hfuel.
    destruct fuel as [|[|fuel]]; [lia..|].
    unfold generateContentStream. cbn [drain next]. now rewrite Hg.
  - intros error Hg fuel Hfuel.
    destruct fuel as [|fuel]; [lia|].
    unfold generateContentStream. cbn [drain next]. now rewrite Hg.
Qed.

(** The theorem with an SDK call that answers, and with one that fails. *)
Lemma stream_is_single_blocking_response_witness :
  @drain ReferenceJson.lib Scenarios.cannedAdapter 2 Scenarios.greeting "p1"
    AtStart
  = Some {| yielded :=
              [ {| candidate := Some ([TextPart "Hi."], OwnValue STOP);
                   usageMetadata :=
                     Some {| Usage.promptTokenCount := 12;
                             Usage.candidatesTokenCount := 3;
                             Usage.totalTokenCount := 15;
                             Usage.cachedContentTokenCount := None |} |} ];
            failure := None |}
  /\ @drain ReferenceJson.lib Scenarios.failingAdapter 1 Scenarios.greeting
       "p1" AtStart
     = Some {| yielded := []; failure := Some "529 overloaded" |}.
Proof.
  split.
  - destruct (@stream_is_single_blocking_response ReferenceJson.lib
                Scenarios.cannedAdapter Scenarios.greeting "p1") as [H _].
    apply H; [vm_compute; reflexivity|lia].
  - destruct (@stream_is_single_blocking_response ReferenceJson.lib
                Scenarios.failingAdapter Scenarios.greeting "p1") as [_ H].
    apply H; [vm_compute; reflexivity|lia].
Defined.

End AnthropicStreamFacts.

(** ** The reference JSON library on the texts of the scenarios *)

Module ReferenceJsonFacts.
Import ReferenceJson.

Example parse_path_arguments : parse pathArgumentsText = Returns pathArguments.
Proof. vm_compute. reflexivity. Qed.

Example parse_fragment_fails :
  exists e, parse (fragment1 +:+ fragment2) = Throws e.
Proof. vm_compute. eauto. Qed.

Example stringify_x_five : stringify xFive = xFiveText.
Proof. vm_compute. reflexivity. Qed.

Example parse_x_five : parse xFiveText = Returns xFive.
Proof. vm_compute. reflexivity. Qed.

Example parse_nested :
  parse (stringify (JObj [("a", JArr [JNum (-3); JBool true; JNull;
                                      JObj [("b", JStr "c d")]]);
                          ("e", JObj [])]))
  = Returns (JObj [("a", JArr [JNum (-3); JBool true; JNull;
                               JObj [("b", JStr "c d")]]);
                   ("e", JObj [])]).
Proof. vm_compute. reflexivity. Qed.

End ReferenceJsonFacts.

(** ** What the hygiene pass keeps *)

Module ConversationFacts.
Import OpenAI Conversation HygieneFacts.

Lemma adjacent_mergeLoop rest : forall last,
  adjacentAssistants (mergeLoop last rest) = false.
Proof.
  induction rest as [|m rest IH]; intros last; [reflexivity|].
  cbn [mergeLoop].
  destruct (bool_decide (role m = assistant)
            && bool_decide (role last = assistant)) eqn:E; [apply IH|].
  specialize (IH m).
  destruct (mergeLoop_head rest m) as (h & t & Hht & Hr).
  rewrite Hht in IH |- *. cbn [adjacentAssistants] in IH |- *.
  rewrite IH, Hr, orb_false_r. now rewrite andb_comm.
Qed.

Lemma nonAssistants_mergeLoop rest : forall last,
  nonAssistants (mergeLoop last rest) = nonAssistants (last :: rest).
Proof.
  induction rest as [|m rest IH]; intros last; [reflexivity|].
  cbn [mergeLoop].
  destruct (bool_decide (role m = assistant)
            && bool_decide (role last = assistant)) eqn:E.
  - apply andb_true_iff in E as [Em El]. rewrite IH.
    unfold nonAssistants. cbn [List.filter]. rewrite mergeInto_role, Em, El.
    reflexivity.
  - unfold nonAssistants in *. cbn [List.filter]. now rewrite IH.
Qed.

Lemma contentString_mergeInto last m :
  contentString (mergeInto last m) = contentString last +:+ contentString m.
Proof.
  unfold mergeInto, contentString at 1. cbn [content].
  destruct (Js.nonempty _) eqn:E; [reflexivity|].
  apply JsFacts.nonempty_false in E. now rewrite E.
Qed.

Lemma concat_empty_cons (s : string) (l : list string) :
  String.concat "" (s :: l) = s +:+ String.concat "" l.
Proof.
  destruct l as [|x l]; [now rewrite JsFacts.append_empty_r|reflexivity].
Qed.

Lemma assistantText_mergeLoop rest : forall last,
  assistantText (mergeLoop last rest) = assistantText (last :: rest).
Proof.
  induction rest as [|m rest IH]; intros last; [reflexivity|].
  cbn [mergeLoop].
  destruct (bool_decide (role m = assistant)
            && bool_decide (role last = assistant)) eqn:E.
  - apply andb_true_iff in E as [Em El]. rewrite IH.
    unfold assistantText. cbn [List.filter]. rewrite mergeInto_role, Em, El.
    cbn [map]. rewrite !concat_empty_cons, contentString_mergeInto.
    apply JsFacts.append_assoc.
  - unfold assistantText in *. cbn [List.filter].
    specialize (IH m). cbn [List.filter] in IH.
    destruct (bool_decide (role last = assistant)); cbn [map].
    + rewrite !concat_empty_cons. now rewrite IH.
    + exact IH.
Qed.

(** After [mergeConsecutiveAssistantMessages] no two assistant messages are
    adjacent, and every other message is where it was, unchanged. *)
Theorem merge_separates_assistants (messages : list Message) :
  adjacentAssistants (mergeConsecutiveAssistantMessages messages) = false
  /\ nonAssistants (mergeConsecutiveAssistantMessages messages)
     = nonAssistants messages.
Proof.
  destruct messages as [|first rest]; [now split|]. split.
  - apply adjacent_mergeLoop.
  - apply nonAssistants_mergeLoop.
Qed.

(** Merging loses neither text nor tool calls: the string contents of the
    assistant messages, concatenated in order, and the tool calls they
    carry, in order, are those of the input. *)
Theorem merge_keeps_text_and_calls (messages : list Message) :
  assistantText (mergeConsecutiveAssistantMessages messages)
  = assistantText messages
  /\ allCalls (mergeConsecutiveAssistantMessages messages) = allCalls messages.
Proof.
  split; [|apply merge_allCalls].
  destruct messages as [|first rest]; [reflexivity|].
  apply assistantText_mergeLoop.
Qed.

Lemma keptFrom_refl m : keptFrom m m.
Proof. repeat split; auto. Qed.

Lemma keepAssistant_keptFrom ids m calls m' :
  assistantToolCalls m = Some calls ->
  m' ∈ keepAssistant ids m calls -> keptFrom m m'.
Proof.
  intros Hm Hk.
  assert (tool_calls m = Some calls) as Hcalls.
  { unfold assistantToolCalls in Hm. now destruct (role m). }
  destruct (keepAssistant_inv _ _ _ _ Hk) as [(_ & ->)|(_ & _ & ->)];
    repeat split; cbn [with_tool_calls tool_calls default]; try reflexivity.
  - intros c Hc. rewrite Hcalls. cbn [default].
    now apply filter_valid_elem in Hc as [? _].
  - intros c Hc. now apply elem_of_nil in Hc.
Qed.

Lemma keepAssistant_length ids m calls :
  length (keepAssistant ids m calls) <= 1.
Proof.
  unfold keepAssistant. destruct (0 <? _); [simpl; lia|].
  destruct (hasTextContent m); simpl; lia.
Qed.

Lemma secondPass_length C R ms : forall (a : gset string),
  length (secondPass C R a ms) <= length ms.
Proof.
  induction ms as [|m ms IH]; intros a; simpl; [lia|].
  destruct (assistantToolCalls m) as [calls|].
  - rewrite length_app. pose proof (keepAssistant_length R m calls).
    specialize (IH a). lia.
  - destruct (toolResponseId m) as [i|].
    + destruct (_ && _); simpl.
      * specialize (IH (a ∪ {[i]})). lia.
      * specialize (IH a). lia.
    + simpl. specialize (IH a). lia.
Qed.

Lemma promptMessages_keepAssistant ids m calls :
  assistantToolCalls m = Some calls ->
  promptMessages (keepAssistant ids m calls) = [].
Proof.
  intros Hm.
  assert (role m = assistant) as Hr.
  { unfold assistantToolCalls in Hm. destruct (role m); congruence. }
  unfold keepAssistant, promptMessages.
  destruct (0 <? _); [|destruct (hasTextContent m)];
    cbn [List.filter with_tool_calls role]; rewrite ?Hr; reflexivity.
Qed.

Lemma promptMessages_app l1 l2 :
  promptMessages (l1 ++ l2) = promptMessages l1 ++ promptMessages l2.
Proof. apply List.filter_app. Qed.

Lemma promptMessages_secondPass C R ms : forall (a : gset string),
  promptMessages (secondPass C R a ms) = promptMessages ms.
Proof.
  induction ms as [|m ms IH]; intros a; simpl; [reflexivity|].
  destruct (assistantToolCalls m) as [calls|] eqn:Em.
  - rewrite promptMessages_app, (promptMessages_keepAssistant _ _ _ Em), IH.
    unfold assistantToolCalls in Em.
    destruct (role m) eqn:Hr; try discriminate.
    unfold promptMessages. cbn [List.filter app]. reflexivity.
  - destruct (toolResponseId m) as [i|] eqn:Ei.
    + assert (role m = tool) as Hr.
      { unfold toolResponseId in Ei. destruct (role m); congruence. }
      destruct (_ && _); cbn [promptMessages List.filter];
        rewrite Hr; cbn; apply IH.
    + cbn [promptMessages List.filter].
      destruct (_ || _); [f_equal|]; apply IH.
Qed.

(** [cleanOrphanedToolCalls] only removes: the system and user messages
    are all kept, unchanged and in order; every message of the result is a
    message of the input with, at most, some of its tool calls taken away;
    and the result is no longer than the input. *)
Theorem cleanup_only_removes (messages : list Message) :
  promptMessages (cleanOrphanedToolCalls messages) = promptMessages messages
  /\ (forall kept, kept ∈ cleanOrphanedToolCalls messages ->
        exists message, message ∈ messages /\ keptFrom message kept)
  /\ length (cleanOrphanedToolCalls messages) <= length messages.
Proof.
  rewrite clean_eq_secondPass. split; [|split].
  - apply promptMessages_secondPass.
  - intros kept Hk.
    destruct (secondPass_inv _ _ _ _ _ Hk)
      as [(m & calls & Hin & Hm & Hkeep)|(Hin & _ & _)].
    + exists m. split; [assumption|].
      exact (keepAssistant_keptFrom _ _ _ _ Hm Hkeep).
    + exists kept. split; [assumption|apply keptFrom_refl].
  - apply secondPass_length.
Qed.

(** The lists [cleanOrphanedToolCalls] leaves alone are exactly the tidy
    ones: every tool call answered, every tool response with an id matched
    by a call, and no id answered twice. *)
Theorem cleanup_fixed_points (messages : list Message) :
  cleanOrphanedToolCalls messages = messages <-> tidy messages.
Proof.
  split.
  - intros H. rewrite <- H. apply clean_tidy.
  - apply tidy_clean_id.
Qed.

End ConversationFacts.

Module ConversionFacts.
Import OpenAI Conversation HygieneFacts ConversationFacts.

Lemma mergeLoop_keeps_head rest : forall last,
  role last <> assistant -> exists t, mergeLoop last rest = last :: t.
Proof.
  destruct rest as [|m rest]; intros last Hr; cbn [mergeLoop]; [eauto|].
  rewrite (bool_decide_eq_false_2 _ Hr), andb_false_r. eauto.
Qed.

Lemma omap_map_same {A B} (g : A -> option B) (f : A -> A) (l : list A) :
  (forall x, g (f x) = g x) -> omap g (map f l) = omap g l.
Proof.
  intros H. induction l as [|x l IH]; [reflexivity|]. cbn [map].
  change (omap g (f x :: map f l))
    with (match g (f x) with
          | Some y => y :: omap g (map f l)
          | None => omap g (map f l)
          end).
  change (omap g (x :: l))
    with (match g x with Some y => y :: omap g l | None => omap g l end).
  now rewrite H, IH.
Qed.

Lemma flat_map_map_same {A B} (g : A -> list B) (f : A -> A) (l : list A) :
  (forall x, g (f x) = g x) -> flat_map g (map f l) = flat_map g l.
Proof.
  intros H. induction l as [|x l IH]; [reflexivity|].
  simpl. now rewrite H, IH.
Qed.

Lemma adjacent_map_same (f : Message -> Message) (l : list Message) :
  (forall x, role (f x) = role x) ->
  adjacentAssistants (map f l) = adjacentAssistants l.
Proof.
  intros H. induction l as [|x l IH]; [reflexivity|].
  cbn [map adjacentAssistants]. rewrite IH. f_equal.
  destruct l as [|y l]; [reflexivity|]. cbn [map]. now rewrite !H.
Qed.

Lemma deepseek_calls messages :
  allCalls (OpenAIConvert.addReasoningContentForDeepSeek messages)
  = allCalls messages.
Proof.
  apply flat_map_map_same. intros m. unfold assistantToolCalls.
  destruct (role m) eqn:E; cbn [role]; rewrite ?E; reflexivity.
Qed.

Lemma deepseek_responseIds messages :
  responseIdList (OpenAIConvert.addReasoningContentForDeepSeek messages)
  = responseIdList messages.
Proof.
  apply omap_map_same. intros m. unfold toolResponseId.
  destruct (role m) eqn:E; cbn [role]; rewrite ?E; reflexivity.
Qed.

Lemma deepseek_tidy messages :
  tidy messages -> tidy (OpenAIConvert.addReasoningContentForDeepSeek messages).
Proof.
  intros (Hv & Hnd & Hin).
  assert (collectToolResponseIds
            (OpenAIConvert.addReasoningContentForDeepSeek messages)
          = collectToolResponseIds messages) as HR.
  { apply set_eq. intros x.
    now rewrite !elem_collectToolResponseIds, deepseek_responseIds. }
  assert (collectToolCallIds
            (OpenAIConvert.addReasoningContentForDeepSeek messages)
          = collectToolCallIds messages) as HC.
  { apply set_eq. intros x.
    now rewrite !elem_collectToolCallIds, deepseek_calls. }
  unfold tidy. rewrite HR, HC, deepseek_responseIds.
  split; [|now split].
  unfold OpenAIConvert.addReasoningContentForDeepSeek.
  apply Forall_fmap. eapply Forall_impl; [exact Hv|].
  intros m Hm calls Hcalls. apply Hm.
  cbn in Hcalls. unfold assistantToolCalls in Hcalls |- *.
  destruct (role m) eqn:E; cbn [role] in Hcalls; rewrite ?E in Hcalls;
    exact Hcalls.
Qed.

Lemma deepseek_adjacent messages :
  adjacentAssistants (OpenAIConvert.addReasoningContentForDeepSeek messages)
  = adjacentAssistants messages.
Proof.
  apply adjacent_map_same. intros m.
  destruct (role m) eqn:E; cbn [role]; rewrite ?E; reflexivity.
Qed.

(** The message list [convertToOpenAIFormat] sends is always tidy (every
    tool call is answered by a tool message, every tool message with an id
    answers a call, no id is answered twice) and has no two assistant
    messages side by side; a non-empty system text is sent first; and for a
    DeepSeek reasoner model every assistant message carries an empty
    [reasoning_content]. *)
Theorem converted_messages_are_well_formed {L : JsonLib}
    (model : string) (request : GenerateContentParameters) :
  tidy (OpenAIConvert.convertToOpenAIFormat model request)
  /\ adjacentAssistants (OpenAIConvert.convertToOpenAIFormat model request)
     = false
  /\ (forall systemMessage,
        OpenAIConvert.systemMessages request = [systemMessage] ->
        exists rest,
          OpenAIConvert.convertToOpenAIFormat model request
          = systemMessage :: rest)
  /\ (OpenAIConvert.isDeepSeekReasonerModel model = true ->
      forall message,
        message ∈ OpenAIConvert.convertToOpenAIFormat model request ->
        role message = assistant -> reasoning_content message = Some "").
Proof.
  unfold OpenAIConvert.convertToOpenAIFormat.
  set (messages := OpenAIConvert.systemMessages request
                   ++ OpenAIConvert.contentMessages (contents request)).
  assert (tidy (hygienePass messages)) as Ht
    by apply merge_tidy, clean_tidy.
  assert (adjacentAssistants (hygienePass messages) = false) as Ha
    by apply merge_separates_assistants.
  split; [|split; [|split]].
  - destruct (OpenAIConvert.isDeepSeekReasonerModel model);
      [now apply deepseek_tidy|assumption].
  - destruct (OpenAIConvert.isDeepSeekReasonerModel model);
      [now rewrite deepseek_adjacent|assumption].
  - intros systemMessage Hs.
    assert (role systemMessage = system) as Hr.
    { unfold OpenAIConvert.systemMessages in Hs.
      destruct (config request ≫= systemInstruction); [|discriminate].
      destruct (Js.nonempty _); [|discriminate]. now injection Hs as <-. }
    assert (exists rest, hygienePass messages = systemMessage :: rest)
      as (rest & Hh).
    { unfold hygienePass, messages. rewrite Hs, clean_eq_secondPass.
      cbn [app secondPass].
      unfold assistantToolCalls, toolResponseId. rewrite Hr.
      cbn [mergeConsecutiveAssistantMessages].
      apply mergeLoop_keeps_head. rewrite Hr. discriminate. }
    rewrite Hh. destruct (OpenAIConvert.isDeepSeekReasonerModel model);
      [|eauto].
    unfold OpenAIConvert.addReasoningContentForDeepSeek. cbn [map].
    rewrite Hr. eauto.
  - intros -> message Hm Hr.
    unfold OpenAIConvert.addReasoningContentForDeepSeek in Hm.
    apply list_elem_of_fmap in Hm as (m0 & -> & _).
    destruct (role m0) eqn:E; cbn [role] in Hr; rewrite ?E in Hr;
      try discriminate.
    reflexivity.
Qed.

End ConversionFacts.

(** ** More on the schema converters *)

Module SchemaMoreFacts.
Import Schema SchemaShape SchemaFacts.


Section FixedFields.
Variable conv : string * json -> string * json.
Hypothesis conv_type : conv ("type", JStr "object") = ("type", JStr "object").
Hypothesis conv_properties :
  conv ("properties", JObj []) = ("properties", JObj []).





End FixedFields.


Lemma ensureRoot_ready fields : rootReady (ensureRoot fields).
Proof.
  unfold ensureRoot.
  set (r1 := match Js.get_field "type" fields with
             | Some (JArr _) => Js.set_field "type" (JStr "object") fields
             | Some v => if Js.truthy v then fields
                         else Js.set_field "type" (JStr "object") fields
             | None => Js.set_field "type" (JStr "object") fields
             end).
  assert (exists t, Js.get_field "type" r1 = Some t /\ Js.truthy t = true
                    /\ forall xs, t <> JArr xs) as (t & Ht & Tt & Hna).
  { subst r1. destruct (Js.get_field "type" fields) as [v|] eqn:Ev.
    - destruct v; try (destruct (Js.truthy _) eqn:Tv);
        try (exists (JStr "object"); rewrite get_field_set_eq;
             repeat split; [discriminate]);
        eexists; (split; [exact Ev|]); split; try exact Tv; try reflexivity;
        discriminate.
    - exists (JStr "object"). rewrite get_field_set_eq.
      repeat split. discriminate. }
  destruct (Js.get_field "properties" r1) as [p|] eqn:Ep.
  - destruct (Js.truthy p) eqn:Tp.
    + exists t, p. auto.
    + exists t, (JObj []). rewrite get_field_set_ne by discriminate.
      rewrite get_field_set_eq. auto.
  - exists t, (JObj []). rewrite get_field_set_ne by discriminate.
    rewrite get_field_set_eq. auto.
Qed.



End SchemaMoreFacts.

Module SchemaIdempotence.
Import Schema SchemaShape SchemaFacts SchemaMoreFacts.

Lemma convertTypesBedrock_object fields :
  convertTypesBedrock (JObj fields)
  = JObj (ensureObjectType (map bedrockEntry fields)).
Proof. reflexivity. Qed.







Section OpenAI.
Context {L : JsonLib}.

Lemma convertTypes_object fields :
  convertTypes (JObj fields) = JObj (ensureObjectType (map openaiEntry fields)).
Proof. reflexivity. Qed.







End OpenAI.

End SchemaIdempotence.

Module SchemaShapeFacts.
Import Schema SchemaShape SchemaFacts SchemaMoreFacts SchemaIdempotence.

(** *** The root of a converted schema *)

(** Whatever is passed as parameters, an array apart, both current
    converters return an object whose [type] is truthy and not an array and
    whose [properties] is truthy. *)
Theorem converted_parameters_have_a_root {L : JsonLib} (parameters : json) :
  (forall xs, parameters <> JArr xs) ->
  (exists fields,
      convertGeminiParametersToOpenAI parameters = JObj fields
      /\ rootReady fields)
  /\ (exists fields,
        convertGeminiParametersToBedrock parameters = JObj fields
        /\ rootReady fields).
Proof.
  intros Hna.
  assert (rootReady [("type", JStr "object"); ("properties", JObj [])]) as Hd.
  { exists (JStr "object"), (JObj []). repeat split. discriminate. }
  destruct parameters as [| b | n | s | xs | fields];
    try (split; (eexists; split; [reflexivity|exact Hd])).
  - now destruct (Hna xs).
  - split.
    + unfold convertGeminiParametersToOpenAI. rewrite convertTypes_object.
      eexists. split; [reflexivity|apply ensureRoot_ready].
    + unfold convertGeminiParametersToBedrock.
      rewrite convertTypesBedrock_object.
      eexists. split; [reflexivity|apply ensureRoot_ready].
Qed.

Lemma converted_parameters_have_a_root_witness :
  exists fields,
    @convertGeminiParametersToOpenAI ReferenceJson.lib Scenarios.nullableSchema
    = JObj fields
    /\ rootReady fields.
Proof.
  apply (@converted_parameters_have_a_root ReferenceJson.lib
           Scenarios.nullableSchema).
  intros xs. discriminate.
Defined.

(** *** The keys of a converted schema *)









End SchemaShapeFacts.

Module LegacySchemaFacts.
Import Schema SchemaShape SchemaFacts.

Lemma traverse_object fields :
  traverse (JObj fields)
  = JObj (flat_map
            (fun kv =>
               if String.eqb (fst kv) "additionalProperties" then []
               else
                 [(fst kv,
                   if String.eqb (fst kv) "type" then
                     match snd kv with
                     | JArr entries =>
                         match List.find isNotNullName (map traverse entries) with
                         | Some t => if Js.truthy t then t else JStr "string"
                         | None => JStr "string"
                         end
                     | _ => traverse (snd kv)
                     end
                   else traverse (snd kv))])
            fields).
Proof. reflexivity. Qed.

Lemma traverse_array xs : traverse (JArr xs) = JArr (map traverse xs).
Proof. reflexivity. Qed.

Lemma existsb_map_false {A B} (g : B -> bool) (f : A -> B) (xs : list A) :
  Forall (fun x => g (f x) = false) xs -> existsb g (map f xs) = false.
Proof.
  induction 1 as [|x xs Hx _ IH]; [reflexivity|].
  cbn [map existsb]. now rewrite Hx, IH.
Qed.

Lemma existsb_false_In {A} (g : A -> bool) (xs : list A) x :
  existsb g xs = false -> In x xs -> g x = false.
Proof.
  intros H Hin. destruct (g x) eqn:E; [|reflexivity].
  assert (existsb g xs = true) by (apply existsb_exists; eauto). congruence.
Qed.

(** [traverse] leaves no [additionalProperties] key at any depth. *)
Lemma traverse_removes_additionalProperties j :
  mentionsKey "additionalProperties" (traverse j) = false.
Proof.
  induction j as [| b | n | s | xs IH | fields IH] using json_tree_ind;
    try reflexivity.
  - rewrite traverse_array. cbn [mentionsKey]. now apply existsb_map_false.
  - rewrite traverse_object. cbn [mentionsKey].
    induction fields as [|[k v] fields IHf]; [reflexivity|].
    apply Forall_cons in IH as [IHv IH]. cbn [fst snd] in IHv.
    cbn [flat_map fst snd]. rewrite existsb_app, (IHf IH), orb_false_r.
    destruct (String.eqb k "additionalProperties") eqn:Ek; [reflexivity|].
    cbn [existsb fst snd]. rewrite Ek, orb_false_r. cbn [orb].
    destruct (String.eqb k "type"); [|exact IHv].
    destruct v as [| | | | entries |]; try exact IHv.
    rewrite traverse_array in IHv. cbn [mentionsKey] in IHv.
    destruct (List.find isNotNullName (map traverse entries)) as [t|] eqn:Ef;
      [|reflexivity].
    destruct (Js.truthy t); [|reflexivity].
    apply find_some in Ef as [Hin _].
    exact (existsb_false_In _ _ _ IHv Hin).
Qed.

(** [sanitizeJsonSchema] of the first Bedrock adapter.  When the root has
    no [type], a falsy one or ["object"], the result has no
    [additionalProperties] key at any depth.  With any other root [type]
    the schema is not sanitized at all: it is returned as it is, as the one
    property of a wrapper object. *)
Theorem sanitizeJsonSchema_strips_additionalProperties
    (schema : list (string * json)) :
  ((forall v, Js.get_field "type" schema = Some v -> Js.truthy v = true ->
              v = JStr "object") ->
   mentionsKey "additionalProperties" (sanitizeJsonSchema schema) = false)
  /\ (forall v, Js.get_field "type" schema = Some v -> Js.truthy v = true ->
                v <> JStr "object" ->
                sanitizeJsonSchema schema = wrappedSchema (JObj schema)).
Proof.
  unfold sanitizeJsonSchema. split.
  - intros Hroot. destruct (Js.get_field "type" schema) as [v|];
      [|apply traverse_removes_additionalProperties].
    destruct (Js.truthy v) eqn:Tv; cbn [negb];
      [|apply traverse_removes_additionalProperties].
    pose proof (Hroot v eq_refl Tv) as ->.
    apply traverse_removes_additionalProperties.
  - intros v -> Tv Hne. rewrite Tv. cbn [negb].
    destruct v as [| | | s | |]; try reflexivity.
    destruct (String.eqb_spec s "object") as [->|Hs]; [congruence|].
    destruct s as [|c s]; [discriminate|].
    unfold wrappedSchema.
    repeat match goal with
           | |- match ?x with _ => _ end = _ => destruct x; try reflexivity
           | H : _ <> _ |- _ => try (exfalso; apply H; reflexivity)
           end.
Qed.

(** The two cases at a schema with an [additionalProperties] key. *)
Lemma sanitizeJsonSchema_strips_additionalProperties_witness :
  mentionsKey "additionalProperties"
    (sanitizeJsonSchema
       [("type", JStr "object"); ("additionalProperties", JBool false)])
  = false
  /\ sanitizeJsonSchema
       [("type", JStr "string"); ("additionalProperties", JBool false)]
     = wrappedSchema
         (JObj [("type", JStr "string"); ("additionalProperties", JBool false)]).
Proof.
  split.
  - apply (sanitizeJsonSchema_strips_additionalProperties
             [("type", JStr "object"); ("additionalProperties", JBool false)]).
    intros v Hv _. cbn in Hv. congruence.
  - apply (proj2 (sanitizeJsonSchema_strips_additionalProperties
                    [("type", JStr "string");
                     ("additionalProperties", JBool false)])
             (JStr "string")); [reflexivity|reflexivity|discriminate].
Defined.

End LegacySchemaFacts.

(** ** Whole streams *)

Module BedrockStreamMoreFacts.
Import BedrockEvents Bedrock StreamShape BedrockStreamFacts.
Section WithJsonLib.
Context {L : JsonLib}.

Lemma callParts_app r1 r2 : callParts (r1 ++ r2) = callParts r1 ++ callParts r2.
Proof. unfold callParts. now rewrite flat_map_app, List.filter_app. Qed.

Lemma textsOf_app r1 r2 : textsOf (r1 ++ r2) = textsOf r1 ++ textsOf r2.
Proof. unfold textsOf. now rewrite flat_map_app, omap_app. Qed.

(** One turn of the loop never throws; it yields the event's text delta
    and nothing else as text, a tool call only on a block stop, and changes
    the counters only on a [metadata] event. *)
Lemma step_shape st event :
  exists st' out,
    step st event = Returns (st', out)
    /\ textsOf out = deltaTexts [event]
    /\ length (callParts out) <= blockStops [event]
    /\ (inputTokensSeen st', outputTokensSeen st')
       = tokensSeen (inputTokensSeen st, outputTokensSeen st) [event].
Proof.
  destruct event as [index toolUse | index delta | index | reason | usage |];
    cbn [step].
  - destruct toolUse; eexists _, _; (split; [reflexivity|]);
      repeat split; cbn; lia.
  - destruct delta as [[t | input |]|].
    + unfold deltaTexts. cbn [flat_map].
      destruct (Js.nonempty t); eexists _, _; (split; [reflexivity|]);
        repeat split; cbn; lia.
    + destruct (JsMap.get _ _); eexists _, _; (split; [reflexivity|]);
        repeat split; cbn; lia.
    + eexists _, _; (split; [reflexivity|]); repeat split; cbn; lia.
    + eexists _, _; (split; [reflexivity|]); repeat split; cbn; lia.
  - destruct (JsMap.get _ _) as [acc|];
      [|eexists _, _; (split; [reflexivity|]); repeat split; cbn; lia].
    destruct (acc_name acc) as [callName|];
      [|eexists _, _; (split; [reflexivity|]); repeat split; cbn; lia].
    destruct (Js.nonempty callName);
      [|eexists _, _; (split; [reflexivity|]); repeat split; cbn; lia].
    destruct (SafeJsonFacts.safeJsonParse_returns (JStr (acc_input acc))
                (JObj [])) as [args ->].
    cbn [bind]. eexists _, _; (split; [reflexivity|]); repeat split; cbn; lia.
  - eexists _, _; (split; [reflexivity|]); repeat split; cbn; lia.
  - eexists _, _; (split; [reflexivity|]); repeat split; cbn; lia.
  - eexists _, _; (split; [reflexivity|]); repeat split; cbn; lia.
Qed.

Lemma deltaTexts_cons event events :
  deltaTexts (event :: events) = deltaTexts [event] ++ deltaTexts events.
Proof. unfold deltaTexts. cbn [flat_map]. now rewrite app_nil_r. Qed.

Lemma blockStops_cons event events :
  blockStops (event :: events) = blockStops [event] + blockStops events.
Proof.
  unfold blockStops. cbn [List.filter].
  destruct event; cbn [length]; lia.
Qed.

Lemma steps_shape events : forall st,
  exists st' outs,
    steps st events = (outs, Returns st')
    /\ textsOf outs = deltaTexts events
    /\ length (callParts outs) <= blockStops events
    /\ (inputTokensSeen st', outputTokensSeen st')
       = tokensSeen (inputTokensSeen st, outputTokensSeen st) events.
Proof.
  induction events as [|event events IH]; intros st.
  - exists st, []. repeat split. cbn. lia.
  - destruct (step_shape st event) as (st1 & out & Hs & Ht & Hc & Hu).
    destruct (IH st1) as (st' & outs & Hss & Hts & Hcs & Hus).
    exists st', (out ++ outs). cbn [steps]. rewrite Hs, Hss.
    split; [reflexivity|]. split; [|split].
    + now rewrite textsOf_app, Ht, Hts, <- deltaTexts_cons.
    + rewrite callParts_app, length_app, blockStops_cons. lia.
    + rewrite Hus. cbn [tokensSeen foldl] in Hu |- *. now rewrite <- Hu.
Qed.

End WithJsonLib.
End BedrockStreamMoreFacts.

Module LegacyStreamFacts.
Import BedrockEvents BedrockLegacy StreamShape.
Section WithJsonLib.
Context {L : JsonLib}.

(** One turn of the loop either goes on, yielding the event's text delta
    and, on a block stop only, a tool call; or it is a block stop whose
    buffer [JSON.parse] rejects, and the turn throws. *)
Lemma legacy_step_shape st event :
  (exists st' out,
      step st event = Returns (st', out)
      /\ textsOf out = deltaTexts [event]
      /\ length (callParts out) <= blockStops [event])
  \/ (exists index callName cause,
        event = contentBlockStop index
        /\ step st event
           = Throws ("Invalid JSON in tool call " +:+ callName +:+ ": "
                     +:+ cause)).
Proof.
  destruct event as [index toolUse | index delta | index | reason | usage |];
    cbn [step].
  - left. destruct toolUse; eexists _, _; (split; [reflexivity|]);
      repeat split; cbn; lia.
  - left. destruct delta as [[t | input |]|].
    + unfold deltaTexts. cbn [flat_map].
      destruct (Js.nonempty t); eexists _, _; (split; [reflexivity|]);
        repeat split; cbn; lia.
    + destruct (JsMap.get _ _); [destruct (Js.truthy_str input)|];
        eexists _, _; (split; [reflexivity|]); repeat split; cbn; lia.
    + eexists _, _; (split; [reflexivity|]); repeat split; cbn; lia.
    + eexists _, _; (split; [reflexivity|]); repeat split; cbn; lia.
  - destruct (JsMap.get _ _) as [acc|];
      [|left; eexists _, _; (split; [reflexivity|]); repeat split; cbn; lia].
    destruct (_ && _);
      [|left; eexists _, _; (split; [reflexivity|]); repeat split; cbn; lia].
    destruct (JSON_parse _) as [args|cause]; cbn [bind try_catch].
    + left. eexists _, _; (split; [reflexivity|]); repeat split; cbn; lia.
    + right. eauto.
  - left. eexists _, _; (split; [reflexivity|]); repeat split; cbn; lia.
  - left. destruct usage; eexists _, _; (split; [reflexivity|]);
      repeat split; cbn; lia.
  - left. eexists _, _; (split; [reflexivity|]); repeat split; cbn; lia.
Qed.

Lemma legacy_steps_shape events : forall st,
  exists outs final,
    steps st events = (outs, final)
    /\ (exists later, deltaTexts events = textsOf outs ++ later)
    /\ length (callParts outs) <= blockStops events
    /\ ((exists st', final = Returns st') -> textsOf outs = deltaTexts events)
    /\ (forall e, final = Throws e ->
          exists callName cause,
            e = "Invalid JSON in tool call " +:+ callName +:+ ": " +:+ cause).
Proof.
  induction events as [|event events IH]; intros st.
  - exists [], (Returns st). split; [reflexivity|].
    split; [now exists []|]. split; [cbn; lia|].
    split; [reflexivity|discriminate].
  - cbn [steps].
    destruct (legacy_step_shape st event)
      as [(st1 & out & -> & Ht & Hc)|(index & callName & cause & -> & ->)].
    + destruct (IH st1) as (outs & final & -> & [later Hl] & Hcs & Hok & Herr).
      exists (out ++ outs), final. split; [reflexivity|].
      rewrite BedrockStreamMoreFacts.textsOf_app,
        BedrockStreamMoreFacts.callParts_app, length_app,
        (BedrockStreamMoreFacts.deltaTexts_cons event),
        (BedrockStreamMoreFacts.blockStops_cons event), Ht.
      split; [exists later; now rewrite Hl, app_assoc|].
      split; [lia|]. split; [|exact Herr].
      intros Hf. now rewrite (Hok Hf).
    + exists [], (Throws ("Invalid JSON in tool call " +:+ callName +:+ ": "
                          +:+ cause)).
      split; [reflexivity|]. split; [now eexists|]. split; [cbn; lia|].
      split; [intros [st' H]; discriminate|].
      intros e H. injection H as <-. eauto.
Qed.

(** The first Bedrock adapter's [streamGenerator]: the texts it yields are
    the first text deltas of the stream, in order, and all of them when the
    stream ends without error; it yields at most one tool-call part per
    block stop; and the only error that ends it is the one raised for a
    tool-call buffer [JSON.parse] rejects. *)
Theorem legacy_stream_fails_only_on_tool_arguments
    (leftover : JsMap.t Accumulated) (events : list Event) :
  (exists later,
      deltaTexts events
      = textsOf (yielded (streamGenerator leftover events)) ++ later)
  /\ length (callParts (yielded (streamGenerator leftover events)))
     <= blockStops events
  /\ (failure (streamGenerator leftover events) = None ->
      textsOf (yielded (streamGenerator leftover events)) = deltaTexts events)
  /\ (forall e, failure (streamGenerator leftover events) = Some e ->
        exists callName cause,
          e = "Invalid JSON in tool call " +:+ callName +:+ ": " +:+ cause).
Proof.
  unfold streamGenerator.
  destruct (legacy_steps_shape events
              {| streamingToolUses := []; currentBlockIndex := 0 |})
    as (outs & final & -> & Hl & Hc & Hok & Herr).
  cbn [yielded failure]. split; [exact Hl|]. split; [exact Hc|]. split.
  - destruct final as [st'|e]; [|discriminate]. intros _. apply Hok. eauto.
  - intros e. destruct final as [st'|e']; [discriminate|].
    intros H. injection H as <-. now apply Herr.
Qed.

End WithJsonLib.
End LegacyStreamFacts.

Module StreamTheorems.
Import BedrockEvents StreamShape.

(** The current Bedrock [streamGenerator] never ends with an error, whatever
    the events and whatever [JSON.parse] and [jsonrepair] do, and the texts
    it yields are exactly the non-empty text deltas of the stream, in
    arrival order. *)
Theorem bedrock_stream_delivers_every_text {L : JsonLib}
    (leftover : JsMap.t Bedrock.Accumulated) (events : list Event) :
  failure (Bedrock.streamGenerator leftover (Some events)) = None
  /\ textsOf (yielded (Bedrock.streamGenerator leftover (Some events)))
     = deltaTexts events.
Proof.
  unfold Bedrock.streamGenerator.
  destruct (BedrockStreamMoreFacts.steps_shape events
              {| Bedrock.streamingToolCalls := [];
                 Bedrock.inputTokensSeen := 0;
                 Bedrock.outputTokensSeen := 0 |})
    as (st' & outs & -> & Ht & _). now split.
Qed.

(** The current Bedrock [streamGenerator] yields at most one tool-call part
    per block-stop event; in particular none while no block has stopped. *)
Theorem bedrock_tool_calls_wait_for_block_stop {L : JsonLib}
    (leftover : JsMap.t Bedrock.Accumulated) (events : list Event) :
  length (callParts (yielded (Bedrock.streamGenerator leftover (Some events))))
  <= blockStops events.
Proof.
  unfold Bedrock.streamGenerator.
  destruct (BedrockStreamMoreFacts.steps_shape events
              {| Bedrock.streamingToolCalls := [];
                 Bedrock.inputTokensSeen := 0;
                 Bedrock.outputTokensSeen := 0 |})
    as (st' & outs & -> & _ & Hc & _). exact Hc.
Qed.

(** On [messageStop] the current Bedrock [streamGenerator] yields one
    response without parts that carries the mapped stop reason and the
    token counts of the last [metadata] event received before it (zero
    when there was none), the total being their sum. *)
Theorem bedrock_message_stop_reports_usage {L : JsonLib}
    (leftover : JsMap.t Bedrock.Accumulated) (events : list Event)
    (stopReason : option string) :
  yielded (Bedrock.streamGenerator leftover
             (Some (events ++ [messageStop stopReason])))
  = yielded (Bedrock.streamGenerator leftover (Some events))
    ++ [ Bedrock.createStreamResponse []
           (BedrockFinish.mapStopReason stopReason)
           (Some {| Usage.promptTokenCount := fst (tokensSeen (0, 0)%Z events);
                    Usage.candidatesTokenCount :=
                      snd (tokensSeen (0, 0)%Z events);
                    Usage.totalTokenCount :=
                      (fst (tokensSeen (0, 0)%Z events)
                       + snd (tokensSeen (0, 0)%Z events))%Z;
                    Usage.cachedContentTokenCount := None |}) ].
Proof.
  unfold Bedrock.streamGenerator.
  destruct (BedrockStreamMoreFacts.steps_shape events
              {| Bedrock.streamingToolCalls := [];
                 Bedrock.inputTokensSeen := 0;
                 Bedrock.outputTokensSeen := 0 |})
    as (st' & outs & Hs & _ & _ & Hu).
  rewrite (BedrockStreamFacts.bedrock_steps_app _ _ _ _ _ Hs), Hs.
  cbn [Bedrock.steps Bedrock.step fst snd yielded app].
  cbn [Bedrock.inputTokensSeen Bedrock.outputTokensSeen] in Hu.
  rewrite <- Hu. reflexivity.
Qed.

Import OpenAIResponses.

Lemma convert_returns {L : JsonLib} st chunk b :
  exists st' response,
    convertStreamChunkToGeminiFormat st chunk b = Returns (st', response).
Proof.
  destruct (isFinishing chunk) eqn:E.
  - destruct (OpenAIStreamFacts.convert_final st chunk b E)
      as (parts & reason & -> & _). eauto.
  - destruct (OpenAIStreamFacts.convert_nonfinal st chunk b E)
      as (st' & -> & _). eauto.
Qed.

Lemma openai_steps_total {L : JsonLib} b chunks : forall st,
  exists st' outs,
    steps st b chunks = (outs, Returns st') /\ length outs = length chunks.
Proof.
  induction chunks as [|chunk chunks IH]; intros st; cbn [steps].
  - eauto.
  - destruct (convert_returns st chunk b) as (st1 & response & ->).
    destruct (IH st1) as (st' & outs & -> & Hl).
    exists st', (response :: outs). cbn [length]. auto.
Qed.

(** The OpenAI [streamGenerator] never ends with an error and answers
    every chunk with exactly one response, whatever the chunks and whatever
    [JSON.parse] and [jsonrepair] do. *)
Theorem openai_stream_answers_every_chunk {L : JsonLib}
    (leftover : State) (chunks : list Chunk) (isJsonSchemaRequest : bool) :
  failure (streamGenerator leftover chunks isJsonSchemaRequest) = None
  /\ length (yielded (streamGenerator leftover chunks isJsonSchemaRequest))
     = length chunks.
Proof.
  unfold streamGenerator.
  destruct (openai_steps_total isJsonSchemaRequest chunks
              {| streamingToolCalls := [];
                 streamingReasoningDetails := None |})
    as (st' & outs & -> & Hl). now split.
Qed.

(** The chunk that carries a finish reason empties the accumulators: the
    chunks after it are answered as those of a new stream. *)
Theorem openai_stream_restarts_after_finish {L : JsonLib}
    (leftover : State) (chunks : list Chunk) (fin : Chunk)
    (more : list Chunk) (isJsonSchemaRequest : bool) :
  isFinishing fin = true ->
  yielded (streamGenerator leftover (chunks ++ fin :: more) isJsonSchemaRequest)
  = yielded (streamGenerator leftover (chunks ++ [fin]) isJsonSchemaRequest)
    ++ yielded (streamGenerator leftover more isJsonSchemaRequest).
Proof.
  intros Hf. unfold streamGenerator.
  set (start := {| streamingToolCalls := [];
                   streamingReasoningDetails := None |}).
  destruct (openai_steps_total isJsonSchemaRequest chunks start)
    as (st1 & outs1 & H1 & _).
  destruct (OpenAIStreamFacts.convert_final st1 fin isJsonSchemaRequest Hf)
    as (parts & reason & Hfin & _).
  destruct (openai_steps_total isJsonSchemaRequest more start)
    as (st2 & outs2 & H2 & _).
  rewrite !(OpenAIStreamFacts.openai_steps_app _ _ _ _ _ _ H1).
  cbn [steps]. rewrite Hfin. fold start. rewrite H2.
  cbn [fst snd yielded]. now rewrite <- app_assoc.
Qed.

Lemma openai_stream_restarts_after_finish_witness :
  yielded (@streamGenerator ReferenceJson.lib Scenarios.emptyState
             (Scenarios.openaiToolChunks "list_directory"
              ++ Scenarios.openaiFinish
                 :: Scenarios.openaiToolChunks "read_file")
             false)
  = yielded (@streamGenerator ReferenceJson.lib Scenarios.emptyState
               (Scenarios.openaiToolChunks "list_directory"
                ++ [Scenarios.openaiFinish]) false)
    ++ yielded (@streamGenerator ReferenceJson.lib Scenarios.emptyState
                  (Scenarios.openaiToolChunks "read_file") false).
Proof.
  apply (@openai_stream_restarts_after_finish ReferenceJson.lib).
  reflexivity.
Defined.

End StreamTheorems.

Module BlockingFacts.
Import OpenAIResponses StreamShape BlockingShape.
Section WithJsonLib.
Context {L : JsonLib}.

Lemma attachToFirstCall_erased details parts :
  map eraseSignature (attachToFirstCall details parts)
  = map eraseSignature parts.
Proof.
  induction parts as [|[t | id callName args signature] parts IH];
    [reflexivity| |reflexivity].
  cbn [attachToFirstCall map eraseSignature]. now rewrite IH.
Qed.

Lemma decodeToolCall_shape b parts toolCall :
  exists added,
    decodeToolCall b parts toolCall = Returns (parts ++ added)
    /\ length added <= 1.
Proof.
  unfold decodeToolCall.
  destruct (rtc_function toolCall) as [function|];
    [|exists []; rewrite app_nil_r; split; [reflexivity|cbn; lia]].
  destruct (String.eqb (rtc_type toolCall) "function");
    [|exists []; rewrite app_nil_r; split; [reflexivity|cbn; lia]].
  rewrite OpenAIStreamFacts.parseArguments_returns. cbn [bind].
  destruct (b && String.eqb (rf_name function) "respond_in_schema");
    eexists; (split; [reflexivity|cbn; lia]).
Qed.

Lemma decodeToolCalls_shape b toolCalls : forall parts,
  exists added,
    decodeToolCalls b parts toolCalls = Returns (parts ++ added)
    /\ length added <= length toolCalls.
Proof.
  induction toolCalls as [|toolCall toolCalls IH]; intros parts;
    cbn [decodeToolCalls].
  - exists []. rewrite app_nil_r. split; [reflexivity|cbn; lia].
  - destruct (decodeToolCall_shape b parts toolCall) as (a1 & -> & H1).
    cbn [bind]. destruct (IH (parts ++ a1)) as (a2 & -> & H2).
    exists (a1 ++ a2). rewrite app_assoc, length_app. split; [reflexivity|].
    cbn [length]. lia.
Qed.

(** The blocking [convertToGeminiFormat] throws when the completion has no
    choice, and only then.  With a first choice, the response has at most
    one part for the message text, the first, and at most one per tool
    call; [reasoning_details] change nothing but thought signatures; and a
    choice without finish reason is reported as [STOP]. *)
Theorem blocking_conversion_needs_a_choice
    (openaiResponse : ChatCompletion) (isJsonSchemaRequest : bool) :
  (choices openaiResponse = [] <->
   exists error,
     convertToGeminiFormat openaiResponse isJsonSchemaRequest = Throws error)
  /\ forall choice others,
      choices openaiResponse = choice :: others ->
      exists response bare,
        convertToGeminiFormat openaiResponse isJsonSchemaRequest
        = Returns response
        /\ convertToGeminiFormat (withoutReasoningDetails openaiResponse)
             isJsonSchemaRequest = Returns bare
        /\ map eraseSignature (responseParts response)
           = map eraseSignature (responseParts bare)
        /\ length (responseParts response)
           <= 1 + length (default [] (message_tool_calls choice))
        /\ (forall t, message_content choice = Some t -> t <> "" ->
              exists rest, responseParts response = TextPart t :: rest)
        /\ (Js.truthy_str (completion_finish_reason choice) = false ->
            exists parts, candidate response = Some (parts, OwnValue STOP)).
Proof.
  assert (forall choice others,
            choices openaiResponse = choice :: others ->
            exists response bare,
              convertToGeminiFormat openaiResponse isJsonSchemaRequest
              = Returns response
              /\ convertToGeminiFormat (withoutReasoningDetails openaiResponse)
                   isJsonSchemaRequest = Returns bare
              /\ map eraseSignature (responseParts response)
                 = map eraseSignature (responseParts bare)
              /\ length (responseParts response)
                 <= 1 + length (default [] (message_tool_calls choice))
              /\ (forall t, message_content choice = Some t -> t <> "" ->
                    exists rest, responseParts response = TextPart t :: rest)
              /\ (Js.truthy_str (completion_finish_reason choice) = false ->
                  exists parts,
                    candidate response = Some (parts, OwnValue STOP)))
    as Hchoice.
  { intros choice others Hc.
    unfold convertToGeminiFormat.
    cbn [withoutReasoningDetails choices completion_usage].
    rewrite Hc. cbn [map message_content message_tool_calls
      message_reasoning_details completion_finish_reason validSignature].
    set (textParts := match message_content choice with
                      | Some t => if Js.nonempty t then [TextPart t] else []
                      | None => []
                      end).
    assert (length textParts <= 1) as Htext.
    { subst textParts. destruct (message_content choice) as [t|];
        [destruct (Js.nonempty t)|]; cbn; lia. }
    assert (exists added,
              match message_tool_calls choice with
              | Some toolCalls =>
                  decodeToolCalls isJsonSchemaRequest textParts toolCalls
              | None => Returns textParts
              end = Returns (textParts ++ added)
              /\ length added
                 <= length (default [] (message_tool_calls choice)))
      as (added & -> & Hadded).
    { destruct (message_tool_calls choice) as [toolCalls|].
      - apply decodeToolCalls_shape.
      - exists []. rewrite app_nil_r. split; [reflexivity|cbn; lia]. }
    cbn [bind]. eexists _, _. split; [reflexivity|]. split; [reflexivity|].
    unfold responseParts. cbn [candidate].
    split; [|split; [|split]].
    - destruct (validSignature _); [apply attachToFirstCall_erased|reflexivity].
    - assert (forall d ps, length (attachToFirstCall d ps) = length ps) as Hlen.
      { intros d ps. rewrite <- (length_map eraseSignature),
          attachToFirstCall_erased. apply length_map. }
      destruct (validSignature _); rewrite ?Hlen, length_app; lia.
    - intros t Ht Hne. subst textParts. rewrite Ht.
      apply JsFacts.nonempty_true in Hne. rewrite Hne.
      destruct (validSignature _); cbn [app attachToFirstCall]; eauto.
    - intros Hf. eexists. f_equal. f_equal.
      destruct (completion_finish_reason choice) as [r|];
        cbn [Js.truthy_str Js.str_or] in Hf |- *; [rewrite Hf|]; reflexivity. }
  split; [|exact Hchoice].
  split.
  - intros Hnone. unfold convertToGeminiFormat. rewrite Hnone. eauto.
  - intros [error Herror].
    destruct (choices openaiResponse) as [|choice others] eqn:Hc;
      [reflexivity|].
    destruct (Hchoice choice others eq_refl) as (response & _ & Hr & _).
    congruence.
Qed.

End WithJsonLib.
End BlockingFacts.

(** ** The requests the Anthropic adapter sends *)

Module AnthropicMessageFacts.
Import Anthropic AnthropicShape.

Lemma alternateLoop_head rest : forall last,
  exists h t, alternateLoop last rest = h :: t /\ role h = role last.
Proof.
  induction rest as [|m rest IH]; intros last; cbn [alternateLoop].
  - eauto.
  - destruct (String.eqb (role last) (role m)); [|eauto].
    destruct (IH {| role := role last;
                    content :=
                      match content last, content m with
                      | ContentText a, ContentText b =>
                          ContentText (a +:+ String Js.LF EmptyString +:+ b)
                      | lastContent, newContent =>
                          ContentBlocks (asBlocks lastContent
                                         ++ asBlocks newContent)
                      end |}) as (h & t & -> & Hr).
    eauto.
Qed.

Lemma alternateLoop_separates rest : forall last,
  adjacentSameRole (alternateLoop last rest) = false.
Proof.
  induction rest as [|m rest IH]; intros last; cbn [alternateLoop];
    [reflexivity|].
  destruct (String.eqb (role last) (role m)) eqn:E; [apply IH|].
  specialize (IH m).
  destruct (alternateLoop_head rest m) as (h & t & Hht & Hr).
  rewrite Hht in IH |- *. cbn [adjacentSameRole] in IH |- *.
  now rewrite IH, Hr, E.
Qed.

Lemma alternateLoop_fixed rest : forall last,
  adjacentSameRole (last :: rest) = false ->
  alternateLoop last rest = last :: rest.
Proof.
  induction rest as [|m rest IH]; intros last H; [reflexivity|].
  cbn [adjacentSameRole] in H. apply orb_false_iff in H as [E H].
  cbn [alternateLoop]. rewrite E. f_equal. now apply IH.
Qed.

Lemma alternateLoop_roles (P : string -> Prop) rest : forall last,
  P (role last) -> Forall (fun m => P (role m)) rest ->
  Forall (fun m => P (role m)) (alternateLoop last rest).
Proof.
  induction rest as [|m rest IH]; intros last Hl Hr; cbn [alternateLoop].
  - now constructor.
  - apply Forall_cons in Hr as [Hm Hr].
    destruct (String.eqb (role last) (role m)).
    + now apply IH.
    + constructor; [assumption|]. now apply IH.
Qed.

(** What [ensureAlternatingMessages] returns begins with a user message
    (unless there is no message at all) and never has two messages of the
    same role side by side. *)
Theorem ensureAlternatingMessages_alternates (messages : list MessageParam) :
  adjacentSameRole (ensureAlternatingMessages messages) = false
  /\ (messages <> [] ->
      exists first rest,
        ensureAlternatingMessages messages = first :: rest
        /\ role first = "user").
Proof.
  destruct messages as [|first rest]; [split; [reflexivity|congruence]|].
  cbn [ensureAlternatingMessages].
  pose proof (alternateLoop_separates rest first) as Hsep.
  destruct (alternateLoop_head rest first) as (h & t & Hht & _).
  rewrite Hht in Hsep |- *.
  destruct (String.eqb_spec (role h) "user") as [Hu|Hu].
  - split; [exact Hsep|eauto].
  - split; [|intros _; eauto].
    cbn [adjacentSameRole] in Hsep |- *. cbn [role].
    rewrite Hsep, orb_false_r.
    destruct (String.eqb_spec "user" (role h)); congruence.
Qed.

(** Applying [ensureAlternatingMessages] twice is applying it once. *)
Theorem ensureAlternatingMessages_idempotent (messages : list MessageParam) :
  ensureAlternatingMessages (ensureAlternatingMessages messages)
  = ensureAlternatingMessages messages.
Proof.
  destruct (ensureAlternatingMessages_alternates messages) as [Hsep Hfirst].
  destruct messages as [|m ms]; [reflexivity|].
  destruct Hfirst as (first & rest & Hr & Hu); [discriminate|].
  rewrite Hr in Hsep |- *. cbn [ensureAlternatingMessages].
  rewrite (alternateLoop_fixed _ _ Hsep), Hu. reflexivity.
Qed.

Lemma alternating_pattern (messages : list MessageParam) :
  forall userFirst : bool,
  Forall (fun m => role m = "user" \/ role m = "assistant") messages ->
  adjacentSameRole messages = false ->
  (forall first rest, messages = first :: rest ->
     role first = (if userFirst then "user" else "assistant")) ->
  map role messages = alternatingRoles userFirst (length messages).
Proof.
  induction messages as [|m ms IH]; intros userFirst Hroles Hsep Hfirst;
    [reflexivity|].
  apply Forall_cons in Hroles as [Hm Hroles].
  cbn [adjacentSameRole] in Hsep. apply orb_false_iff in Hsep as [E Hsep].
  cbn [map length alternatingRoles].
  rewrite (Hfirst m ms eq_refl). f_equal.
  apply IH; [assumption..|].
  intros first rest ->. apply Forall_cons in Hroles as [Hf _].
  apply String.eqb_neq in E. rewrite (Hfirst m _ eq_refl) in E.
  destruct userFirst; cbn [negb]; destruct Hf; congruence.
Qed.

End AnthropicMessageFacts.

Module AnthropicRequestFacts.
Import Anthropic AnthropicShape AnthropicMessageFacts.

Section WithAdapter.
Context {L : JsonLib} {A : Adapter}.

Lemma processContentParts_role contentRole parts :
  fst (processContentParts contentRole parts) = "user"
  \/ fst (processContentParts contentRole parts) = "assistant".
Proof.
  unfold processContentParts. destruct (foldl _ _ _) as [blocks responses].
  cbn [fst]. destruct (String.eqb contentRole "model"); auto.
Qed.

Lemma ensureAlternatingMessages_roles messages :
  Forall (fun m => role m = "user" \/ role m = "assistant") messages ->
  Forall (fun m => role m = "user" \/ role m = "assistant")
         (ensureAlternatingMessages messages).
Proof.
  intros H. destruct messages as [|first rest]; [constructor|].
  apply Forall_cons in H as [Hf Hr]. cbn [ensureAlternatingMessages].
  pose proof (alternateLoop_roles
                (fun r => r = "user" \/ r = "assistant") rest first Hf Hr) as Hl.
  destruct (alternateLoop first rest) as [|h t]; [constructor|].
  destruct (String.eqb (role h) "user"); [exact Hl|].
  constructor; [now left|exact Hl].
Qed.

(** The messages [convertToAnthropicFormat] returns take turns: user,
    assistant, user, ... whatever the roles and the order of the contents
    of the request. *)
Lemma converted_messages_take_turns request systemMessage messages :
  convertToAnthropicFormat request = Returns (systemMessage, messages) ->
  map role messages = alternatingRoles true (length messages).
Proof.
  unfold convertToAnthropicFormat.
  destruct (match config request ≫= systemInstruction with
            | Some instruction =>
                let! s := extractSystemInstruction instruction in
                Returns (Some s)
            | None => Returns None
            end) as [sys|e]; cbn [bind]; [|discriminate].
  intros H. injection H as _ <-.
  set (raw := match contents request with
              | ContentsArray items => _
              | ContentsSingle _ => []
              end).
  assert (Forall (fun m => role m = "user" \/ role m = "assistant") raw)
    as Hraw.
  { subst raw. destruct (contents request) as [items|]; [|constructor].
    apply Forall_forall. intros m Hm.
    apply list_elem_of_In, in_flat_map in Hm as (item & _ & Hm).
    destruct item as [s | contentRole parts |]; cbn in Hm.
    - destruct Hm as [<-|[]]. now left.
    - pose proof (processContentParts_role contentRole parts) as Hrole.
      destruct (processContentParts contentRole parts) as [r blocks].
      cbn [fst] in Hrole. destruct blocks; [destruct Hm|].
      destruct Hm as [<-|[]]. exact Hrole.
    - destruct Hm. }
  destruct (ensureAlternatingMessages_alternates raw) as [Hsep Hfirst].
  apply alternating_pattern.
  - now apply ensureAlternatingMessages_roles.
  - exact Hsep.
  - intros first rest Hr.
    destruct raw as [|m ms]; [discriminate|].
    destruct Hfirst as (f & t & Hft & Hu); [discriminate|].
    rewrite Hft in Hr. now injection Hr as <- _.
Qed.

(** A call of [generateContent] that returns has made the SDK call with
    the adapter's model, a [max_tokens] that is not zero, messages that take
    turns beginning with the user, and no empty system prompt; what it
    returns is the conversion of the SDK's answer. *)
Theorem generateContent_sends_a_well_formed_request
    (request : GenerateContentParameters) (userPromptId : string)
    (response : GenerateContentResponse) :
  generateContent request userPromptId = Returns response ->
  exists params completion,
    messages_create params = Returns completion
    /\ response = convertToGeminiFormat completion
    /\ cp_model params = model
    /\ cp_max_tokens params <> 0%Z
    /\ map role (cp_messages params)
       = alternatingRoles true (length (cp_messages params))
    /\ (forall s, cp_system params = Some s -> s <> "").
Proof.
  unfold generateContent.
  destruct (convertToAnthropicFormat request) as [[sys msgs]|e] eqn:Ec;
    cbn [bind]; [|discriminate].
  match goal with
  | |- try_catch (bind (messages_create ?p) _) _ = _ -> _ => set (params := p)
  end.
  destruct (messages_create params) as [completion|e] eqn:Em;
    cbn [bind try_catch]; [|discriminate].
  intros H. injection H as <-.
  exists params, completion. split; [exact Em|]. split; [reflexivity|].
  split; [reflexivity|]. split; [|split].
  - subst params. cbn [cp_max_tokens].
    destruct (sp_max_tokens _) as [n|]; [|discriminate].
    destruct (Z.eqb_spec n 0); [discriminate|assumption].
  - subst params. cbn [cp_messages].
    exact (converted_messages_take_turns _ _ _ Ec).
  - subst params. cbn [cp_system]. intros s.
    destruct sys as [s0|]; [|discriminate].
    destruct (Js.nonempty s0) eqn:En; [|discriminate].
    intros H. injection H as <-. now apply JsFacts.nonempty_true.
Qed.

Lemma systemPartTexts_string parts s :
  In (PartString s) parts -> exists e, systemPartTexts parts = Throws e.
Proof.
  induction parts as [|p parts IH]; [intros []|].
  intros [->|Hin]; cbn [systemPartTexts systemPartText bind]; [eauto|].
  destruct (systemPartText p); cbn [bind]; [|eauto].
  destruct (IH Hin) as [e ->]. cbn [bind]. eauto.
Qed.

(** A system instruction given as a [Content] whose parts include a bare
    string makes [generateContent] throw before any SDK call: the test
    ['text' in p] is applied to the string. *)
Theorem generateContent_rejects_string_system_part
    (request : GenerateContentParameters) (userPromptId : string)
    (c : GenerateContentConfig) (parts : list PartUnion) (s : string) :
  config request = Some c ->
  systemInstruction c = Some (SystemContent (Some parts)) ->
  In (PartString s) parts ->
  exists error, generateContent request userPromptId = Throws error.
Proof.
  intros Hc Hs Hin. unfold generateContent, convertToAnthropicFormat.
  rewrite Hc. cbn [mbind option_bind]. rewrite Hs.
  cbn [extractSystemInstruction systemContentText].
  destruct (systemPartTexts_string parts s Hin) as [e ->].
  cbn [bind]. eauto.
Qed.

End WithAdapter.

End AnthropicRequestFacts.

Module AnthropicWitnesses.
Import Anthropic AnthropicShape.

(** The theorem at the greeting request, answered by the canned adapter. *)
Lemma generateContent_sends_a_well_formed_request_witness :
  exists params completion,
    @messages_create Scenarios.cannedAdapter params = Returns completion
    /\ MoreScenarios.cannedResponse
       = convertToGeminiFormat completion
    /\ cp_model params = @model Scenarios.cannedAdapter
    /\ cp_max_tokens params <> 0%Z
    /\ map role (cp_messages params)
       = alternatingRoles true (length (cp_messages params))
    /\ (forall s, cp_system params = Some s -> s <> "").
Proof.
  apply (@AnthropicRequestFacts.generateContent_sends_a_well_formed_request
           ReferenceJson.lib Scenarios.cannedAdapter Scenarios.greeting "p1").
  vm_compute. reflexivity.
Defined.

(** The theorem at a request with a string among its system parts: the
    canned adapter is never asked. *)
Lemma generateContent_rejects_string_system_part_witness :
  exists error,
    @generateContent ReferenceJson.lib Scenarios.cannedAdapter
      MoreScenarios.stringSystemPart "p1" = Throws error.
Proof.
  apply (@AnthropicRequestFacts.generateContent_rejects_string_system_part
           ReferenceJson.lib Scenarios.cannedAdapter
           MoreScenarios.stringSystemPart "p1"
           MoreScenarios.stringSystemConfig
           [PartString "Be brief."] "Be brief.");
    [reflexivity|reflexivity|now left].
Defined.

End AnthropicWitnesses.

(** ** The reasoning-details marker *)

Module TextFacts.
Import Js Text.

Lemma prefix_iff needle s :
  String.prefix needle s = true <-> exists rest, s = needle +:+ rest.
Proof.
  revert s. induction needle as [|c needle IH]; intros s.
  - split; [intros _; exists s; reflexivity|intros _; now destruct s].
  - destruct s as [|c' s]; cbn [String.prefix].
    + split; [discriminate|]. intros [rest H]. discriminate.
    + destruct (ascii_dec c c') as [<-|Hne].
      * rewrite IH. split; intros [rest H]; exists rest.
        -- now rewrite H.
        -- now injection H.
      * split; [discriminate|]. intros [rest H]. injection H as H _.
        congruence.
Qed.

Lemma includes_iff needle s :
  includes needle s = true <->
  exists before after, s = before +:+ (needle +:+ after).
Proof.
  induction s as [|c s IH]; cbn [includes]; rewrite orb_true_iff, prefix_iff.
  - split.
    + intros [[rest H]|H]; [|discriminate]. exists "", rest. exact H.
    + intros (before & after & H). left.
      destruct before; [|discriminate]. now exists after.
  - rewrite IH. split.
    + intros [[rest H]|(before & after & H)].
      * exists "", rest. exact H.
      * exists (String c before), after. now rewrite H.
    + intros (before & after & H). destruct before as [|c' before].
      * left. now exists after.
      * right. injection H as _ H. now exists before, after.
Qed.

Lemma includes_inside needle before s after :
  includes needle s = true ->
  includes needle (before +:+ (s +:+ after)) = true.
Proof.
  rewrite !includes_iff. intros (b & a & ->).
  exists (before +:+ b), (a +:+ after).
  now rewrite !JsFacts.append_assoc.
Qed.

Lemma slice_suffix n : forall s, exists before, s = before +:+ slice n s.
Proof.
  induction n as [|n IH]; intros s; [now exists ""|].
  destruct s as [|c s]; [now exists ""|].
  destruct (IH s) as [before H]. exists (String c before).
  cbn [slice]. now rewrite H at 1.
Qed.

Lemma strip_suffix patterns fuel : forall s,
  exists before, s = before +:+ strip patterns fuel s.
Proof.
  induction fuel as [|fuel IH]; intros s; [now exists ""|].
  cbn [strip]. destruct (List.find _ patterns) as [w|]; [|now exists ""].
  destruct (String.eqb w ""); [now exists ""|].
  destruct (slice_suffix (String.length w) s) as [before1 H1].
  destruct (IH (slice (String.length w) s)) as [before2 H2].
  exists (before1 +:+ before2).
  now rewrite JsFacts.append_assoc, <- H2.
Qed.

Lemma list_ascii_app a b :
  list_ascii_of_string (a +:+ b)
  = list_ascii_of_string a ++ list_ascii_of_string b.
Proof.
  induction a as [|c a IH]; [reflexivity|].
  change (String c a +:+ b) with (String c (a +:+ b)).
  cbn [list_ascii_of_string app]. now rewrite IH.
Qed.

Lemma string_of_list_app l1 l2 :
  string_of_list_ascii (l1 ++ l2)
  = string_of_list_ascii l1 +:+ string_of_list_ascii l2.
Proof.
  induction l1 as [|c l1 IH]; [reflexivity|].
  cbn [app string_of_list_ascii]. now rewrite IH.
Qed.

Lemma reverse_app a b : reverse (a +:+ b) = reverse b +:+ reverse a.
Proof.
  unfold reverse. now rewrite list_ascii_app, rev_app_distr, string_of_list_app.
Qed.

Lemma reverse_involutive s : reverse (reverse s) = s.
Proof.
  unfold reverse.
  now rewrite list_ascii_of_string_of_list_ascii, rev_involutive,
    string_of_list_ascii_of_string.
Qed.

Lemma trimStart_suffix s : exists before, s = before +:+ trimStart s.
Proof. apply strip_suffix. Qed.

Lemma trimEnd_prefix s : exists after, s = trimEnd s +:+ after.
Proof.
  unfold trimEnd.
  destruct (strip_suffix (map reverse white_space) (String.length s)
              (reverse s)) as [before H].
  exists (reverse before).
  rewrite <- reverse_app, <- H. now rewrite reverse_involutive.
Qed.

(** What [trim] returns is a piece of its argument. *)
Lemma includes_trim needle s :
  includes needle (trim s) = true -> includes needle s = true.
Proof.
  intros H. unfold trim in H.
  destruct (trimStart_suffix s) as [before Hb].
  destruct (trimEnd_prefix (trimStart s)) as [after Ha].
  rewrite Hb, Ha. now apply includes_inside.
Qed.

Lemma prefix_before_LF needle : forall a b,
  singleLine needle = true ->
  String.prefix needle (a +:+ String LF b) = true ->
  String.prefix needle a = true.
Proof.
  induction needle as [|c needle IH]; intros a b Hs H; [now destruct a|].
  cbn [singleLine] in Hs. apply andb_true_iff in Hs as [Hc Hs].
  apply negb_true_iff, Ascii.eqb_neq in Hc.
  destruct a as [|c' a].
  - change ("" +:+ String LF b) with (String LF b) in H.
    cbn [String.prefix] in H.
    destruct (ascii_dec c LF); [contradiction|discriminate].
  - change (String c' a +:+ String LF b) with (String c' (a +:+ String LF b))
      in H.
    cbn [String.prefix] in H |- *.
    destruct (ascii_dec c c'); [|discriminate]. now apply (IH a b).
Qed.

Lemma includes_around_LF needle a b :
  needle <> "" -> singleLine needle = true ->
  includes needle (a +:+ String LF b) = true ->
  includes needle a = true \/ includes needle b = true.
Proof.
  intros Hne Hs. induction a as [|c a IH].
  - change ("" +:+ String LF b) with (String LF b). cbn [includes].
    rewrite orb_true_iff. intros [H|H]; [|now right].
    destruct needle as [|c needle]; [congruence|].
    cbn [singleLine] in Hs. apply andb_true_iff in Hs as [Hc _].
    apply negb_true_iff, Ascii.eqb_neq in Hc.
    cbn [String.prefix] in H.
    destruct (ascii_dec c LF); [contradiction|discriminate].
  - change (String c a +:+ String LF b) with (String c (a +:+ String LF b)).
    cbn [includes]. rewrite !orb_true_iff. intros [H|H].
    + left. left.
      apply (prefix_before_LF needle (String c a) b Hs H).
    + destruct (IH H); auto.
Qed.

Lemma join_lines_cons line lines :
  lines <> [] ->
  join_lines (line :: lines) = line +:+ String LF (join_lines lines).
Proof. destruct lines; [congruence|reflexivity]. Qed.

(** A single-line needle found in joined lines lies within one of them. *)
Lemma includes_join_lines needle lines :
  needle <> "" -> singleLine needle = true ->
  includes needle (join_lines lines) = true ->
  exists line, In line lines /\ includes needle line = true.
Proof.
  intros Hne Hs. induction lines as [|line lines IH].
  - cbn. destruct needle; [congruence|discriminate].
  - destruct lines as [|next lines].
    + cbn [join_lines String.concat]. intros H. exists line. cbn. auto.
    + rewrite join_lines_cons by discriminate. intros H.
      destruct (includes_around_LF _ _ _ Hne Hs H) as [H1|H2].
      * exists line. cbn. auto.
      * destruct (IH H2) as (l & Hin & Hl). exists l. cbn in *. auto.
Qed.

End TextFacts.

Module MarkerFacts.
Import Js Text TextFacts OpenAIConvert.

Lemma filtered_is_clean t :
  includes REASONING_DETAILS_MARKER (filterReasoningDetailsMarker t) = false.
Proof.
  unfold filterReasoningDetailsMarker.
  destruct (includes REASONING_DETAILS_MARKER t) eqn:E; cbn [negb];
    [|exact E].
  destruct (includes REASONING_DETAILS_MARKER (trim _)) eqn:Ef; [|reflexivity].
  apply includes_trim in Ef.
  apply includes_join_lines in Ef as (line & Hin & Hl);
    [|discriminate|reflexivity].
  apply filter_In in Hin as [_ Hn]. now rewrite Hl in Hn.
Qed.

(** [filterReasoningDetailsMarker] returns a text that does not contain the
    marker; it returns its argument when that does not contain it; so
    filtering twice is filtering once. *)
Theorem filterReasoningDetailsMarker_removes_marker (t : string) :
  includes REASONING_DETAILS_MARKER (filterReasoningDetailsMarker t) = false
  /\ (includes REASONING_DETAILS_MARKER t = false ->
      filterReasoningDetailsMarker t = t)
  /\ filterReasoningDetailsMarker (filterReasoningDetailsMarker t)
     = filterReasoningDetailsMarker t.
Proof.
  assert (forall s, includes REASONING_DETAILS_MARKER s = false ->
                    filterReasoningDetailsMarker s = s) as Hid.
  { intros s Hs. unfold filterReasoningDetailsMarker. now rewrite Hs. }
  split; [apply filtered_is_clean|]. split; [apply Hid|].
  apply Hid, filtered_is_clean.
Qed.

Section WithJsonLib.
Context {L : JsonLib}.

Lemma bucketPart_clean b part :
  Forall (fun t => t <> ""
                   /\ includes REASONING_DETAILS_MARKER t = false)
         (textParts b) ->
  Forall (fun t => t <> ""
                   /\ includes REASONING_DETAILS_MARKER t = false)
         (textParts (bucketPart b part)).
Proof.
  intros H.
  assert (forall t, Js.nonempty (filterReasoningDetailsMarker t) = true ->
            Forall (fun t => t <> ""
                             /\ includes REASONING_DETAILS_MARKER t = false)
                   (textParts (pushText b (filterReasoningDetailsMarker t))))
    as Hpush.
  { intros t Hne. cbn [pushText textParts]. apply Forall_app. split; [exact H|].
    constructor; [|constructor]. split.
    - now apply JsFacts.nonempty_true.
    - apply filtered_is_clean. }
  unfold bucketPart. destruct part as [s|p].
  - destruct (Js.nonempty _) eqn:E; [now apply Hpush|exact H].
  - destruct (Js.truthy_str (text p)).
    + destruct (thought p && _).
      * destruct (JSON_parse _); exact H.
      * destruct (negb (thought p)); [|exact H].
        destruct (Js.nonempty _) eqn:E; [now apply Hpush|exact H].
    + destruct (functionCall p) as [fc|].
      * destruct (thoughtSignature p) as [signature|]; [|exact H].
        destruct (_ && _); exact H.
      * destruct (functionResponse p); exact H.
Qed.

(** Whatever the parts of a turn, no text the OpenAI converter collects
    for the message is empty or contains the reasoning-details marker. *)
Theorem collected_texts_are_clean (parts : list PartUnion) :
  Forall (fun t => t <> ""
                   /\ includes REASONING_DETAILS_MARKER t = false)
         (textParts (bucketParts parts)).
Proof.
  unfold bucketParts.
  assert (forall b,
            Forall (fun t => t <> ""
                             /\ includes REASONING_DETAILS_MARKER t = false)
                   (textParts b) ->
            Forall (fun t => t <> ""
                             /\ includes REASONING_DETAILS_MARKER t = false)
                   (textParts (foldl bucketPart b parts))) as H.
  { induction parts as [|part parts IH]; intros b Hb; [exact Hb|].
    cbn [foldl]. apply IH. now apply bucketPart_clean. }
  apply H. constructor.
Qed.

End WithJsonLib.
End MarkerFacts.

(** ** Tool calls, messages and tools of the requests *)

Module CallIdFacts.
Import OpenAI OpenAIConvert.
Section WithJsonLib.
Context {L : JsonLib}.

Lemma append_cancel_l (p a b : string) : p +:+ a = p +:+ b -> a = b.
Proof.
  induction p as [|c p IH]; [trivial|].
  intros H. injection H as H. now apply IH.
Qed.

Lemma bucketPart_calls b part fc :
  fc ∈ functionCalls (bucketPart b part) ->
  fc ∈ functionCalls b
  \/ exists p, part = PartObject p /\ functionCall p = Some fc.
Proof.
  unfold bucketPart. destruct part as [s|p].
  - destruct (Js.nonempty _); auto.
  - destruct (Js.truthy_str (text p)).
    + destruct (thought p && _); [destruct (JSON_parse _); auto|].
      destruct (negb (thought p)); [|auto]. destruct (Js.nonempty _); auto.
    + destruct (functionCall p) as [fc'|] eqn:Ef.
      * assert (fc ∈ functionCalls b ++ [fc'] ->
                fc ∈ functionCalls b
                \/ exists p0, PartObject p = PartObject p0
                              /\ functionCall p0 = Some fc) as Hadd.
        { rewrite elem_of_app, list_elem_of_singleton.
          intros [?| ->]; [auto|]. right. eauto. }
        destruct (thoughtSignature p) as [signature|]; [|exact Hadd].
        destruct (_ && _); exact Hadd.
      * destruct (functionResponse p); auto.
Qed.

Lemma bucketParts_calls parts fc :
  fc ∈ functionCalls (bucketParts parts) ->
  exists p, PartObject p ∈ parts /\ functionCall p = Some fc.
Proof.
  unfold bucketParts.
  assert (forall b,
            fc ∈ functionCalls (foldl bucketPart b parts) ->
            fc ∈ functionCalls b
            \/ exists p, PartObject p ∈ parts /\ functionCall p = Some fc)
    as H.
  { induction parts as [|part parts IH]; intros b; cbn [foldl]; [auto|].
    intros Hfc. destruct (IH _ Hfc) as [Hb|(p & Hin & Hp)].
    - destruct (bucketPart_calls _ _ _ Hb) as [?|(p & -> & Hp)]; [auto|].
      right. exists p. split; [apply elem_of_cons; now left|exact Hp].
    - right. exists p. split; [apply elem_of_cons; now right|exact Hp]. }
  intros Hfc. destruct (H _ Hfc) as [Hn|?]; [|assumption].
  now apply elem_of_nil in Hn.
Qed.

(** The tool calls of a model turn whose function calls all come without
    id are sent with the ids [call_0], [call_1], ...: one per function
    call, all different. *)
Theorem generated_call_ids_are_distinct
    (contentRole : string) (parts : option (list PartUnion))
    (message : Message) (calls : list ToolCall) :
  (forall p fc, PartObject p ∈ default [] parts ->
                functionCall p = Some fc -> Js.truthy_str (fc_id fc) = false) ->
  message ∈ convertContent contentRole parts ->
  tool_calls message = Some calls ->
  NoDup (map tc_id calls)
  /\ length calls = length (functionCalls (bucketParts (default [] parts)))
  /\ forall i c, calls !! i = Some c -> tc_id c = "call_" +:+ pretty i.
Proof.
  intros Hids Hm Hcalls. unfold convertContent in Hm.
  set (b := bucketParts (default [] parts)) in *.
  assert (forall fc, fc ∈ functionCalls b -> Js.truthy_str (fc_id fc) = false)
    as Hb.
  { intros fc Hfc. destruct (bucketParts_calls _ _ Hfc) as (p & Hin & Hp).
    exact (Hids p fc Hin Hp). }
  destruct (functionResponses b) as [|fr frs].
  - destruct (String.eqb contentRole "model" && (0 <? length (functionCalls b))).
    + apply list_elem_of_singleton in Hm. subst message.
      cbn [tool_calls] in Hcalls. injection Hcalls as <-.
      assert (forall i c,
                imap (fun index fc =>
                        {| tc_id := Js.str_or (fc_id fc)
                                      ("call_" +:+ pretty index);
                           tc_type := "function";
                           tc_name := Js.str_or (fc_name fc) "";
                           tc_arguments :=
                             JSON_stringify (default (JObj []) (fc_args fc)) |})
                  (functionCalls b) !! i = Some c ->
                tc_id c = "call_" +:+ pretty i) as Hid.
      { intros i c Hi. rewrite list_lookup_imap in Hi.
        destruct (functionCalls b !! i) as [fc|] eqn:Efc; [|discriminate].
        cbn in Hi. injection Hi as <-. cbn [tc_id].
        assert (Js.truthy_str (fc_id fc) = false) as Hf
          by (apply Hb; eapply list_elem_of_lookup_2; eassumption).
        unfold Js.str_or. destruct (fc_id fc) as [i0|]; [|reflexivity].
        cbn [Js.truthy_str] in Hf. now rewrite Hf. }
      split; [|split; [apply length_imap|exact Hid]].
      apply NoDup_alt. intros i j x Hi Hj.
      rewrite list_lookup_fmap in Hi, Hj.
      destruct (imap _ _ !! i) as [ci|] eqn:Ei; [|discriminate].
      destruct (imap _ _ !! j) as [cj|] eqn:Ej; [|discriminate].
      cbn in Hi, Hj. injection Hi as Hi. injection Hj as Hj.
      rewrite (Hid _ _ Ei) in Hi. rewrite (Hid _ _ Ej) in Hj.
      rewrite <- Hj in Hi. apply append_cancel_l in Hi.
      now apply (inj pretty) in Hi.
    + destruct (Js.nonempty _); [|now apply elem_of_nil in Hm].
      apply list_elem_of_singleton in Hm. subst message. discriminate.
  - apply list_elem_of_fmap in Hm as (r & -> & _). discriminate.
Qed.

End WithJsonLib.
End CallIdFacts.

Module CallIdWitness.
Import OpenAI OpenAIConvert.

(** The theorem at a turn with two calls without id. *)
Lemma generated_call_ids_are_distinct_witness :
  NoDup (map tc_id MoreScenarios.twoCalls)
  /\ length MoreScenarios.twoCalls
     = length (functionCalls
                 (@bucketParts ReferenceJson.lib
                    MoreScenarios.twoCallsWithoutId))
  /\ forall i c, MoreScenarios.twoCalls !! i = Some c ->
                 tc_id c = "call_" +:+ pretty i.
Proof.
  apply (@CallIdFacts.generated_call_ids_are_distinct ReferenceJson.lib
           "model" (Some MoreScenarios.twoCallsWithoutId)
           MoreScenarios.twoCallsMessage MoreScenarios.twoCalls).
  - intros p fc Hin Hfc.
    change (PartObject p ∈ [MoreScenarios.callPart "list_directory";
                            MoreScenarios.callPart "read_file"]) in Hin.
    rewrite !elem_of_cons, elem_of_nil in Hin.
    destruct Hin as [Hp|[Hp|[]]]; injection Hp as ->;
      cbn in Hfc; injection Hfc as <-; reflexivity.
  - assert (@convertContent ReferenceJson.lib "model"
              (Some MoreScenarios.twoCallsWithoutId)
            = [MoreScenarios.twoCallsMessage]) as ->
      by (vm_compute; reflexivity).
    apply list_elem_of_singleton. reflexivity.
  - reflexivity.
Defined.

End CallIdWitness.

Module BedrockMessageFacts.
Import BedrockConvert BedrockShape.

Section WithJsonLib.
Context {L : JsonLib}.

Lemma bucketPart_shape b part :
  forallb isText (contentBlocks b) = true ->
  forallb isToolResult (toolResults b) = true ->
  forallb isText (contentBlocks (bucketPart b part)) = true
  /\ forallb isToolResult (toolResults (bucketPart b part)) = true
  /\ length (toolResults (bucketPart b part))
     = length (toolResults b) + length (answersIn [part]).
Proof.
  intros Ht Hr. unfold bucketPart, answersIn. cbn [omap list_omap].
  destruct part as [s|p].
  - cbn [contentBlocks toolResults]. rewrite forallb_app, Ht.
    repeat split; cbn; auto with lia.
  - destruct (Js.truthy_str (text p) && negb (thought p)).
    + cbn [contentBlocks toolResults]. rewrite forallb_app, Ht.
      repeat split; cbn; auto with lia.
    + destruct (functionCall p) as [fc|].
      * cbn [contentBlocks toolResults]. repeat split; cbn; auto with lia.
      * destruct (functionResponse p) as [fr|].
        -- cbn [contentBlocks toolResults]. rewrite forallb_app, Hr.
           rewrite length_app. repeat split; cbn; auto with lia.
        -- repeat split; cbn; auto with lia.
Qed.

Lemma answersIn_cons part parts :
  length (answersIn (part :: parts))
  = length (answersIn [part]) + length (answersIn parts).
Proof.
  unfold answersIn.
  change (part :: parts) with ([part] ++ parts).
  now rewrite omap_app, length_app.
Qed.

Lemma foldl_bucketPart_shape parts : forall b,
  forallb isText (contentBlocks b) = true ->
  forallb isToolResult (toolResults b) = true ->
  forallb isText (contentBlocks (foldl bucketPart b parts)) = true
  /\ forallb isToolResult (toolResults (foldl bucketPart b parts)) = true
  /\ length (toolResults (foldl bucketPart b parts))
     = length (toolResults b) + length (answersIn parts).
Proof.
  induction parts as [|part parts IH]; intros b Ht Hr.
  - cbn. auto with lia.
  - cbn [foldl].
    destruct (bucketPart_shape b part Ht Hr) as (Ht' & Hr' & Hl).
    destruct (IH _ Ht' Hr') as (Ht'' & Hr'' & Hl'').
    rewrite answersIn_cons. repeat split; auto. lia.
Qed.

Lemma text_is_no_tool_result blocks :
  forallb isText blocks = true ->
  forallb (fun block => negb (isToolResult block)) blocks = true.
Proof.
  rewrite !forallb_forall. intros H block Hin.
  specialize (H block Hin). now destruct block.
Qed.

Lemma convertContent_shape now contentRole parts :
  Forall (fun m =>
            content m <> []
            /\ ((role m = "user"
                 /\ (forallb isToolResult (content m) = true
                     \/ forallb isText (content m) = true))
                \/ (role m = "assistant"
                    /\ forallb (fun block => negb (isToolResult block))
                         (content m) = true)))
         (convertContent now contentRole parts)
  /\ (answersIn (default [] parts) <> [] ->
      exists results,
        convertContent now contentRole parts
        = [{| role := "user"; content := results |}]
        /\ forallb isToolResult results = true
        /\ length results = length (answersIn (default [] parts))).
Proof.
  unfold convertContent, bucketParts.
  destruct (foldl_bucketPart_shape (default [] parts)
              {| contentBlocks := []; toolResults := [];
                 functionCalls := [] |} eq_refl eq_refl) as (Ht & Hr & Hl).
  cbn [toolResults length Nat.add] in Hl.
  set (b := foldl bucketPart _ _) in *.
  destruct (toolResults b) as [|r rs] eqn:E.
  - split.
    + destruct (String.eqb contentRole "model") eqn:Em; cbn [andb].
      * destruct (0 <? length (functionCalls b)) eqn:Ec.
        -- constructor; [|constructor]. cbn [role content]. split.
           ++ apply Nat.ltb_lt in Ec.
              destruct (functionCalls b); [cbn in Ec; lia|].
              intros Habs. apply (f_equal length) in Habs.
              rewrite length_app in Habs. cbn in Habs. lia.
           ++ right. split; [reflexivity|].
              rewrite forallb_app, (text_is_no_tool_result _ Ht).
              cbn [andb]. apply forallb_forall. intros block Hin.
              apply in_map_iff in Hin as (fc & <- & _). reflexivity.
        -- destruct (contentBlocks b) eqn:Eb; constructor; [|constructor].
           cbn [role content]. split; [discriminate|].
           right. split; [reflexivity|].
           now apply text_is_no_tool_result.
      * destruct (contentBlocks b) eqn:Eb; constructor; [|constructor].
        cbn [role content]. split; [discriminate|].
        left. split; [reflexivity|]. now right.
    + intros Hne. cbn in Hl. destruct (answersIn (default [] parts));
        [congruence|discriminate].
  - split.
    + constructor; [|constructor]. cbn [role content].
      split; [discriminate|]. left. split; [reflexivity|]. now left.
    + intros _. eexists. split; [reflexivity|]. split; assumption.
Qed.

End WithJsonLib.

(** Every message [convertToBedrockFormat] builds has at least one content
    block and the role [user] or [assistant]; a user message holds tool
    results only or text only, and an assistant message holds no tool
    result.  A content object with a function response that the loop
    reaches becomes one user message of exactly its tool results, whatever
    its role, its text and its function calls. *)
Theorem bedrock_messages_are_well_formed {L : JsonLib} (now : nat)
    (contents : Contents) :
  Forall (fun m =>
            content m <> []
            /\ ((role m = "user"
                 /\ (forallb isToolResult (content m) = true
                     \/ forallb isText (content m) = true))
                \/ (role m = "assistant"
                    /\ forallb (fun block => negb (isToolResult block))
                         (content m) = true)))
         (convertMessages now contents)
  /\ (forall contentRole parts,
        answersIn (default [] parts) <> [] ->
        exists results,
          convertMessages now
            (ContentsArray [ContentObject contentRole parts])
          = [{| role := "user"; content := results |}]
          /\ forallb isToolResult results = true
          /\ length results = length (answersIn (default [] parts))).
Proof.
  split.
  - destruct contents as [items|single].
    + cbn [convertMessages]. induction items as [|item items IH];
        [constructor|].
      cbn [flat_map]. apply Forall_app. split; [|exact IH].
      destruct item as [s|contentRole parts|].
      * constructor; [|constructor]. cbn [role content].
        split; [discriminate|]. left. split; [reflexivity|]. now right.
      * apply convertContent_shape.
      * constructor.
    + destruct single as [s|contentRole parts|]; cbn [convertMessages].
      * destruct (Js.nonempty s); constructor; [|constructor].
        cbn [role content]. split; [discriminate|].
        left. split; [reflexivity|]. now right.
      * destruct (Js.nonempty _); constructor; [|constructor].
        cbn [role content]. split; [discriminate|].
        destruct (String.eqb contentRole "model").
        -- right. split; reflexivity.
        -- left. split; [reflexivity|]. now right.
      * constructor.
  - intros contentRole parts Hne. cbn [convertMessages flat_map].
    rewrite app_nil_r.
    exact (proj2 (convertContent_shape now contentRole parts) Hne).
Qed.

End BedrockMessageFacts.

Module ToolFacts.
Import OpenAIResponses ToolShape.

Lemma filter_described_sublist (declarations : list FunctionDeclaration) :
  map nameOf (List.filter described declarations)
  `sublist_of` map nameOf (List.filter named declarations).
Proof.
  induction declarations as [|func rest IH]; [constructor|].
  cbn [List.filter]. unfold described at 1, named at 1.
  destruct (Js.truthy_str (fd_name func)); cbn [andb]; [|exact IH].
  destruct (Js.truthy_str (fd_description func)); cbn [map].
  - now apply sublist_skip.
  - now apply sublist_cons.
Qed.

Lemma truthy_str_nonempty (s : option string) :
  Js.truthy_str s = true -> Js.str_or s "" <> "".
Proof. destruct s as [[|c s]|]; cbn; congruence. Qed.

Section WithJsonLib.
Context {L : JsonLib}.

Lemma openai_declarations (declarations : list FunctionDeclaration) :
  let sent := flat_map
    (fun func =>
       if Js.truthy_str (fd_name func) && Js.truthy_str (fd_description func)
       then [{| ft_name := Js.str_or (fd_name func) "";
                ft_description := Js.str_or (fd_description func) "";
                ft_parameters :=
                  Schema.convertGeminiParametersToOpenAI
                    (default (JObj []) (fd_parameters func)) |}]
       else []) declarations in
  map ft_name sent = map nameOf (List.filter described declarations)
  /\ Forall (fun tool => ft_name tool <> "" /\ ft_description tool <> "")
       sent.
Proof.
  induction declarations as [|func rest [IHn IHf]]; [split; constructor|].
  cbn [flat_map List.filter]. unfold described at 1.
  destruct (Js.truthy_str (fd_name func)) eqn:En; cbn [andb]; [|now split].
  destruct (Js.truthy_str (fd_description func)) eqn:Ed; [|now split].
  cbn [app map ft_name]. split; [now rewrite IHn|].
  constructor; [|exact IHf]. cbn [ft_name ft_description].
  split; now apply truthy_str_nonempty.
Qed.

Lemma anthropic_declarations (declarations : list FunctionDeclaration) :
  let sent := flat_map
    (fun func =>
       if Js.truthy_str (fd_name func)
       then [{| Anthropic.tool_name := Js.str_or (fd_name func) "";
                Anthropic.tool_description :=
                  Js.str_or (fd_description func) "";
                Anthropic.input_schema :=
                  match fd_parameters func with
                  | Some p =>
                      if Js.truthy p then p
                      else JObj [("type", JStr "object");
                                 ("properties", JObj [])]
                  | None => JObj [("type", JStr "object");
                                  ("properties", JObj [])]
                  end |}]
       else []) declarations in
  map Anthropic.tool_name sent
  = map nameOf (List.filter named declarations)
  /\ Forall (fun tool => Anthropic.tool_name tool <> "") sent
  /\ (forall func parameters,
        func ∈ declarations ->
        named func = true ->
        fd_parameters func = Some parameters ->
        Js.truthy parameters = true ->
        {| Anthropic.tool_name := nameOf func;
           Anthropic.tool_description := Js.str_or (fd_description func) "";
           Anthropic.input_schema := parameters |} ∈ sent).
Proof.
  induction declarations as [|func rest (IHn & IHf & IHp)].
  - repeat split; try constructor. intros ? ? Hin.
    now apply elem_of_nil in Hin.
  - cbn [flat_map List.filter]. unfold named at 1.
    destruct (Js.truthy_str (fd_name func)) eqn:En.
    + cbn [app map Anthropic.tool_name]. split; [now rewrite IHn|].
      split.
      * constructor; [|exact IHf]. cbn [Anthropic.tool_name].
        now apply truthy_str_nonempty.
      * intros func' parameters Hin Hnamed Hp Ht.
        apply elem_of_cons in Hin as [ -> | Hin].
        -- rewrite Hp, Ht. apply elem_of_cons. now left.
        -- apply elem_of_cons. right. now apply IHp.
    + split; [exact IHn|]. split; [exact IHf|].
      intros func' parameters Hin Hnamed Hp Ht.
      apply elem_of_cons in Hin as [ -> | Hin].
      * unfold named in Hnamed. congruence.
      * now apply IHp.
Qed.

Lemma openai_tools (geminiTools : list Tool) :
  map ft_name (convertGeminiToolsToOpenAI geminiTools)
  = map nameOf (List.filter described (declarationsOf geminiTools))
  /\ Forall (fun tool => ft_name tool <> "" /\ ft_description tool <> "")
       (convertGeminiToolsToOpenAI geminiTools).
Proof.
  unfold convertGeminiToolsToOpenAI, declarationsOf.
  induction geminiTools as [|actualTool rest [IHn IHf]];
    [split; constructor|].
  cbn [flat_map]. rewrite map_app, List.filter_app, map_app, IHn.
  destruct (functionDeclarations actualTool) as [declarations|];
    cbn [default].
  - destruct (openai_declarations declarations) as [Hn Hf]. rewrite Hn.
    split; [reflexivity|]. apply Forall_app. now split.
  - now split.
Qed.

Lemma anthropic_tools (geminiTools : list Tool) :
  map Anthropic.tool_name
    (Anthropic.convertGeminiToolsToAnthropic geminiTools)
  = map nameOf (List.filter named (declarationsOf geminiTools))
  /\ Forall (fun tool => Anthropic.tool_name tool <> "")
       (Anthropic.convertGeminiToolsToAnthropic geminiTools)
  /\ (forall func parameters,
        func ∈ declarationsOf geminiTools ->
        named func = true ->
        fd_parameters func = Some parameters ->
        Js.truthy parameters = true ->
        {| Anthropic.tool_name := nameOf func;
           Anthropic.tool_description :=
             Js.str_or (fd_description func) "";
           Anthropic.input_schema := parameters |}
        ∈ Anthropic.convertGeminiToolsToAnthropic geminiTools).
Proof.
  unfold Anthropic.convertGeminiToolsToAnthropic, declarationsOf.
  induction geminiTools as [|actualTool rest (IHn & IHf & IHp)].
  - repeat split; try constructor. intros ? ? Hin.
    now apply elem_of_nil in Hin.
  - cbn [flat_map]. rewrite map_app, List.filter_app, map_app, IHn.
    destruct (functionDeclarations actualTool) as [declarations|];
      cbn [default].
    + destruct (anthropic_declarations declarations) as (Hn' & Hf' & Hp').
      rewrite Hn'. split; [reflexivity|]. split.
      * apply Forall_app. now split.
      * intros func parameters Hin Hnamed Hp Ht.
        apply elem_of_app in Hin as [Hin|Hin]; apply elem_of_app.
        -- left. now apply Hp'.
        -- right. now apply IHp.
    + split; [reflexivity|]. split; [exact IHf|].
      intros func parameters Hin. cbn [app] in Hin |- *. now apply IHp.
Qed.

End WithJsonLib.

(** The OpenAI adapter sends a function declaration as a tool only when
    both its name and its description are non-empty, the Anthropic adapter
    whenever its name is non-empty: in the order of the declarations, the
    OpenAI tools are the described declarations and the Anthropic tools
    the named ones, so every tool the OpenAI adapter sends the Anthropic
    adapter sends too.  The Anthropic adapter passes truthy parameters on
    unchanged. *)
Theorem adapters_differ_on_undescribed_tools {L : JsonLib}
    (geminiTools : list Tool) :
  let openai := convertGeminiToolsToOpenAI geminiTools in
  let anthropic := Anthropic.convertGeminiToolsToAnthropic geminiTools in
  map ft_name openai
  = map nameOf (List.filter described (declarationsOf geminiTools))
  /\ map Anthropic.tool_name anthropic
     = map nameOf (List.filter named (declarationsOf geminiTools))
  /\ map ft_name openai `sublist_of` map Anthropic.tool_name anthropic
  /\ Forall (fun tool => ft_name tool <> "" /\ ft_description tool <> "")
       openai
  /\ Forall (fun tool => Anthropic.tool_name tool <> "") anthropic
  /\ (forall func parameters,
        func ∈ declarationsOf geminiTools ->
        named func = true ->
        fd_parameters func = Some parameters ->
        Js.truthy parameters = true ->
        {| Anthropic.tool_name := nameOf func;
           Anthropic.tool_description := Js.str_or (fd_description func) "";
           Anthropic.input_schema := parameters |} ∈ anthropic).
Proof.
  cbv zeta.
  destruct (openai_tools geminiTools) as [Hn Hf].
  destruct (anthropic_tools geminiTools) as (Hn' & Hf' & Hp').
  split; [exact Hn|]. split; [exact Hn'|]. split.
  - rewrite Hn, Hn'. apply filter_described_sublist.
  - split; [exact Hf|]. split; [exact Hf'|exact Hp'].
Qed.

End ToolFacts.

(** ** Timeout detection and the Bedrock model table *)

Module TimeoutFacts.
Import Js TextFacts OpenAIErrors.

Lemma includes_trans a b s :
  includes a b = true -> includes b s = true -> includes a s = true.
Proof.
  rewrite !includes_iff. intros (b1 & b2 & ->) (s1 & s2 & ->).
  exists (s1 +:+ b1), (b2 +:+ s2). now rewrite !JsFacts.append_assoc.
Qed.

Lemma not_includes_longer a b s :
  includes a b = true -> includes a s = false -> includes b s = false.
Proof.
  intros Hab Has. destruct (includes b s) eqn:E; [|reflexivity].
  now rewrite (includes_trans _ _ _ Hab E) in Has.
Qed.

(** [isTimeoutError] is decided by eight of its twelve tests: the tests for
    "connection timeout", "request timeout", "read timeout" and "request
    timed out" never change the result.  So an error is taken for a timeout
    as soon as its message contains "timeout" or "timed out" in any letter
    case, whatever else it says. *)
Theorem isTimeoutError_deciding_tests (numberToString : Z -> string)
    (error : Thrown) :
  isTimeoutError numberToString error = decidingTests numberToString error
  /\ forall message before after code type,
       (toLowerCase message = before +:+ ("timeout" +:+ after)
        \/ toLowerCase message = before +:+ ("timed out" +:+ after)) ->
       isTimeoutError numberToString (ErrorInstance message code type)
       = true.
Proof.
  split.
  - unfold isTimeoutError, decidingTests.
    destruct (isFalsy error); [reflexivity|]. cbn [negb andb].
    set (m := errorMessageOf numberToString error).
    destruct (includes "timeout" m) eqn:E1; [reflexivity|].
    rewrite (not_includes_longer "timeout" "connection timeout" m eq_refl E1).
    rewrite (not_includes_longer "timeout" "request timeout" m eq_refl E1).
    rewrite (not_includes_longer "timeout" "read timeout" m eq_refl E1).
    destruct (includes "timed out" m) eqn:E2; [reflexivity|].
    rewrite (not_includes_longer "timed out" "request timed out" m eq_refl E2).
    cbn [orb]. now rewrite !orb_false_r.
  - intros message before after code type H.
    unfold isTimeoutError. cbn [isFalsy errorMessageOf].
    destruct H as [H|H].
    + assert (includes "timeout" (toLowerCase message) = true) as ->
        by (apply includes_iff; eauto).
      reflexivity.
    + assert (includes "timed out" (toLowerCase message) = true) as ->
        by (apply includes_iff; eauto).
      now rewrite orb_true_r.
Qed.

End TimeoutFacts.

Module ModelFacts.
Import Models.

Lemma listed_elem region modelRegions :
  listed region modelRegions = true <-> region ∈ modelRegions.
Proof.
  unfold listed. rewrite existsb_exists, list_elem_of_In. split.
  - intros (r & Hin & Hr). apply String.eqb_eq in Hr. now subst.
  - intros Hin. exists region. split; [assumption|apply String.eqb_refl].
Qed.

Lemma table_entries model modelRegions :
  Js.get_field model BEDROCK_MODEL_REGIONS = Some modelRegions ->
  isBedrockModel model = true
  /\ listed "us-east-1" modelRegions = true
  /\ listed "us-west-2" modelRegions = true.
Proof.
  intros H.
  assert (forallb (fun kv => isBedrockModel (fst kv)
                             && listed "us-east-1" (snd kv)
                             && listed "us-west-2" (snd kv))
            BEDROCK_MODEL_REGIONS = true) as Hall by reflexivity.
  pose proof (SchemaFacts.get_field_forallb _ _ _ _ Hall H) as Hm.
  cbn [fst snd] in Hm.
  apply andb_true_iff in Hm as [Hm H2]. apply andb_true_iff in Hm as [H0 H1].
  auto.
Qed.

(** [validateBedrockModelRegion] rejects a pair only when the model is in
    the table and the region is not one of its regions; the suggestions it
    then gives are the regions of that model, and the same model validates
    in each of them. It throws only for a model name that is a member of
    [Object.prototype]. *)
Theorem validateBedrockModelRegion_suggestions_are_valid
    (model region : string) :
  (forall result,
      validateBedrockModelRegion model region = Returns result ->
      valid result = false ->
      exists modelRegions,
        Js.get_field model BEDROCK_MODEL_REGIONS = Some modelRegions
        /\ (region ∉ modelRegions)
        /\ suggestions result = Some modelRegions
        /\ forall suggested, suggested ∈ modelRegions ->
             validateBedrockModelRegion model suggested
             = Returns {| valid := true; message := None;
                          suggestions := None |})
  /\ (forall error,
        validateBedrockModelRegion model region = Throws error ->
        Js.inherited model = true).
Proof.
  unfold validateBedrockModelRegion.
  destruct (Js.get_field model BEDROCK_MODEL_REGIONS) as [modelRegions|].
  - split.
    + destruct (listed region modelRegions) eqn:E; cbn [negb];
        intros result H; injection H as <-; cbn [valid suggestions];
        [discriminate|]. intros _.
      exists modelRegions. split; [reflexivity|]. split.
      * intros Hin. apply listed_elem in Hin. congruence.
      * split; [reflexivity|]. intros suggested Hs.
        apply listed_elem in Hs. now rewrite Hs.
    + intros error. destruct (negb _); discriminate.
  - split.
    + destruct (Js.inherited model); [discriminate|].
      intros result H. injection H as <-. discriminate.
    + destruct (Js.inherited model); [reflexivity|discriminate].
Qed.

(** Every model of the table is recognised by [isBedrockModel] and is
    available in [us-east-1], the region the adapter's error message tells
    the user to switch to, and in [us-west-2]. *)
Theorem listed_models_validate_in_us_east_1 (model : string)
    (modelRegions : list string) :
  Js.get_field model BEDROCK_MODEL_REGIONS = Some modelRegions ->
  isBedrockModel model = true
  /\ validateBedrockModelRegion model "us-east-1"
     = Returns {| valid := true; message := None; suggestions := None |}
  /\ validateBedrockModelRegion model "us-west-2"
     = Returns {| valid := true; message := None; suggestions := None |}.
Proof.
  intros H. destruct (table_entries _ _ H) as (Hb & He & Hw).
  unfold validateBedrockModelRegion. rewrite H, He, Hw. auto.
Qed.

Lemma listed_models_validate_in_us_east_1_witness :
  isBedrockModel DEFAULT_BEDROCK_MODEL = true
  /\ validateBedrockModelRegion DEFAULT_BEDROCK_MODEL "us-east-1"
     = Returns {| valid := true; message := None; suggestions := None |}
  /\ validateBedrockModelRegion DEFAULT_BEDROCK_MODEL "us-west-2"
     = Returns {| valid := true; message := None; suggestions := None |}.
Proof.
  apply (listed_models_validate_in_us_east_1 DEFAULT_BEDROCK_MODEL
           ["us-east-1"; "us-west-2"; "eu-west-1"; "eu-central-1";
            "ap-southeast-1"; "ap-northeast-1"]).
  reflexivity.
Defined.

End ModelFacts.
